(** * Timelock auction (src/timelock_contracts.py): shallow embedding

    The contract is a PyTeal program for the Algorand virtual machine (AVM).
    Every ABI method of [build_router] is a [Seq] of [Assert]s, state writes
    and inner transactions.  It is embedded here as a function from the
    application state and the transaction environment to [result State]:
    [Ok st'] when the method reaches [Approve()], [Err e] when an [Assert]
    fails or an opcode panics.  The AVM runs a transaction group atomically,
    so [Err] means that the state before the call is kept.

    - uint64 values are [N]; [+] and [*] panic on overflow as the AVM does;
    - byte strings (hashes, addresses, keys) are [string];
    - global state is a record with one field per key, absent before
      [create] has written it; local state, one record per opted-in account,
      and boxes are finite maps;
    - inner transactions and the bond payment of the group are appended to
      a log of events, newest first.

    Resource limits of the ledger (state schema, opcode budget, minimum
    balance, the escrow balance behind an inner payment, box references) are
    outside the model. *)

From Stdlib Require Import NArith Ascii String List Lia Bool.
From stdpp Require Import base option gmap strings.

Local Open Scope N_scope.

(** ** Values *)

Abbreviation bytes := string.

Definition uint64_max : N := 2 ^ 64 - 1.

(** ** Outcome of a call

    TEAL has a single way to fail.  The constructors name the failing
    [Assert] by what it guards; [Overflow], [NotOptedIn], [TypeError]
    and [BoxError] are opcode panics, [Rejected] is the router's. *)

Inductive error : Type :=
  | PhaseViolation
  | InvalidSchedule
  | BadPayment
  | AlreadyCommitted
  | DuplicateCommitment
  | BadAttestation
  | UnknownCommitment
  | CommitmentMismatch
  | AlreadyRevealed
  | BidBelowMinimum
  | AlreadySettled
  | Unauthorized
  | PriceMismatch
  | NoFallbackBidder
  | NotRevealed
  | AlreadyRefunded
  | Overflow
  | NotOptedIn
  | TypeError
  | BoxError
  | Rejected.

Inductive result (A : Type) : Type :=
  | Ok (a : A)
  | Err (e : error).
Arguments Ok {A} a.
Arguments Err {A} e.

#[global] Instance result_ret : MRet result := fun _ a => Ok a.
#[global] Instance result_bind : MBind result := fun _ _ f m =>
  match m with
  | Ok a => f a
  | Err e => Err e
  end.

Definition Assert (b : bool) (e : error) : result unit :=
  if b then Ok tt else Err e.

(** What the ledger holds after a call from [st]: the new state when the
    call is approved, [st] itself when it fails. *)
Definition outcome {A} (st : A) (r : result A) : A :=
  match r with
  | Ok st' => st'
  | Err _ => st
  end.

(** ** AVM arithmetic and byte opcodes *)

Definition add64 (a b : N) : result N :=
  if a + b <=? uint64_max then Ok (a + b) else Err Overflow.

Definition mul64 (a b : N) : result N :=
  if a * b <=? uint64_max then Ok (a * b) else Err Overflow.

(** [Itob]: the 8 bytes of a uint64, most significant first; [Btoi] reads
    them back. *)
Fixpoint be_bytes (k : nat) (n : N) (acc : bytes) : bytes :=
  match k with
  | O => acc
  | S k' => be_bytes k' (n / 256) (String (ascii_of_N (n mod 256)) acc)
  end.

Definition Itob (n : N) : bytes := be_bytes 8 n EmptyString.

Fixpoint Btoi_from (acc : N) (b : bytes) : N :=
  match b with
  | EmptyString => acc
  | String c rest => Btoi_from (acc * 256 + N_of_ascii c) rest
  end.

Definition Btoi (b : bytes) : N := Btoi_from 0 b.

Definition len (b : bytes) : N := N.of_nat (String.length b).

Definition bytes_eqb (a b : bytes) : bool := bool_decide (a = b).

(** The two cryptographic opcodes the contract uses are primitives of the
    AVM; the contract is embedded over any implementation of them. *)
Class Crypto : Type := {
  Sha256 : bytes -> bytes;
  Ed25519Verify_Bare : bytes -> bytes -> bytes -> bool
}.

(** ** Application state *)

(** Global state: the keys [SELLER] .. [SETTLE_ROUND]. *)
Record GlobalState : Type := {
  SELLER : bytes;
  ASA_QUOTE : N;
  RESERVE : N;
  MIN_BID : N;
  BOND : N;
  SECOND_PRICE : N;
  COMMIT_END : N;
  UNLOCK_SLACK : N;
  PAY_WINDOW : N;
  ORACLE_PK : bytes;
  P_HASH : bytes;
  WINNER : bytes;
  WIN_BID : N;
  SECOND_BID : N;
  SECOND_WINNER : bytes;
  SETTLED : N;
  SETTLE_ROUND : N
}.

(** Local state of one account: the keys [COMMIT] .. [REMAINING_BOND].  A
    key that was never written reads as uint64 0; for the three byte-string
    keys this is [None], and using it as bytes is a type panic. *)
Record LocalState : Type := {
  COMMIT : option bytes;
  C_CID : option bytes;
  ANON_KEY : option bytes;
  BONDED : N;
  REVEALED : N;
  BID : N;
  REFUNDED : N;
  REMAINING_BOND : N
}.

Definition empty_local : LocalState :=
  {| COMMIT := None; C_CID := None; ANON_KEY := None; BONDED := 0;
     REVEALED := 0; BID := 0; REFUNDED := 0; REMAINING_BOND := 0 |}.

(** Money moved by the contract or to it, newest first. *)
Inductive Event : Type :=
  | BondPosted (bidder : bytes) (amount : N)
  | BountyPaid (bidder revealer : bytes) (amount : N)
  | BondRefunded (bidder : bytes) (amount : N)
  | BondSlashed (bidder seller : bytes) (amount : N)
  | PricePaid (asset : N) (seller : bytes) (amount : N).

Record State : Type := {
  globals : option GlobalState;
  locals : gmap string LocalState;
  boxes : gmap string string;
  events : list Event
}.

(** The application right after its creation transaction. *)
Definition genesis : State :=
  {| globals := None; locals := ∅; boxes := ∅; events := [] |}.

(** ** Transaction environment *)

Inductive TxnType : Type := Payment | AssetTransfer | ApplicationCall | OtherTxn.

#[global] Instance TxnType_eq_dec : EqDecision TxnType.
Proof. solve_decision. Defined.

(** The fields of [Gtxn[0]] the contract reads. *)
Record GroupTxn : Type := {
  type_enum : TxnType;
  receiver : bytes;
  amount : N;
  xfer_asset : N;
  asset_receiver : bytes;
  asset_amount : N
}.

Record Env : Type := {
  sender : bytes;                        (* Txn.sender() *)
  round : N;                             (* Global.round() *)
  current_application_id : N;            (* Global.current_application_id() *)
  current_application_address : bytes;   (* Global.current_application_address() *)
  creator_address : bytes;               (* Global.creator_address() *)
  group_size : N;                        (* Global.group_size() *)
  gtxn0 : GroupTxn                       (* Gtxn[0] *)
}.

(** ** State access *)

Definition set_globals (g : GlobalState) (st : State) : State :=
  {| globals := Some g; locals := locals st; boxes := boxes st;
     events := events st |}.

Definition set_local (a : bytes) (ls : LocalState) (st : State) : State :=
  {| globals := globals st; locals := <[a := ls]> (locals st);
     boxes := boxes st; events := events st |}.

Definition set_boxes (b : gmap string string) (st : State) : State :=
  {| globals := globals st; locals := locals st; boxes := b;
     events := events st |}.

Definition emit (ev : Event) (st : State) : State :=
  {| globals := globals st; locals := locals st; boxes := boxes st;
     events := ev :: events st |}.

Definition drop_local (a : bytes) (st : State) : State :=
  {| globals := globals st; locals := base.delete a (locals st);
     boxes := boxes st; events := events st |}.

(** Before [create] has run, every global key is absent and reads as
    uint64 0.  Each method other than [create] then fails among its first
    asserts: a phase or [SETTLED] check is false on 0, or a byte string is
    compared with the uint64 0 ([SELLER], [WINNER]), which panics.  All of
    these are reported as [TypeError]. *)
Definition the_globals (st : State) : result GlobalState :=
  match globals st with
  | Some g => Ok g
  | None => Err TypeError
  end.

(** [App.localGet(a, _)] panics when [a] has not opted in. *)
Definition local_of (a : bytes) (st : State) : result LocalState :=
  match locals st !! a with
  | Some ls => Ok ls
  | None => Err NotOptedIn
  end.

Definition as_bytes (v : option bytes) : result bytes :=
  match v with
  | Some b => Ok b
  | None => Err TypeError
  end.

(** [App.box_put(name, value)]: creates the box, or replaces the contents
    of an existing box of the same length; fails when the name is empty or
    longer than 64 bytes, or when the box exists with another length. *)
Definition box_put (name value : bytes) (b : gmap string string)
  : result (gmap string string) :=
  Assert ((1 <=? len name) && (len name <=? 64)) BoxError ;;
  match b !! name with
  | Some old =>
      Assert (len old =? len value) BoxError ;;
      Ok (<[name := value]> b)
  | None => Ok (<[name := value]> b)
  end.

(** Field updates *)

Definition with_leader (w : bytes) (wb : N) (s : bytes) (sb : N)
    (g : GlobalState) : GlobalState :=
  {| SELLER := SELLER g; ASA_QUOTE := ASA_QUOTE g; RESERVE := RESERVE g;
     MIN_BID := MIN_BID g; BOND := BOND g; SECOND_PRICE := SECOND_PRICE g;
     COMMIT_END := COMMIT_END g; UNLOCK_SLACK := UNLOCK_SLACK g;
     PAY_WINDOW := PAY_WINDOW g; ORACLE_PK := ORACLE_PK g; P_HASH := P_HASH g;
     WINNER := w; WIN_BID := wb; SECOND_BID := sb; SECOND_WINNER := s;
     SETTLED := SETTLED g; SETTLE_ROUND := SETTLE_ROUND g |}.

Definition with_settled (s r : N) (g : GlobalState) : GlobalState :=
  {| SELLER := SELLER g; ASA_QUOTE := ASA_QUOTE g; RESERVE := RESERVE g;
     MIN_BID := MIN_BID g; BOND := BOND g; SECOND_PRICE := SECOND_PRICE g;
     COMMIT_END := COMMIT_END g; UNLOCK_SLACK := UNLOCK_SLACK g;
     PAY_WINDOW := PAY_WINDOW g; ORACLE_PK := ORACLE_PK g; P_HASH := P_HASH g;
     WINNER := WINNER g; WIN_BID := WIN_BID g; SECOND_BID := SECOND_BID g;
     SECOND_WINNER := SECOND_WINNER g;
     SETTLED := s; SETTLE_ROUND := r |}.

Definition with_revealed (bid : N) (ls : LocalState) : LocalState :=
  {| COMMIT := COMMIT ls; C_CID := C_CID ls; ANON_KEY := ANON_KEY ls;
     BONDED := BONDED ls; REVEALED := 1; BID := bid;
     REFUNDED := REFUNDED ls; REMAINING_BOND := REMAINING_BOND ls |}.

Definition with_remaining (r : N) (ls : LocalState) : LocalState :=
  {| COMMIT := COMMIT ls; C_CID := C_CID ls; ANON_KEY := ANON_KEY ls;
     BONDED := BONDED ls; REVEALED := REVEALED ls; BID := BID ls;
     REFUNDED := REFUNDED ls; REMAINING_BOND := r |}.

Definition with_refunded (ls : LocalState) : LocalState :=
  {| COMMIT := COMMIT ls; C_CID := C_CID ls; ANON_KEY := ANON_KEY ls;
     BONDED := BONDED ls; REVEALED := REVEALED ls; BID := BID ls;
     REFUNDED := 1; REMAINING_BOND := REMAINING_BOND ls |}.

(** ** The ABI methods of [build_router] *)

Record CreateArgs : Type := {
  arg_asa_quote : N;
  arg_reserve : N;
  arg_min_bid : N;
  arg_bond : N;
  arg_second_price : N;
  arg_commit_end : N;
  arg_unlock_slack : N;
  arg_pay_window : N;
  arg_oracle_pk : bytes;
  arg_p_hash : bytes
}.

Definition KYC_PREFIX : bytes := "KYC:"%string.

(** [create]: seventeen [globalPut]s, then the schedule check.  Nothing in
    it reads the state it overwrites, and nothing records that it has run
    before. *)
Definition created_globals (env : Env) (a : CreateArgs) : GlobalState :=
  {| SELLER := sender env;
     ASA_QUOTE := arg_asa_quote a;
     RESERVE := arg_reserve a;
     MIN_BID := arg_min_bid a;
     BOND := arg_bond a;
     SECOND_PRICE := arg_second_price a;
     COMMIT_END := arg_commit_end a;
     UNLOCK_SLACK := arg_unlock_slack a;
     PAY_WINDOW := arg_pay_window a;
     ORACLE_PK := arg_oracle_pk a;
     P_HASH := arg_p_hash a;
     WINNER := ""%string;
     WIN_BID := 0;
     SECOND_BID := 0;
     SECOND_WINNER := ""%string;
     SETTLED := 0;
     SETTLE_ROUND := 0 |}.

Definition create (st : State) (env : Env) (a : CreateArgs) : result State :=
  let st1 := set_globals (created_globals env a) st in
  Assert (round env <? arg_commit_end a) InvalidSchedule ;;
  Ok st1.

Definition commit (st : State) (env : Env) (h c_cid anon_key : bytes)
  : result State :=
  g ← the_globals st;
  Assert (round env <? COMMIT_END g) PhaseViolation ;;
  Assert (group_size env =? 2) BadPayment ;;
  Assert (bool_decide (type_enum (gtxn0 env) = Payment)) BadPayment ;;
  Assert (bytes_eqb (receiver (gtxn0 env)) (current_application_address env))
    BadPayment ;;
  Assert (amount (gtxn0 env) =? BOND g) BadPayment ;;
  ls ← local_of (sender env) st;
  Assert (BONDED ls =? 0) AlreadyCommitted ;;
  let st1 := set_local (sender env)
    {| COMMIT := Some h; C_CID := Some c_cid; ANON_KEY := Some anon_key;
       BONDED := 1; REVEALED := 0; BID := 0; REFUNDED := 0;
       REMAINING_BOND := BOND g |} st in
  b ← box_put h (sender env) (boxes st1);
  Ok (emit (BondPosted (sender env) (amount (gtxn0 env))) (set_boxes b st1)).

(** The two asserts that open [reveal_for] (source lines 292-295). *)
Definition reveal_phase (g : GlobalState) (env : Env) : result unit :=
  Assert (COMMIT_END g <=? round env) PhaseViolation ;;
  unlock ← add64 (COMMIT_END g) (UNLOCK_SLACK g);
  Assert (round env <? unlock) PhaseViolation.

(** The message the oracle signs (lines 301-311). *)
Definition attestation_msg (g : GlobalState) (env : Env) (hy : bytes)
  : result bytes :=
  unlock ← add64 (COMMIT_END g) (UNLOCK_SLACK g);
  Ok ("v:1" +:+ Itob (current_application_id env) +:+ hy +:+ Itob (round env)
      +:+ P_HASH g +:+ Itob (COMMIT_END g) +:+ Itob unlock)%string.

(** The bytes hashed into a commitment (lines 323-330). *)
Definition commitment_preimage (bid : N) (salt anon_key : bytes) (app : N)
  : bytes :=
  (Itob bid +:+ salt +:+ anon_key +:+ Itob app)%string.

(** Leaderboard update (lines 338-354); the four writes of the first branch
    read the old winner before they overwrite it. *)
Definition update_leaderboard (bidder : bytes) (bid : N) (g : GlobalState)
  : GlobalState :=
  if WIN_BID g <? bid then
    with_leader bidder bid (WINNER g) (WIN_BID g) g
  else if SECOND_BID g <? bid then
    with_leader (WINNER g) (WIN_BID g) bidder bid g
  else g.

(** Bounty payout (lines 356-379). *)
Definition pay_bounty (bidder : bytes) (ls : LocalState) (st : State)
    (env : Env) : result State :=
  let bond_amount := REMAINING_BOND ls in
  if bytes_eqb (sender env) bidder then
    Ok (set_local bidder (with_remaining bond_amount ls) st)
  else
    r70 ← mul64 bond_amount 70;
    let revealer_amount := r70 / 100 in
    r30 ← mul64 bond_amount 30;
    let bidder_amount := r30 / 100 in
    Ok (set_local bidder (with_remaining bidder_amount ls)
          (emit (BountyPaid bidder (sender env) revealer_amount) st)).

Section Reveal.
Context `{Crypto}.

(** [reveal_for] after its phase guard (lines 297-380). *)
Definition reveal_body (g : GlobalState) (st : State) (env : Env)
    (commit_id : bytes) (bid : N) (salt hy att : bytes) : result State :=
  Assert (len att =? 64) BadAttestation ;;
  msg ← attestation_msg g env hy;
  Assert (Ed25519Verify_Bare msg att (ORACLE_PK g)) BadAttestation ;;
  match boxes st !! commit_id with
  | None => Err UnknownCommitment
  | Some bidder =>
      ls ← local_of bidder st;
      anon_key ← as_bytes (ANON_KEY ls);
      stored ← as_bytes (COMMIT ls);
      Assert (bytes_eqb
                (Sha256 (commitment_preimage bid salt anon_key
                           (current_application_id env)))
                stored) CommitmentMismatch ;;
      Assert (REVEALED ls =? 0) AlreadyRevealed ;;
      Assert (MIN_BID g <=? bid) BidBelowMinimum ;;
      let ls1 := with_revealed bid ls in
      let st1 := set_globals (update_leaderboard bidder bid g)
                   (set_local bidder ls1 st) in
      pay_bounty bidder ls1 st1 env
  end.

Definition reveal_for (st : State) (env : Env) (commit_id : bytes)
    (bid : N) (salt hy att : bytes) : result State :=
  g ← the_globals st;
  reveal_phase g env ;;
  reveal_body g st env commit_id bid salt hy att.
End Reveal.

Definition settle (st : State) (env : Env) : result State :=
  g ← the_globals st;
  unlock ← add64 (COMMIT_END g) (UNLOCK_SLACK g);
  Assert (unlock <=? round env) PhaseViolation ;;
  Assert (SETTLED g =? 0) AlreadySettled ;;
  if negb (bytes_eqb (WINNER g) "") && (RESERVE g <=? WIN_BID g) then
    Ok (set_globals (with_settled 1 (round env) g) st)
  else
    Ok (set_globals (with_settled 1 (round env) g) st).

(** The price [finalize_win] computes (lines 454-469). *)
Definition expected_price (g : GlobalState) : N :=
  if SECOND_PRICE g =? 1 then
    if RESERVE g <? SECOND_BID g then SECOND_BID g else RESERVE g
  else
    if RESERVE g <? WIN_BID g then WIN_BID g else RESERVE g.

(** The guards of [finalize_win] that precede the price check
    (lines 443-452). *)
Definition finalize_guards (g : GlobalState) (env : Env) (price : N)
  : result unit :=
  Assert (SETTLED g =? 1) PhaseViolation ;;
  Assert (bytes_eqb (sender env) (WINNER g)) Unauthorized ;;
  deadline ← add64 (SETTLE_ROUND g) (PAY_WINDOW g);
  Assert (round env <=? deadline) PhaseViolation ;;
  Assert (group_size env =? 2) BadPayment ;;
  Assert (bool_decide (type_enum (gtxn0 env) = AssetTransfer)) BadPayment ;;
  Assert (xfer_asset (gtxn0 env) =? ASA_QUOTE g) BadPayment ;;
  Assert (bytes_eqb (asset_receiver (gtxn0 env))
            (current_application_address env)) BadPayment ;;
  Assert (asset_amount (gtxn0 env) =? price) BadPayment.

(** Pay out what is left of [a]'s bond, if anything, and zero it. *)
Definition release_bond (a : bytes) (ev : N -> Event) (st : State)
  : result State :=
  ls ← local_of a st;
  if 0 <? REMAINING_BOND ls then
    Ok (set_local a (with_remaining 0 ls) (emit (ev (REMAINING_BOND ls)) st))
  else Ok st.

Definition finalize_win (st : State) (env : Env) (price : N) : result State :=
  g ← the_globals st;
  finalize_guards g env price ;;
  Assert (price =? expected_price g) PriceMismatch ;;
  let st1 := emit (PricePaid (ASA_QUOTE g) (SELLER g) price) st in
  release_bond (sender env) (BondRefunded (sender env)) st1.

Definition promote_next (st : State) (env : Env) : result State :=
  g ← the_globals st;
  Assert (SETTLED g =? 1) PhaseViolation ;;
  deadline ← add64 (SETTLE_ROUND g) (PAY_WINDOW g);
  Assert (deadline <? round env) PhaseViolation ;;
  Assert (negb (bytes_eqb (SECOND_WINNER g) "")) NoFallbackBidder ;;
  st1 ← release_bond (WINNER g) (BondSlashed (WINNER g) (SELLER g)) st;
  Ok (set_globals
        (with_settled (SETTLED g) (round env)
           (with_leader (SECOND_WINNER g) (SECOND_BID g) "" 0 g)) st1).

Definition claim_refund (st : State) (env : Env) : result State :=
  g ← the_globals st;
  Assert (SETTLED g =? 1) PhaseViolation ;;
  ls ← local_of (sender env) st;
  Assert (REVEALED ls =? 1) NotRevealed ;;
  Assert (negb (bytes_eqb (sender env) (WINNER g))) Unauthorized ;;
  Assert (REFUNDED ls =? 0) AlreadyRefunded ;;
  st1 ← release_bond (sender env) (BondRefunded (sender env)) st;
  ls1 ← local_of (sender env) st1;
  Ok (set_local (sender env) (with_refunded ls1) st1).

Definition set_kyc (st : State) (env : Env) (addr : bytes) (value : N)
  : result State :=
  g ← the_globals st;
  Assert (bytes_eqb (sender env) (SELLER g)) Unauthorized ;;
  Assert (round env <? COMMIT_END g) PhaseViolation ;;
  b ← box_put (KYC_PREFIX +:+ addr) (Itob value) (boxes st);
  Ok (set_boxes b st).

Definition update (st : State) (env : Env) : result State :=
  g ← the_globals st;
  Assert (bytes_eqb (sender env) (SELLER g)) Unauthorized ;;
  Ok st.

Definition delete (st : State) (env : Env) : result State :=
  g ← the_globals st;
  Assert (bytes_eqb (sender env) (SELLER g)) Unauthorized ;;
  Ok st.

(** ** The router (lines 131-141 and the [@router.method] decorators) *)

Inductive OnComplete : Type :=
  | NoOp | OptIn | CloseOut | ClearState | UpdateApplication
  | DeleteApplication.

(** When an action may run: on the creation transaction
    ([Txn.application_id() == 0]), on a call to the existing application,
    on both, or never. *)
Inductive CallConfig : Type := NEVER | CALL | CREATE | ALL.

(** [Approve()] is the only expression registered for a bare call. *)
Inductive BareAction : Type := Approve.

Record OnCompleteAction : Type := {
  action : option BareAction;
  call_config : CallConfig
}.

Definition create_only (a : BareAction) : OnCompleteAction :=
  {| action := Some a; call_config := CREATE |}.
Definition call_only (a : BareAction) : OnCompleteAction :=
  {| action := Some a; call_config := CALL |}.
Definition never : OnCompleteAction :=
  {| action := None; call_config := NEVER |}.

Record BareCallActions : Type := {
  no_op : OnCompleteAction;
  update_application : OnCompleteAction;
  delete_application : OnCompleteAction;
  close_out : OnCompleteAction;
  opt_in : OnCompleteAction;
  clear_state : OnCompleteAction
}.

Definition bare_calls : BareCallActions :=
  {| no_op := create_only Approve;
     update_application := call_only Approve;
     delete_application := call_only Approve;
     close_out := call_only Approve;
     opt_in := call_only Approve;
     clear_state := never |}.

Definition bare_action_for (oc : OnComplete) : OnCompleteAction :=
  match oc with
  | NoOp => no_op bare_calls
  | OptIn => opt_in bare_calls
  | CloseOut => close_out bare_calls
  | ClearState => clear_state bare_calls
  | UpdateApplication => update_application bare_calls
  | DeleteApplication => delete_application bare_calls
  end.

(** A method registered with a plain [@router.method] runs on a no-op call
    to the existing application and on nothing else. *)
Definition method_config (oc : OnComplete) : CallConfig :=
  match oc with
  | NoOp => CALL
  | _ => NEVER
  end.

Definition admits (c : CallConfig) (application_id : N) : bool :=
  match c with
  | NEVER => false
  | CALL => negb (application_id =? 0)
  | CREATE => application_id =? 0
  | ALL => true
  end.

(** A decoded method call: the selector in the first application argument
    picks the method, the others are its ABI arguments. *)
Inductive MethodCall : Type :=
  | call_create (a : CreateArgs)
  | call_commit (h c_cid anon_key : bytes)
  | call_reveal_for (commit_id : bytes) (bid : N) (salt hy att : bytes)
  | call_settle
  | call_finalize_win (price : N)
  | call_promote_next
  | call_claim_refund
  | call_set_kyc (addr : bytes) (value : N)
  | call_update
  | call_delete.

Inductive AppArgs : Type :=
  | NoArgs                         (* a bare call *)
  | Method (m : MethodCall)
  | UnknownSelector.

Record AppCall : Type := {
  on_completion : OnComplete;
  application_id : N;              (* Txn.application_id(), 0 on creation *)
  application_args : AppArgs
}.

Definition is_create (c : AppCall) : bool :=
  match application_args c with
  | Method (call_create _) => true
  | _ => false
  end.

Section Router.
Context `{Crypto}.

Definition run_method (st : State) (env : Env) (m : MethodCall)
  : result State :=
  match m with
  | call_create a => create st env a
  | call_commit h c_cid anon_key => commit st env h c_cid anon_key
  | call_reveal_for commit_id bid salt hy att =>
      reveal_for st env commit_id bid salt hy att
  | call_settle => settle st env
  | call_finalize_win price => finalize_win st env price
  | call_promote_next => promote_next st env
  | call_claim_refund => claim_refund st env
  | call_set_kyc addr value => set_kyc st env addr value
  | call_update => update st env
  | call_delete => delete st env
  end.

(** The approval program the router compiles to. *)
Definition approval_program (st : State) (env : Env) (c : AppCall)
  : result State :=
  match application_args c with
  | NoArgs =>
      let oca := bare_action_for (on_completion c) in
      match action oca with
      | Some Approve =>
          if admits (call_config oca) (application_id c) then Ok st
          else Err Rejected
      | None => Err Rejected
      end
  | Method m =>
      if admits (method_config (on_completion c)) (application_id c)
      then run_method st env m
      else Err Rejected
  | UnknownSelector => Err Rejected
  end.

(** What the ledger does with an application call: opting in allocates the
    sender's local state before the program runs, closing out frees it
    after the program approved, clearing state frees it whatever the
    clear-state program says.  After an approved update or delete the
    application no longer runs this program. *)
Definition apply_call (st : State) (env : Env) (c : AppCall)
  : result State :=
  match on_completion c with
  | NoOp | UpdateApplication | DeleteApplication =>
      approval_program st env c
  | OptIn =>
      match locals st !! sender env with
      | Some _ => Err Rejected
      | None => approval_program (set_local (sender env) empty_local st) env c
      end
  | CloseOut =>
      st1 ← approval_program st env c;
      local_of (sender env) st1 ;;
      Ok (drop_local (sender env) st1)
  | ClearState =>
      local_of (sender env) st ;;
      Ok (drop_local (sender env) st)
  end.

Definition keeps_program (oc : OnComplete) : bool :=
  match oc with
  | UpdateApplication | DeleteApplication => false
  | _ => true
  end.

(** States the application goes through while it runs this program. *)
Inductive reachable : State -> Prop :=
  | reach_genesis : reachable genesis
  | reach_call st env c st' :
      reachable st ->
      keeps_program (on_completion c) = true ->
      apply_call st env c = Ok st' ->
      reachable st'.

(** A sequence of calls, each in its own environment. *)
Fixpoint apply_calls (st : State) (cs : list (Env * AppCall))
  : result State :=
  match cs with
  | [] => Ok st
  | (env, c) :: rest =>
      st1 ← apply_call st env c;
      apply_calls st1 rest
  end.
End Router.

(** ** Bond accounting, read off the event log

    A bidder's account of the bond runs from the latest [BondPosted] of that
    bidder: [posted] is the amount posted then, [paid_out] what the contract
    has paid since on the bidder's behalf as bounty, refund or slash. *)

Fixpoint posted (b : bytes) (evs : list Event) : N :=
  match evs with
  | [] => 0
  | BondPosted b' amt :: rest =>
      if bytes_eqb b b' then amt else posted b rest
  | _ :: rest => posted b rest
  end.

Definition payout_to (b : bytes) (ev : Event) : N :=
  match ev with
  | BountyPaid b' _ amt | BondRefunded b' amt | BondSlashed b' _ amt =>
      if bytes_eqb b b' then amt else 0
  | BondPosted _ _ | PricePaid _ _ _ => 0
  end.

Fixpoint paid_out (b : bytes) (evs : list Event) : N :=
  match evs with
  | [] => 0
  | BondPosted b' amt :: rest =>
      if bytes_eqb b b' then 0 else paid_out b rest
  | ev :: rest => payout_to b ev + paid_out b rest
  end.

(** An event that is about another bidder, or moves no bond. *)
Definition foreign (b : bytes) (ev : Event) : Prop :=
  match ev with
  | BondPosted b' _ | BountyPaid b' _ _ | BondRefunded b' _
  | BondSlashed b' _ _ => b <> b'
  | PricePaid _ _ _ => True
  end.

(** The account of a bonded bidder [b] with local state [ls]: what is left
    of the bond plus what was paid out is the posted bond or one unit less,
    and is the posted bond as long as the bid is not revealed or when the
    posted bond is a multiple of 10. *)
Definition bond_account (b : bytes) (ls : LocalState) (evs : list Event)
  : Prop :=
  let total := REMAINING_BOND ls + paid_out b evs in
  posted b evs <= total + 1
  /\ total <= posted b evs
  /\ (posted b evs mod 10 = 0 -> total = posted b evs)
  /\ (REVEALED ls = 0 ->
      total = posted b evs
      /\ (REMAINING_BOND ls = posted b evs \/ REMAINING_BOND ls = 0)).

Definition bond_inv (st : State) : Prop :=
  forall b ls,
    locals st !! b = Some ls -> BONDED ls = 1 -> bond_account b ls (events st).

Definition leaderboard_inv (st : State) : Prop :=
  forall g, globals st = Some g -> SECOND_BID g <= WIN_BID g.

(** The schedule and the settled flag of [g] are those of [g0]. *)
Definition stays_settled (g0 g : GlobalState) : Prop :=
  COMMIT_END g = COMMIT_END g0
  /\ UNLOCK_SLACK g = UNLOCK_SLACK g0
  /\ (SETTLED g0 = 1 -> SETTLED g = 1).

(** ** Predicates of the further properties *)

(** What a call leaves of the record [ls] of a bonded bidder when it does
    not delete it: the commitment, the content reference and the privacy
    key, the bonded flag, a revealed bid, a set refunded flag; the remaining
    bond does not grow. *)
Definition record_kept (ls ls' : LocalState) : Prop :=
  COMMIT ls' = COMMIT ls
  /\ C_CID ls' = C_CID ls
  /\ ANON_KEY ls' = ANON_KEY ls
  /\ BONDED ls' = BONDED ls
  /\ (REVEALED ls = 1 -> REVEALED ls' = 1 /\ BID ls' = BID ls)
  /\ (REFUNDED ls = 1 -> REFUNDED ls' = 1)
  /\ REMAINING_BOND ls' <= REMAINING_BOND ls.

(** The call is a close-out or a clear-state sent by [a]. *)
Definition clears_local (a : bytes) (ec : Env * AppCall) : bool :=
  bytes_eqb (sender (fst ec)) a
  && match on_completion (snd ec) with
     | CloseOut | ClearState => true
     | _ => false
     end.

(** Every local record is bonded or still as opt-in left it. *)
Definition records_wf (st : State) : Prop :=
  forall a ls, locals st !! a = Some ls -> BONDED ls = 1 \/ ls = empty_local.

(** Once settled, the recorded settle round is not before the end of the
    reveal window, and that end fits a uint64. *)
Definition settled_inv (st : State) : Prop :=
  forall g,
    globals st = Some g ->
    SETTLED g = 1 ->
    COMMIT_END g + UNLOCK_SLACK g <= SETTLE_ROUND g
    /\ COMMIT_END g + UNLOCK_SLACK g <= uint64_max.

(** The auction parameters of [g] are those of [g0]. *)
Definition same_parameters (g0 g : GlobalState) : Prop :=
  SELLER g = SELLER g0
  /\ ASA_QUOTE g = ASA_QUOTE g0
  /\ RESERVE g = RESERVE g0
  /\ MIN_BID g = MIN_BID g0
  /\ BOND g = BOND g0
  /\ SECOND_PRICE g = SECOND_PRICE g0
  /\ COMMIT_END g = COMMIT_END g0
  /\ UNLOCK_SLACK g = UNLOCK_SLACK g0
  /\ PAY_WINDOW g = PAY_WINDOW g0
  /\ ORACLE_PK g = ORACLE_PK g0
  /\ P_HASH g = P_HASH g0.

(** Bond money that came in with an event, and bond money that it paid
    out. *)
Definition bond_in (ev : Event) : N :=
  match ev with
  | BondPosted _ n => n
  | _ => 0
  end.

Definition bond_out (ev : Event) : N :=
  match ev with
  | BountyPaid _ _ n | BondRefunded _ n | BondSlashed _ _ n => n
  | BondPosted _ _ | PricePaid _ _ _ => 0
  end.

Definition total (f : Event -> N) (evs : list Event) : N :=
  fold_right (fun ev acc => f ev + acc) 0 evs.

(** The sum of [REMAINING_BOND] over all local records. *)
Definition held (m : gmap string LocalState) : N :=
  map_fold (fun _ ls acc => REMAINING_BOND ls + acc) 0 m.

Definition escrow_inv (st : State) : Prop :=
  total bond_out (events st) + held (locals st) <= total bond_in (events st).

(** ** Test scenarios

    Concrete accounts, parameters and calls on which the methods are run.
    [test_crypto] stands in for the AVM's SHA-256 and Ed25519 opcodes: its
    hash is the identity and it accepts any 64-byte signature, so that a
    commitment and an attestation can be written down. *)

Module Scenario.

Definition test_crypto : Crypto :=
  {| Sha256 := fun b => b;
     Ed25519Verify_Bare := fun _ sig _ => len sig =? 64 |}.

Definition seller : bytes := "SELLER..SELLER..SELLER..SELLER..".
Definition bidder1 : bytes := "BIDDER1.BIDDER1.BIDDER1.BIDDER1.".
Definition bidder2 : bytes := "BIDDER2.BIDDER2.BIDDER2.BIDDER2.".
Definition third : bytes := "THIRD...THIRD...THIRD...THIRD...".
Definition escrow : bytes := "ESCROW..ESCROW..ESCROW..ESCROW..".
Definition app : N := 7.
Definition asa : N := 31.

Definition no_txn : GroupTxn :=
  {| type_enum := ApplicationCall; receiver := ""; amount := 0;
     xfer_asset := 0; asset_receiver := ""; asset_amount := 0 |}.

Definition pay (amt : N) : GroupTxn :=
  {| type_enum := Payment; receiver := escrow; amount := amt;
     xfer_asset := 0; asset_receiver := ""; asset_amount := 0 |}.

Definition axfer (amt : N) : GroupTxn :=
  {| type_enum := AssetTransfer; receiver := ""; amount := 0;
     xfer_asset := asa; asset_receiver := escrow; asset_amount := amt |}.

(** A call alone in its group, and a call grouped after [g]. *)
Definition alone (who : bytes) (r : N) : Env :=
  {| sender := who; round := r; current_application_id := app;
     current_application_address := escrow; creator_address := seller;
     group_size := 1; gtxn0 := no_txn |}.

Definition after (g : GroupTxn) (who : bytes) (r : N) : Env :=
  {| sender := who; round := r; current_application_id := app;
     current_application_address := escrow; creator_address := seller;
     group_size := 2; gtxn0 := g |}.

Definition bare (oc : OnComplete) : AppCall :=
  {| on_completion := oc; application_id := app; application_args := NoArgs |}.

Definition abi (m : MethodCall) : AppCall :=
  {| on_completion := NoOp; application_id := app;
     application_args := Method m |}.

Definition params (bond slack : N) : CreateArgs :=
  {| arg_asa_quote := asa; arg_reserve := 1500000; arg_min_bid := 1000;
     arg_bond := bond; arg_second_price := 1; arg_commit_end := 100;
     arg_unlock_slack := slack; arg_pay_window := 30;
     arg_oracle_pk := "ORACLE..ORACLE..ORACLE..ORACLE..";
     arg_p_hash := "PARAMS..PARAMS..PARAMS..PARAMS.." |}.

Definition anon1 : bytes := "anon-key-of-bidder-1............".
Definition anon2 : bytes := "anon-key-of-bidder-2............".
Definition salt1 : bytes := "salt-one".
Definition salt2 : bytes := "salt-two".
Definition sig : bytes :=
  "0123456789abcdef0123456789abcdef0123456789abcdef0123456789abcdef".

Definition bid1 : N := 2000000.
Definition bid2 : N := 1800000.

Definition hash1 : bytes :=
  @Sha256 test_crypto (commitment_preimage bid1 salt1 anon1 app).
Definition hash2 : bytes :=
  @Sha256 test_crypto (commitment_preimage bid2 salt2 anon2 app).

(** Both bidders opt in, the seller creates the auction, both commit. *)
Definition committed (bond slack : N) : list (Env * AppCall) :=
  [ (alone bidder1 5, bare OptIn);
    (alone bidder2 6, bare OptIn);
    (alone seller 10, abi (call_create (params bond slack)));
    (after (pay bond) bidder1 20, abi (call_commit hash1 "cid1" anon1));
    (after (pay bond) bidder2 21, abi (call_commit hash2 "cid2" anon2)) ].

(** Bidder 1 reveals its own bid; a third party reveals bidder 2's. *)
Definition reveal1 (r : N) : Env * AppCall :=
  (alone bidder1 r, abi (call_reveal_for hash1 bid1 salt1 "hy" sig)).
Definition reveal2_by_third (r : N) : Env * AppCall :=
  (alone third r, abi (call_reveal_for hash2 bid2 salt2 "hy" sig)).

Definition revealed (bond : N) : list (Env * AppCall) :=
  committed bond 50 ++ [ reveal1 100; reveal2_by_third 120 ].

Definition settled (bond : N) : list (Env * AppCall) :=
  revealed bond ++ [ (alone third 150, abi call_settle) ].

Definition run (cs : list (Env * AppCall)) : result State :=
  @apply_calls test_crypto genesis cs.

(** A projection of the outcome that can be compared by computation. *)
Definition view {A} (f : State -> A) (r : result State) : option A :=
  match r with
  | Ok st => Some (f st)
  | Err _ => None
  end.

(** The state a sequence of calls leads to, its globals and the local
    state of an account in it. *)
Definition state_after (cs : list (Env * AppCall)) : State :=
  outcome genesis (run cs).

Definition globals_after (cs : list (Env * AppCall)) : GlobalState :=
  default (created_globals (alone seller 0) (params 0 0))
          (globals (state_after cs)).

Definition local_after (cs : list (Env * AppCall)) (a : bytes)
  : LocalState :=
  default empty_local (locals (state_after cs) !! a).

(** Bidder 1 has committed; bidder 2 has opted in only. *)
Definition one_committed (bond : N) : list (Env * AppCall) :=
  [ (alone bidder1 5, bare OptIn);
    (alone bidder2 6, bare OptIn);
    (alone seller 10, abi (call_create (params bond 50)));
    (after (pay bond) bidder1 20, abi (call_commit hash1 "cid1" anon1)) ].

(** Parameters of a second [create] on the same instance. *)
Definition params_again : CreateArgs :=
  {| arg_asa_quote := asa; arg_reserve := 1; arg_min_bid := 1;
     arg_bond := 10; arg_second_price := 0; arg_commit_end := 300;
     arg_unlock_slack := 50; arg_pay_window := 30;
     arg_oracle_pk := "ORACLE..ORACLE..ORACLE..ORACLE..";
     arg_p_hash := "PARAMS..PARAMS..PARAMS..PARAMS.." |}.

(** Scenarios of the further properties. *)

(** Both bidders have opted in and the auction is created. *)
Definition created (bond : N) : list (Env * AppCall) :=
  [ (alone bidder1 5, bare OptIn);
    (alone bidder2 6, bare OptIn);
    (alone seller 10, abi (call_create (params bond 50))) ].

(** Bidder 1 has revealed, bidder 2 has not. *)
Definition one_revealed : list (Env * AppCall) :=
  committed 1000005 50 ++ [ reveal1 100 ].

(** The same, settled at round 150. *)
Definition one_revealed_settled : list (Env * AppCall) :=
  one_revealed ++ [ (alone third 150, abi call_settle) ].

(** Both have revealed; the winner, bidder 1, clears its state before the
    auction is settled. *)
Definition winner_gone : list (Env * AppCall) :=
  revealed 1000005
  ++ [ (alone bidder1 130, bare ClearState);
       (alone third 150, abi call_settle) ].

(** A bond that 70 does not multiply within a uint64. *)
Definition huge_bond : N := 2 ^ 63.

(** The state after one more call. *)
Definition next (st : State) (ec : Env * AppCall) : State :=
  outcome st (@apply_call test_crypto st (fst ec) (snd ec)).

End Scenario.

(** * Properties *)

(** ** Reasoning about [result] *)

Lemma bind_Ok {A B} (m : result A) (f : A -> result B) (b : B) :
  m ≫= f = Ok b -> exists a, m = Ok a /\ f a = Ok b.
Proof. destruct m as [a|e]; simpl; intros E; [eauto | discriminate]. Qed.

Lemma Assert_Ok (b : bool) (e : error) (u : unit) :
  Assert b e = Ok u -> b = true.
Proof. destruct b; simpl; [reflexivity | discriminate]. Qed.

Lemma Assert_true (b : bool) (e : error) : b = true -> Assert b e = Ok tt.
Proof. intros ->. reflexivity. Qed.

Lemma Assert_false (b : bool) (e : error) : b = false -> Assert b e = Err e.
Proof. intros ->. reflexivity. Qed.

Lemma the_globals_Some (st : State) (g : GlobalState) :
  globals st = Some g -> the_globals st = Ok g.
Proof. unfold the_globals. intros ->. reflexivity. Qed.

Lemma the_globals_Ok (st : State) (g : GlobalState) :
  the_globals st = Ok g -> globals st = Some g.
Proof. unfold the_globals. destruct (globals st); congruence. Qed.

Lemma local_of_Ok (a : bytes) (st : State) (ls : LocalState) :
  local_of a st = Ok ls -> locals st !! a = Some ls.
Proof. unfold local_of. destruct (locals st !! a); congruence. Qed.

Lemma local_of_Some (a : bytes) (st : State) (ls : LocalState) :
  locals st !! a = Some ls -> local_of a st = Ok ls.
Proof. unfold local_of. intros ->. reflexivity. Qed.

Lemma as_bytes_Ok (v : option bytes) (b : bytes) :
  as_bytes v = Ok b -> v = Some b.
Proof. destruct v; simpl; congruence. Qed.

Lemma bytes_eqb_true (a b : bytes) : bytes_eqb a b = true <-> a = b.
Proof. unfold bytes_eqb. apply bool_decide_eq_true. Qed.

Lemma bytes_eqb_false (a b : bytes) : bytes_eqb a b = false <-> a <> b.
Proof. unfold bytes_eqb. apply bool_decide_eq_false. Qed.

Lemma add64_Ok (a b c : N) : add64 a b = Ok c -> c = a + b /\ a + b <= uint64_max.
Proof.
  unfold add64. destruct (a + b <=? uint64_max) eqn:E; [|discriminate].
  intros [= <-]. apply N.leb_le in E. auto.
Qed.

Lemma add64_fits (a b : N) : a + b <= uint64_max -> add64 a b = Ok (a + b).
Proof. intros E. unfold add64. apply N.leb_le in E. rewrite E. reflexivity. Qed.

Lemma mul64_Ok (a b c : N) : mul64 a b = Ok c -> c = a * b.
Proof.
  unfold mul64. destruct (a * b <=? uint64_max); [|discriminate].
  intros [= <-]. reflexivity.
Qed.

(** Decompose a successful run of a [Seq] into its steps. *)
Ltac step_ok H :=
  let x := fresh "x" in
  let Hx := fresh "Hx" in
  apply bind_Ok in H; destruct H as (x & Hx & H).

Ltac steps_ok H :=
  repeat (step_ok H;
          try match goal with
              | Hx : Assert _ _ = Ok _ |- _ => apply Assert_Ok in Hx
              end).

(** ** The router: bare update and delete calls *)

Section RouterProperties.
Context `{Crypto}.

Lemma method_needs_no_op (st st' : State) (env : Env) (c : AppCall)
    (m : MethodCall) :
  application_args c = Method m ->
  approval_program st env c = Ok st' ->
  on_completion c = NoOp /\ run_method st env m = Ok st'.
Proof.
  unfold approval_program. intros ->.
  destruct (on_completion c); simpl; try discriminate.
  destruct (negb (application_id c =? 0)); [auto | discriminate].
Qed.

(** C10.  A bare call (no application arguments) to the existing
    application with on-completion UpdateApplication or DeleteApplication
    is approved for every sender and every state, and changes no state.
    The methods [update] and [delete], which compare the sender with
    [SELLER], are routed on no-op calls only: a call that selects one of
    them with on-completion update or delete is rejected by the router. *)
Theorem bare_update_delete_unguarded (st : State) (env : Env) (c : AppCall) :
  application_args c = NoArgs ->
  application_id c <> 0 ->
  on_completion c = UpdateApplication \/ on_completion c = DeleteApplication ->
  approval_program st env c = Ok st
  /\ (forall c',
        on_completion c' = on_completion c ->
        application_args c' = Method call_update
        \/ application_args c' = Method call_delete ->
        approval_program st env c' = Err Rejected)
  /\ (forall st',
        update st env = Ok st' \/ delete st env = Ok st' ->
        st' = st /\ exists g, globals st = Some g /\ sender env = SELLER g).
Proof.
  intros Hargs Hid Hoc. split; [|split].
  - unfold approval_program. rewrite Hargs.
    assert (Hne : negb (application_id c =? 0) = true).
    { apply negb_true_iff, N.eqb_neq, Hid. }
    destruct Hoc as [-> | ->]; simpl; rewrite Hne; reflexivity.
  - intros c' Hoc' Hm. unfold approval_program.
    rewrite Hoc'.
    destruct Hm as [-> | ->], Hoc as [-> | ->]; reflexivity.
  - intros st' [Hu | Hd].
    + unfold update in Hu. steps_ok Hu.
      apply the_globals_Ok in Hx. apply bytes_eqb_true in Hx0.
      injection Hu as <-. eauto.
    + unfold delete in Hd. steps_ok Hd.
      apply the_globals_Ok in Hx. apply bytes_eqb_true in Hx0.
      injection Hd as <-. eauto.
Qed.
End RouterProperties.

(** ** [finalize_win]: the price *)

Lemma expected_price_max (g : GlobalState) :
  expected_price g =
    if SECOND_PRICE g =? 1 then N.max (SECOND_BID g) (RESERVE g)
    else N.max (WIN_BID g) (RESERVE g).
Proof.
  unfold expected_price.
  destruct (SECOND_PRICE g =? 1).
  - destruct (N.ltb_spec (RESERVE g) (SECOND_BID g)); lia.
  - destruct (N.ltb_spec (RESERVE g) (WIN_BID g)); lia.
Qed.

(** C5.  A [finalize_win(price)] that succeeds was given the price
    max(second_bid, reserve) when [SECOND_PRICE] is 1 and
    max(win_bid, reserve) otherwise.  With any other price the call fails
    and the state is kept; when the guards before the price check pass, the
    failure is [PriceMismatch]. *)
Theorem finalize_win_price (st : State) (g : GlobalState) (env : Env)
    (price : N) :
  globals st = Some g ->
  let accepted :=
    if SECOND_PRICE g =? 1 then N.max (SECOND_BID g) (RESERVE g)
    else N.max (WIN_BID g) (RESERVE g) in
  (forall st', finalize_win st env price = Ok st' -> price = accepted)
  /\ (price <> accepted ->
      (exists e, finalize_win st env price = Err e)
      /\ outcome st (finalize_win st env price) = st
      /\ (finalize_guards g env price = Ok tt ->
          finalize_win st env price = Err PriceMismatch)).
Proof.
  intros Hg accepted.
  assert (Hacc : accepted = expected_price g)
    by (symmetry; apply expected_price_max).
  assert (Hok : forall st', finalize_win st env price = Ok st' ->
                            price = accepted).
  { intros st' Hf. unfold finalize_win in Hf.
    rewrite (the_globals_Some _ _ Hg) in Hf. simpl in Hf.
    steps_ok Hf. apply N.eqb_eq in Hx0. congruence. }
  split; [exact Hok|].
  intros Hne.
  destruct (finalize_win st env price) as [st'|e] eqn:Hf.
  - exfalso. apply Hne, (Hok st'). reflexivity.
  - split; [eauto|]. split; [reflexivity|].
    intros Hguards. unfold finalize_win in Hf.
    rewrite (the_globals_Some _ _ Hg) in Hf. simpl in Hf.
    rewrite Hguards in Hf. simpl in Hf.
    rewrite Assert_false in Hf; [simpl in Hf; congruence|].
    apply N.eqb_neq. congruence.
Qed.

(** ** [reveal_for] *)

Lemma Itob_length (n : N) : String.length (Itob n) = 8%nat.
Proof. reflexivity. Qed.

Lemma Btoi_be_bytes (k : nat) : forall (n a : N) (acc : bytes),
  Btoi_from a (be_bytes k n acc)
  = Btoi_from (a * 256 ^ N.of_nat k + n mod 256 ^ N.of_nat k) acc.
Proof.
  induction k as [|k IH]; intros n a acc.
  - simpl. rewrite N.mod_1_r. f_equal. lia.
  - cbn [be_bytes]. rewrite IH. cbn [Btoi_from].
    rewrite N_ascii_embedding by (apply N.mod_upper_bound; discriminate).
    f_equal. rewrite Nat2N.inj_succ, N.pow_succ_r'.
    rewrite (N.Div0.mod_mul_r n 256). lia.
Qed.

(** [Itob] is the big-endian encoding: reading the 8 bytes most significant
    first gives the number back. *)
Lemma Btoi_Itob (n : N) : n <= uint64_max -> Btoi (Itob n) = n.
Proof.
  intros Hn. unfold Btoi, Itob. rewrite Btoi_be_bytes. simpl Btoi_from.
  change (256 ^ N.of_nat 8) with (2 ^ 64).
  unfold uint64_max in Hn. rewrite N.mod_small; lia.
Qed.

Section RevealProperties.
Context `{Crypto}.

(** Everything a successful [reveal_for] has checked and done. *)
Lemma reveal_for_Ok (st st' : State) (env : Env) (commit_id : bytes)
    (bid : N) (salt hy att : bytes) :
  reveal_for st env commit_id bid salt hy att = Ok st' ->
  exists g bidder ls anon_key stored msg,
    globals st = Some g
    /\ reveal_phase g env = Ok tt
    /\ len att = 64
    /\ attestation_msg g env hy = Ok msg
    /\ Ed25519Verify_Bare msg att (ORACLE_PK g) = true
    /\ boxes st !! commit_id = Some bidder
    /\ locals st !! bidder = Some ls
    /\ ANON_KEY ls = Some anon_key
    /\ COMMIT ls = Some stored
    /\ Sha256 (commitment_preimage bid salt anon_key
                 (current_application_id env)) = stored
    /\ REVEALED ls = 0
    /\ MIN_BID g <= bid
    /\ pay_bounty bidder (with_revealed bid ls)
         (set_globals (update_leaderboard bidder bid g)
            (set_local bidder (with_revealed bid ls) st)) env = Ok st'.
Proof.
  intros Hr. unfold reveal_for in Hr.
  apply bind_Ok in Hr as (g & Hg & Hr). apply the_globals_Ok in Hg.
  apply bind_Ok in Hr as ([] & Hphase & Hr).
  unfold reveal_body in Hr.
  apply bind_Ok in Hr as (? & Hlen & Hr).
  apply Assert_Ok, N.eqb_eq in Hlen.
  apply bind_Ok in Hr as (msg & Hmsg & Hr).
  apply bind_Ok in Hr as (? & Hver & Hr). apply Assert_Ok in Hver.
  destruct (boxes st !! commit_id) as [bidder|] eqn:Hbox; [|discriminate].
  apply bind_Ok in Hr as (ls & Hls & Hr). apply local_of_Ok in Hls.
  apply bind_Ok in Hr as (anon_key & Hanon & Hr).
  apply as_bytes_Ok in Hanon.
  apply bind_Ok in Hr as (stored & Hstored & Hr).
  apply as_bytes_Ok in Hstored.
  apply bind_Ok in Hr as (? & Hsha & Hr).
  apply Assert_Ok, bytes_eqb_true in Hsha.
  apply bind_Ok in Hr as (? & Hrev & Hr).
  apply Assert_Ok, N.eqb_eq in Hrev.
  apply bind_Ok in Hr as (? & Hmin & Hr).
  apply Assert_Ok, N.leb_le in Hmin.
  exists g, bidder, ls, anon_key, stored, msg.
  repeat split; assumption.
Qed.

(** C7.  [reveal_for] succeeds only if the SHA-256 of
    Itob(bid) ‖ salt ‖ ANON_KEY of the bidder ‖ Itob(application id), where
    the bidder is the one the box of [commit_id] names and [Itob] yields 8
    bytes, equals the bidder's stored [COMMIT].  If the two differ the
    call fails; the failure is [CommitmentMismatch] when the checks made
    before (phase, attestation) pass. *)
Theorem reveal_for_commitment (st : State) (g : GlobalState) (env : Env)
    (commit_id : bytes) (bid : N) (salt hy att : bytes) :
  globals st = Some g ->
  (forall st', reveal_for st env commit_id bid salt hy att = Ok st' ->
     exists bidder ls anon_key stored,
       boxes st !! commit_id = Some bidder
       /\ locals st !! bidder = Some ls
       /\ ANON_KEY ls = Some anon_key
       /\ COMMIT ls = Some stored
       /\ Sha256 (Itob bid +:+ salt +:+ anon_key
                  +:+ Itob (current_application_id env)) = stored
       /\ String.length (Itob bid) = 8%nat
       /\ String.length (Itob (current_application_id env)) = 8%nat)
  /\ (forall bidder ls anon_key stored,
       boxes st !! commit_id = Some bidder ->
       locals st !! bidder = Some ls ->
       ANON_KEY ls = Some anon_key ->
       COMMIT ls = Some stored ->
       Sha256 (Itob bid +:+ salt +:+ anon_key
               +:+ Itob (current_application_id env)) <> stored ->
       (exists e, reveal_for st env commit_id bid salt hy att = Err e)
       /\ outcome st (reveal_for st env commit_id bid salt hy att) = st
       /\ (reveal_phase g env = Ok tt ->
           len att = 64 ->
           (exists msg, attestation_msg g env hy = Ok msg
              /\ Ed25519Verify_Bare msg att (ORACLE_PK g) = true) ->
           reveal_for st env commit_id bid salt hy att
             = Err CommitmentMismatch)).
Proof.
  intros Hg. split.
  - intros st' Hr. apply reveal_for_Ok in Hr.
    destruct Hr as (g' & bidder & ls & anon_key & stored & msg & _ & _ & _
                    & _ & _ & Hbox & Hls & Hanon & Hst & Hsha & _).
    exists bidder, ls, anon_key, stored.
    repeat split; assumption.
  - intros bidder ls anon_key stored Hbox Hls Hanon Hst Hne.
    assert (Hfail : forall st',
              reveal_for st env commit_id bid salt hy att <> Ok st').
    { intros st' Hr. apply reveal_for_Ok in Hr.
      destruct Hr as (g' & bidder' & ls' & anon' & stored' & msg & _ & _ & _
                      & _ & _ & Hbox' & Hls' & Hanon' & Hst' & Hsha & _).
      apply Hne. unfold commitment_preimage in Hsha. congruence. }
    destruct (reveal_for st env commit_id bid salt hy att) as [st'|e] eqn:Hr.
    { exfalso. eapply Hfail. reflexivity. }
    split; [eauto|]. split; [reflexivity|].
    intros Hphase Hlen (msg & Hmsg & Hver).
    rewrite <- Hr. unfold reveal_for.
    rewrite (the_globals_Some _ _ Hg). simpl.
    rewrite Hphase. simpl. unfold reveal_body.
    rewrite Hlen. simpl. rewrite Hmsg. simpl. rewrite Hver. simpl.
    rewrite Hbox. rewrite (local_of_Some _ _ _ Hls). simpl.
    rewrite Hanon, Hst. simpl.
    rewrite (Assert_false _ CommitmentMismatch); [reflexivity|].
    apply bytes_eqb_false. exact Hne.
Qed.
End RevealProperties.

(** ** The bounty split *)

(** 70% and 30%, each rounded down, add up to the bond only when the bond
    is a multiple of 10; otherwise one unit is in neither share. *)
Lemma split_70_30 (r : N) :
  r * 70 / 100 + r * 30 / 100 + (if r mod 10 =? 0 then 0 else 1) = r.
Proof.
  assert (H7 : r * 70 / 100 = 7 * (r / 10) + 7 * (r mod 10) / 10).
  { rewrite (N.div_mod r 10) at 1 by discriminate.
    replace ((10 * (r / 10) + r mod 10) * 70)
      with (7 * (r mod 10) * 10 + 7 * (r / 10) * 100) by lia.
    rewrite N.div_add by discriminate.
    replace 100 with (10 * 10) at 1 by reflexivity.
    rewrite N.Div0.div_mul_cancel_r by discriminate. lia. }
  assert (H3 : r * 30 / 100 = 3 * (r / 10) + 3 * (r mod 10) / 10).
  { rewrite (N.div_mod r 10) at 1 by discriminate.
    replace ((10 * (r / 10) + r mod 10) * 30)
      with (3 * (r mod 10) * 10 + 3 * (r / 10) * 100) by lia.
    rewrite N.div_add by discriminate.
    replace 100 with (10 * 10) at 1 by reflexivity.
    rewrite N.Div0.div_mul_cancel_r by discriminate. lia. }
  rewrite H7, H3.
  pose proof (N.div_mod r 10 ltac:(discriminate)) as Hr.
  pose proof (N.mod_upper_bound r 10 ltac:(discriminate)) as Hlt.
  remember (r mod 10) as d eqn:Hd. remember (r / 10) as q eqn:Hq.
  clear Hd Hq.
  assert (Hcases : d = 0 \/ d = 1 \/ d = 2 \/ d = 3 \/ d = 4 \/ d = 5
                   \/ d = 6 \/ d = 7 \/ d = 8 \/ d = 9) by lia.
  destruct Hcases as [-> | [-> | [-> | [-> | [-> | [-> | [-> | [-> | [-> | ->]]]]]]]]];
    repeat match goal with
           | |- context [?a / 10] =>
               let v := eval vm_compute in (a / 10) in change (a / 10) with v
           | |- context [?a =? 0] =>
               let v := eval vm_compute in (a =? 0) in change (a =? 0) with v
           end;
    clear H7 H3; cbv iota; lia.
Qed.

Lemma pay_bounty_self (bidder : bytes) (ls : LocalState) (st st' : State)
    (env : Env) :
  sender env = bidder ->
  pay_bounty bidder ls st env = Ok st' ->
  st' = set_local bidder ls st.
Proof.
  intros Hs. unfold pay_bounty.
  apply bytes_eqb_true in Hs. rewrite Hs.
  intros [= <-]. destruct ls; reflexivity.
Qed.

Lemma pay_bounty_third (bidder : bytes) (ls : LocalState) (st st' : State)
    (env : Env) :
  sender env <> bidder ->
  pay_bounty bidder ls st env = Ok st' ->
  st' = set_local bidder
          (with_remaining (REMAINING_BOND ls * 30 / 100) ls)
          (emit (BountyPaid bidder (sender env) (REMAINING_BOND ls * 70 / 100))
             st).
Proof.
  intros Hs. unfold pay_bounty.
  apply bytes_eqb_false in Hs. rewrite Hs.
  intros Hp.
  apply bind_Ok in Hp as (r70 & H70 & Hp). apply mul64_Ok in H70.
  apply bind_Ok in Hp as (r30 & H30 & Hp). apply mul64_Ok in H30.
  injection Hp as <-. subst. reflexivity.
Qed.

Section BountyAndWindow.
Context `{Crypto}.

(** C2 (amended).  A successful [reveal_for] whose caller is not the
    bidder pays exactly floor(remaining_bond*70/100) to the caller and
    sets the bidder's [REMAINING_BOND] to floor(remaining_bond*30/100).
    The two amounts add up to the bond less a residual that is 0 when the
    bond is a multiple of 10 and 1 otherwise; the residual is in neither
    amount, so it is not credited to the bidder. *)
Theorem third_party_bounty_split (st st' : State) (env : Env)
    (commit_id : bytes) (bid : N) (salt hy att bidder : bytes)
    (ls : LocalState) :
  reveal_for st env commit_id bid salt hy att = Ok st' ->
  boxes st !! commit_id = Some bidder ->
  locals st !! bidder = Some ls ->
  sender env <> bidder ->
  let r := REMAINING_BOND ls in
  events st' = BountyPaid bidder (sender env) (r * 70 / 100) :: events st
  /\ (exists ls', locals st' !! bidder = Some ls'
                  /\ REMAINING_BOND ls' = r * 30 / 100)
  /\ r * 70 / 100 + r * 30 / 100 + (if r mod 10 =? 0 then 0 else 1) = r.
Proof.
  intros Hr Hbox Hls Hthird r.
  apply reveal_for_Ok in Hr.
  destruct Hr as (g & bidder' & ls' & anon_key & stored & msg & _ & _ & _
                  & _ & _ & Hbox' & Hls' & _ & _ & _ & _ & _ & Hpay).
  assert (bidder' = bidder) by congruence. subst bidder'.
  assert (ls' = ls) by congruence. subst ls'.
  apply pay_bounty_third in Hpay; [|exact Hthird]. subst st'.
  split; [reflexivity|]. split.
  - eexists. split.
    + simpl. apply lookup_insert_eq.
    + reflexivity.
  - apply split_70_30.
Qed.

(** C8 (amended).  When the reveal window is not empty
    ([UNLOCK_SLACK] > 0) and its end fits a uint64, the phase guard of
    [reveal_for] passes at round = [COMMIT_END], so the call does what the
    rest of the method does.  At round = [COMMIT_END] + [UNLOCK_SLACK] the
    call fails with [PhaseViolation] and the state is kept. *)
Theorem reveal_window_boundaries (st : State) (g : GlobalState) (env : Env)
    (commit_id : bytes) (bid : N) (salt hy att : bytes) :
  globals st = Some g ->
  round env <= uint64_max ->
  (round env = COMMIT_END g ->
   0 < UNLOCK_SLACK g ->
   COMMIT_END g + UNLOCK_SLACK g <= uint64_max ->
   reveal_phase g env = Ok tt
   /\ reveal_for st env commit_id bid salt hy att
      = reveal_body g st env commit_id bid salt hy att)
  /\ (round env = COMMIT_END g + UNLOCK_SLACK g ->
      reveal_for st env commit_id bid salt hy att = Err PhaseViolation
      /\ outcome st (reveal_for st env commit_id bid salt hy att) = st).
Proof.
  intros Hg Hround. split.
  - intros Hat Hslack Hfit.
    assert (Hphase : reveal_phase g env = Ok tt).
    { unfold reveal_phase.
      rewrite (Assert_true (COMMIT_END g <=? round env))
        by (apply N.leb_le; lia).
      simpl. rewrite (add64_fits _ _ Hfit). simpl.
      apply Assert_true, N.ltb_lt. lia. }
    split; [exact Hphase|].
    unfold reveal_for. rewrite (the_globals_Some _ _ Hg). simpl.
    rewrite Hphase. reflexivity.
  - intros Hat.
    assert (Hrev : reveal_for st env commit_id bid salt hy att
                   = Err PhaseViolation).
    { unfold reveal_for. rewrite (the_globals_Some _ _ Hg). simpl.
      unfold reveal_phase.
      rewrite (Assert_true (COMMIT_END g <=? round env))
        by (apply N.leb_le; lia).
      simpl. rewrite add64_fits by lia. simpl.
      rewrite (Assert_false (round env <? _))
        by (apply N.ltb_ge; lia).
      reflexivity. }
    rewrite Hrev. split; reflexivity.
Qed.
End BountyAndWindow.

(** ** [commit] and the commitment index *)

Lemma commit_never_duplicate (st : State) (env : Env) (h c_cid anon_key : bytes) :
  commit st env h c_cid anon_key <> Err DuplicateCommitment.
Proof.
  unfold commit, the_globals, local_of, box_put, Assert.
  repeat (match goal with
          | |- context [match ?x with _ => _ end] => destruct x
          | |- context [if ?x then _ else _] => destruct x
          end; simpl; try discriminate).
Qed.

(** C3 (amended).  [commit] has no duplicate check: the index is written
    with [box_put].  A commit whose hash is already in the index, put there
    by whoever, succeeds when its other preconditions hold (commit phase,
    bond payment in the group, caller opted in and not bonded, hash of 1 to
    64 bytes, existing entry as long as the caller's address), and the
    entry for the hash is overwritten with the caller.  No call to [commit]
    fails with [DuplicateCommitment]. *)
Theorem commit_overwrites_index (st : State) (g : GlobalState) (env : Env)
    (h c_cid anon_key other : bytes) (ls : LocalState) :
  globals st = Some g ->
  round env < COMMIT_END g ->
  group_size env = 2 ->
  type_enum (gtxn0 env) = Payment ->
  receiver (gtxn0 env) = current_application_address env ->
  amount (gtxn0 env) = BOND g ->
  locals st !! sender env = Some ls ->
  BONDED ls = 0 ->
  1 <= len h <= 64 ->
  boxes st !! h = Some other ->
  len other = len (sender env) ->
  (exists st', commit st env h c_cid anon_key = Ok st'
               /\ boxes st' !! h = Some (sender env))
  /\ forall st0 env0 h0 c0 a0,
       commit st0 env0 h0 c0 a0 <> Err DuplicateCommitment.
Proof.
  intros Hg Hphase Hgs Hty Hrcv Hamt Hls Hb [Hh1 Hh2] Hbox Hlen.
  split; [|intros; apply commit_never_duplicate].
  unfold commit. rewrite (the_globals_Some _ _ Hg). simpl.
  rewrite (Assert_true (round env <? COMMIT_END g)) by (apply N.ltb_lt; lia).
  simpl. rewrite Hgs. simpl. rewrite Hty. simpl.
  rewrite (Assert_true (bytes_eqb _ _)) by (apply bytes_eqb_true; exact Hrcv).
  simpl. rewrite Hamt, N.eqb_refl. simpl.
  rewrite (local_of_Some _ _ _ Hls). simpl. rewrite Hb. simpl.
  unfold box_put.
  rewrite (Assert_true (_ && _))
    by (apply andb_true_iff; split; apply N.leb_le; lia).
  simpl. rewrite Hbox. rewrite Hlen, N.eqb_refl. simpl.
  eexists. split; [reflexivity|]. simpl. apply lookup_insert_eq.
Qed.

(** ** What a successful call has done *)

Lemma release_bond_Ok (a : bytes) (ev : N -> Event) (st st' : State) :
  release_bond a ev st = Ok st' ->
  exists ls, locals st !! a = Some ls
    /\ ((0 < REMAINING_BOND ls
         /\ st' = set_local a (with_remaining 0 ls)
                    (emit (ev (REMAINING_BOND ls)) st))
        \/ (REMAINING_BOND ls = 0 /\ st' = st)).
Proof.
  unfold release_bond. intros Hr.
  apply bind_Ok in Hr as (ls & Hls & Hr). apply local_of_Ok in Hls.
  exists ls. split; [exact Hls|].
  destruct (N.ltb_spec 0 (REMAINING_BOND ls)); injection Hr as <-.
  - left. auto.
  - right. split; [lia | reflexivity].
Qed.

Lemma release_bond_frame (a : bytes) (ev : N -> Event) (st st' : State) :
  release_bond a ev st = Ok st' ->
  globals st' = globals st /\ boxes st' = boxes st.
Proof.
  intros Hr. apply release_bond_Ok in Hr as (ls & _ & [[_ ->] | [_ ->]]);
    auto.
Qed.

Lemma pay_bounty_frame (bidder : bytes) (ls : LocalState) (st st' : State)
    (env : Env) :
  pay_bounty bidder ls st env = Ok st' ->
  globals st' = globals st /\ boxes st' = boxes st.
Proof.
  intros Hp. destruct (decide (sender env = bidder)) as [Hs|Hs].
  - apply pay_bounty_self in Hp; [|exact Hs]. subst. auto.
  - apply pay_bounty_third in Hp; [|exact Hs]. subst. auto.
Qed.

Lemma create_Ok (st st' : State) (env : Env) (a : CreateArgs) :
  create st env a = Ok st' ->
  round env < arg_commit_end a
  /\ exists g, st' = set_globals g st
       /\ WIN_BID g = 0 /\ SECOND_BID g = 0 /\ SETTLED g = 0
       /\ SELLER g = sender env.
Proof.
  unfold create. intros Hc.
  apply bind_Ok in Hc as (? & Hsch & Hc). apply Assert_Ok, N.ltb_lt in Hsch.
  injection Hc as <-. split; [exact Hsch|].
  eexists. split; [reflexivity|]. simpl. auto.
Qed.

Lemma commit_Ok (st st' : State) (env : Env) (h c_cid anon_key : bytes) :
  commit st env h c_cid anon_key = Ok st' ->
  exists g ls b,
    globals st = Some g
    /\ round env < COMMIT_END g
    /\ amount (gtxn0 env) = BOND g
    /\ locals st !! sender env = Some ls
    /\ BONDED ls = 0
    /\ box_put h (sender env) (boxes st) = Ok b
    /\ st' = emit (BondPosted (sender env) (BOND g))
               (set_boxes b
                  (set_local (sender env)
                     {| COMMIT := Some h; C_CID := Some c_cid;
                        ANON_KEY := Some anon_key; BONDED := 1;
                        REVEALED := 0; BID := 0; REFUNDED := 0;
                        REMAINING_BOND := BOND g |} st)).
Proof.
  unfold commit. intros Hc.
  apply bind_Ok in Hc as (g & Hg & Hc). apply the_globals_Ok in Hg.
  apply bind_Ok in Hc as (? & Hph & Hc). apply Assert_Ok, N.ltb_lt in Hph.
  apply bind_Ok in Hc as (? & _ & Hc).
  apply bind_Ok in Hc as (? & _ & Hc).
  apply bind_Ok in Hc as (? & _ & Hc).
  apply bind_Ok in Hc as (? & Hamt & Hc). apply Assert_Ok, N.eqb_eq in Hamt.
  apply bind_Ok in Hc as (ls & Hls & Hc). apply local_of_Ok in Hls.
  apply bind_Ok in Hc as (? & Hb & Hc). apply Assert_Ok, N.eqb_eq in Hb.
  apply bind_Ok in Hc as (b & Hbox & Hc). simpl in Hbox.
  injection Hc as <-. rewrite Hamt.
  exists g, ls, b. repeat split; assumption.
Qed.

Lemma settle_Ok (st st' : State) (env : Env) :
  settle st env = Ok st' ->
  exists g, globals st = Some g
    /\ SETTLED g = 0
    /\ COMMIT_END g + UNLOCK_SLACK g <= round env
    /\ st' = set_globals (with_settled 1 (round env) g) st.
Proof.
  unfold settle. intros Hs.
  apply bind_Ok in Hs as (g & Hg & Hs). apply the_globals_Ok in Hg.
  apply bind_Ok in Hs as (unlock & Hu & Hs). apply add64_Ok in Hu as [-> _].
  apply bind_Ok in Hs as (? & Hph & Hs). apply Assert_Ok, N.leb_le in Hph.
  apply bind_Ok in Hs as (? & Hset & Hs). apply Assert_Ok, N.eqb_eq in Hset.
  exists g. repeat split; try assumption.
  destruct (negb _ && _); injection Hs as <-; reflexivity.
Qed.

Lemma finalize_win_Ok (st st' : State) (env : Env) (price : N) :
  finalize_win st env price = Ok st' ->
  exists g, globals st = Some g
    /\ finalize_guards g env price = Ok tt
    /\ price = expected_price g
    /\ release_bond (sender env) (BondRefunded (sender env))
         (emit (PricePaid (ASA_QUOTE g) (SELLER g) price) st) = Ok st'.
Proof.
  unfold finalize_win. intros Hf.
  apply bind_Ok in Hf as (g & Hg & Hf). apply the_globals_Ok in Hg.
  apply bind_Ok in Hf as ([] & Hgu & Hf).
  apply bind_Ok in Hf as (? & Hpr & Hf). apply Assert_Ok, N.eqb_eq in Hpr.
  exists g. auto.
Qed.

Lemma promote_next_Ok (st st' : State) (env : Env) :
  promote_next st env = Ok st' ->
  exists g st1, globals st = Some g
    /\ SETTLED g = 1
    /\ SETTLE_ROUND g + PAY_WINDOW g < round env
    /\ SECOND_WINNER g <> ""%string
    /\ release_bond (WINNER g) (BondSlashed (WINNER g) (SELLER g)) st = Ok st1
    /\ st' = set_globals
               (with_settled (SETTLED g) (round env)
                  (with_leader (SECOND_WINNER g) (SECOND_BID g) "" 0 g)) st1.
Proof.
  unfold promote_next. intros Hp.
  apply bind_Ok in Hp as (g & Hg & Hp). apply the_globals_Ok in Hg.
  apply bind_Ok in Hp as (? & Hset & Hp). apply Assert_Ok, N.eqb_eq in Hset.
  apply bind_Ok in Hp as (d & Hd & Hp). apply add64_Ok in Hd as [-> _].
  apply bind_Ok in Hp as (? & Hph & Hp). apply Assert_Ok, N.ltb_lt in Hph.
  apply bind_Ok in Hp as (? & Hsw & Hp).
  apply Assert_Ok, negb_true_iff, bytes_eqb_false in Hsw.
  apply bind_Ok in Hp as (st1 & Hrel & Hp). injection Hp as <-.
  exists g, st1. repeat split; assumption.
Qed.

Lemma claim_refund_Ok (st st' : State) (env : Env) :
  claim_refund st env = Ok st' ->
  exists g ls st1 ls1, globals st = Some g
    /\ SETTLED g = 1
    /\ locals st !! sender env = Some ls
    /\ REVEALED ls = 1
    /\ sender env <> WINNER g
    /\ REFUNDED ls = 0
    /\ release_bond (sender env) (BondRefunded (sender env)) st = Ok st1
    /\ locals st1 !! sender env = Some ls1
    /\ st' = set_local (sender env) (with_refunded ls1) st1.
Proof.
  unfold claim_refund. intros Hc.
  apply bind_Ok in Hc as (g & Hg & Hc). apply the_globals_Ok in Hg.
  apply bind_Ok in Hc as (? & Hset & Hc). apply Assert_Ok, N.eqb_eq in Hset.
  apply bind_Ok in Hc as (ls & Hls & Hc). apply local_of_Ok in Hls.
  apply bind_Ok in Hc as (? & Hrev & Hc). apply Assert_Ok, N.eqb_eq in Hrev.
  apply bind_Ok in Hc as (? & Hw & Hc).
  apply Assert_Ok, negb_true_iff, bytes_eqb_false in Hw.
  apply bind_Ok in Hc as (? & Hrf & Hc). apply Assert_Ok, N.eqb_eq in Hrf.
  apply bind_Ok in Hc as (st1 & Hrel & Hc).
  apply bind_Ok in Hc as (ls1 & Hls1 & Hc). apply local_of_Ok in Hls1.
  injection Hc as <-.
  exists g, ls, st1, ls1. repeat split; assumption.
Qed.

Lemma set_kyc_Ok (st st' : State) (env : Env) (addr : bytes) (value : N) :
  set_kyc st env addr value = Ok st' ->
  exists b, st' = set_boxes b st.
Proof.
  unfold set_kyc. intros Hk.
  apply bind_Ok in Hk as (g & _ & Hk).
  apply bind_Ok in Hk as (? & _ & Hk).
  apply bind_Ok in Hk as (? & _ & Hk).
  apply bind_Ok in Hk as (b & _ & Hk).
  injection Hk as <-. eauto.
Qed.

Lemma update_Ok (st st' : State) (env : Env) : update st env = Ok st' -> st' = st.
Proof.
  unfold update. intros Hu.
  apply bind_Ok in Hu as (g & _ & Hu).
  apply bind_Ok in Hu as (? & _ & Hu). congruence.
Qed.

Lemma delete_Ok (st st' : State) (env : Env) : delete st env = Ok st' -> st' = st.
Proof.
  unfold delete. intros Hu.
  apply bind_Ok in Hu as (g & _ & Hu).
  apply bind_Ok in Hu as (? & _ & Hu). congruence.
Qed.

(** ** Reachable states *)

Section Invariants.
Context `{Crypto}.

Lemma apply_call_cases (st st' : State) (env : Env) (c : AppCall) :
  apply_call st env c = Ok st' ->
  st' = st
  \/ (exists m, application_args c = Method m
                /\ run_method st env m = Ok st')
  \/ (locals st !! sender env = None
      /\ st' = set_local (sender env) empty_local st)
  \/ st' = drop_local (sender env) st.
Proof.
  intros Ha. unfold apply_call in Ha.
  destruct (on_completion c) eqn:Hoc.
  - (* NoOp *)
    unfold approval_program in Ha. rewrite Hoc in Ha.
    destruct (application_args c) as [|m|] eqn:Hargs; try discriminate.
    + simpl in Ha. destruct (application_id c =? 0); [|discriminate].
      left. congruence.
    + simpl in Ha. destruct (negb _); [|discriminate]. right. left. eauto.
  - (* OptIn *)
    destruct (locals st !! sender env) eqn:Hl; [discriminate|].
    unfold approval_program in Ha. rewrite Hoc in Ha.
    destruct (application_args c); try discriminate.
    simpl in Ha. destruct (negb _); [|discriminate].
    right. right. left. split; [reflexivity | congruence].
  - (* CloseOut *)
    apply bind_Ok in Ha as (st1 & Happ & Ha).
    apply bind_Ok in Ha as (? & _ & Ha).
    unfold approval_program in Happ. rewrite Hoc in Happ.
    destruct (application_args c); try discriminate.
    simpl in Happ. destruct (negb _); [|discriminate].
    right. right. right. congruence.
  - (* ClearState *)
    apply bind_Ok in Ha as (? & _ & Ha).
    right. right. right. congruence.
  - (* UpdateApplication *)
    unfold approval_program in Ha. rewrite Hoc in Ha.
    destruct (application_args c); try discriminate.
    simpl in Ha. destruct (negb _); [|discriminate]. left. congruence.
  - (* DeleteApplication *)
    unfold approval_program in Ha. rewrite Hoc in Ha.
    destruct (application_args c); try discriminate.
    simpl in Ha. destruct (negb _); [|discriminate]. left. congruence.
Qed.

(** Induction on the calls that lead to a state. *)
Lemma reachable_invariant (P : State -> Prop) :
  P genesis ->
  (forall st env m st',
     reachable st -> P st -> run_method st env m = Ok st' -> P st') ->
  (forall st a,
     P st -> locals st !! a = None -> P (set_local a empty_local st)) ->
  (forall st a, P st -> P (drop_local a st)) ->
  forall st, reachable st -> P st.
Proof.
  intros Hgen Hmeth Hin Hout st Hreach.
  induction Hreach as [|st env c st' Hreach IH Hk Ha]; [exact Hgen|].
  apply apply_call_cases in Ha.
  destruct Ha as [-> | [(m & _ & Hm) | [[Hnone ->] | ->]]].
  - exact IH.
  - eapply Hmeth; eassumption.
  - apply Hin; assumption.
  - apply Hout; assumption.
Qed.

Lemma apply_calls_reachable (cs : list (Env * AppCall)) :
  forall st st',
    reachable st ->
    Forall (fun ec => keeps_program (on_completion (snd ec)) = true) cs ->
    apply_calls st cs = Ok st' ->
    reachable st'.
Proof.
  induction cs as [|[env c] cs IH]; intros st st' Hreach Hk Hrun.
  - injection Hrun as <-. exact Hreach.
  - simpl in Hrun. apply bind_Ok in Hrun as (st1 & Hc & Hrun).
    inversion Hk as [|? ? Hk1 Hk2]; subst.
    eapply IH; [|exact Hk2|exact Hrun].
    eapply reach_call; eassumption.
Qed.

(** How a method changes the global state. *)
Lemma run_method_globals (st st' : State) (env : Env) (m : MethodCall) :
  run_method st env m = Ok st' ->
  (exists a g, m = call_create a /\ globals st' = Some g
               /\ WIN_BID g = 0 /\ SECOND_BID g = 0)
  \/ globals st' = globals st
  \/ (exists g b bid, globals st = Some g
        /\ globals st' = Some (update_leaderboard b bid g))
  \/ (exists g, globals st = Some g /\ SETTLED g = 0
        /\ globals st' = Some (with_settled 1 (round env) g))
  \/ (exists g, globals st = Some g /\ SETTLED g = 1
        /\ globals st' =
             Some (with_settled (SETTLED g) (round env)
                     (with_leader (SECOND_WINNER g) (SECOND_BID g) "" 0 g))).
Proof.
  destruct m; simpl; intros Hm.
  - apply create_Ok in Hm as (_ & g & -> & Hw & Hs & _).
    left. exists a, g. auto.
  - apply commit_Ok in Hm as (g & ls & b & _ & _ & _ & _ & _ & _ & ->).
    right. left. reflexivity.
  - apply reveal_for_Ok in Hm
      as (g & b & ls & ? & ? & ? & Hg & _ & _ & _ & _ & _ & _ & _ & _ & _
          & _ & _ & Hpay).
    apply pay_bounty_frame in Hpay as [Hgl _].
    right. right. left. exists g, b, bid. split; [exact Hg|].
    rewrite Hgl. reflexivity.
  - apply settle_Ok in Hm as (g & Hg & Hs & _ & ->).
    right. right. right. left. exists g. auto.
  - apply finalize_win_Ok in Hm as (g & _ & _ & _ & Hrel).
    apply release_bond_frame in Hrel as [Hgl _].
    right. left. rewrite Hgl. reflexivity.
  - apply promote_next_Ok in Hm as (g & st1 & Hg & Hs & _ & _ & _ & ->).
    right. right. right. right. exists g. auto.
  - apply claim_refund_Ok in Hm
      as (g & ls & st1 & ls1 & _ & _ & _ & _ & _ & _ & Hrel & _ & ->).
    apply release_bond_frame in Hrel as [Hgl _].
    right. left. simpl. exact Hgl.
  - apply set_kyc_Ok in Hm as (b & ->). right. left. reflexivity.
  - apply update_Ok in Hm as ->. right. left. reflexivity.
  - apply delete_Ok in Hm as ->. right. left. reflexivity.
Qed.

Lemma update_leaderboard_ordered (b : bytes) (bid : N) (g : GlobalState) :
  SECOND_BID g <= WIN_BID g ->
  SECOND_BID (update_leaderboard b bid g)
  <= WIN_BID (update_leaderboard b bid g).
Proof.
  intros Hord. unfold update_leaderboard.
  destruct (N.ltb_spec (WIN_BID g) bid); simpl; [lia|].
  destruct (N.ltb_spec (SECOND_BID g) bid); simpl; lia.
Qed.

Lemma run_method_leaderboard (st st' : State) (env : Env) (m : MethodCall) :
  leaderboard_inv st -> run_method st env m = Ok st' -> leaderboard_inv st'.
Proof.
  intros Hinv Hm g' Hg'.
  apply run_method_globals in Hm.
  destruct Hm as [(a & g & _ & Hg & Hw & Hs)
                 | [Hsame
                 | [(g & b & bid & Hg & Hgl)
                 | [(g & Hg & _ & Hgl) | (g & Hg & _ & Hgl)]]]].
  - assert (g' = g) by congruence. subst. lia.
  - apply Hinv. congruence.
  - assert (g' = update_leaderboard b bid g) by congruence. subst.
    apply update_leaderboard_ordered, Hinv, Hg.
  - assert (g' = with_settled 1 (round env) g) by congruence. subst.
    simpl. apply Hinv, Hg.
  - rewrite Hg' in Hgl. injection Hgl as ->. simpl. lia.
Qed.

Lemma reachable_leaderboard (st : State) : reachable st -> leaderboard_inv st.
Proof.
  apply reachable_invariant.
  - intros g Hg. discriminate.
  - intros st0 env m st' _. apply run_method_leaderboard.
  - intros st0 a Hinv _. exact Hinv.
  - intros st0 a Hinv. exact Hinv.
Qed.

(** C6.  In every reachable state, after every successful [reveal_for]
    and every successful [promote_next], the second bid is at most the
    winning bid. *)
Theorem win_bid_ge_second_bid (st st' : State) (env : Env)
    (commit_id : bytes) (bid : N) (salt hy att : bytes)
    (g' : GlobalState) :
  reachable st ->
  reveal_for st env commit_id bid salt hy att = Ok st'
  \/ promote_next st env = Ok st' ->
  globals st' = Some g' ->
  SECOND_BID g' <= WIN_BID g'.
Proof.
  intros Hreach Hcall Hg'.
  apply reachable_leaderboard in Hreach.
  destruct Hcall as [Hr | Hp].
  - exact (run_method_leaderboard st st' env
             (call_reveal_for commit_id bid salt hy att) Hreach Hr g' Hg').
  - exact (run_method_leaderboard st st' env call_promote_next
             Hreach Hp g' Hg').
Qed.

(** *** Settlement *)

Lemma stays_settled_refl (g : GlobalState) : stays_settled g g.
Proof. unfold stays_settled. auto. Qed.

Lemma update_leaderboard_schedule (b : bytes) (bid : N) (g : GlobalState) :
  stays_settled g (update_leaderboard b bid g).
Proof.
  unfold update_leaderboard, stays_settled.
  destruct (WIN_BID g <? bid); [simpl; auto|].
  destruct (SECOND_BID g <? bid); simpl; auto.
Qed.

Lemma apply_call_stays_settled (st st' : State) (env : Env) (c : AppCall)
    (g : GlobalState) :
  is_create c = false ->
  apply_call st env c = Ok st' ->
  globals st = Some g ->
  exists g', globals st' = Some g' /\ stays_settled g g'.
Proof.
  intros Hnc Ha Hg.
  apply apply_call_cases in Ha.
  destruct Ha as [-> | [(m & Hargs & Hm) | [[_ ->] | ->]]];
    try (exists g; split; [exact Hg | apply stays_settled_refl]).
  apply run_method_globals in Hm.
  destruct Hm as [(a & g1 & Hcr & _)
                 | [Hsame
                 | [(g1 & b & bid & Hg1 & Hgl)
                 | [(g1 & Hg1 & Hs & Hgl) | (g1 & Hg1 & Hs & Hgl)]]]].
  - unfold is_create in Hnc. rewrite Hargs, Hcr in Hnc. discriminate.
  - exists g. split; [congruence | apply stays_settled_refl].
  - assert (g1 = g) by congruence. subst g1.
    eexists. split; [exact Hgl | apply update_leaderboard_schedule].
  - assert (g1 = g) by congruence. subst g1.
    eexists. split; [exact Hgl|]. unfold stays_settled. simpl. auto.
  - assert (g1 = g) by congruence. subst g1.
    eexists. split; [exact Hgl|]. unfold stays_settled. simpl. auto.
Qed.

Lemma apply_calls_stay_settled (cs : list (Env * AppCall)) :
  forall st st' g,
    Forall (fun ec => is_create (snd ec) = false) cs ->
    apply_calls st cs = Ok st' ->
    globals st = Some g ->
    exists g', globals st' = Some g' /\ stays_settled g g'.
Proof.
  induction cs as [|[env c] cs IH]; intros st st' g Hnc Hrun Hg.
  - injection Hrun as <-. exists g. split; [exact Hg|].
    apply stays_settled_refl.
  - simpl in Hrun. apply bind_Ok in Hrun as (st1 & Hc & Hrun).
    inversion Hnc as [|? ? Hnc1 Hnc2]; subst.
    destruct (apply_call_stays_settled _ _ _ _ _ Hnc1 Hc Hg)
      as (g1 & Hg1 & Hk1 & Hk2 & Hk3).
    destruct (IH _ _ _ Hnc2 Hrun Hg1) as (g2 & Hg2 & Hj1 & Hj2 & Hj3).
    exists g2. split; [exact Hg2|].
    unfold stays_settled. repeat split; try congruence. auto.
Qed.

(** C9 (amended).  In a state with [SETTLED] = 0, at a round at or after
    [COMMIT_END] + [UNLOCK_SLACK], [settle] sets [SETTLED] to 1 and
    [SETTLE_ROUND] to the current round and changes nothing else, whatever
    the winner, the winning bid and the reserve.  After that, and after any
    further approved calls none of which is [create], a [settle] at the
    same or a later round fails with [AlreadySettled] and the state is
    kept.  [create] is what ends this: called by the creator in whatever
    state, a settled one included, it writes [SETTLED] = 0, and a [settle]
    at or after the end of the new reveal window is approved again and sets
    [SETTLED] to 1 and [SETTLE_ROUND] to its round.  [SETTLED] goes from 0
    to 1 once between two [create]s, not once per instance. *)
Theorem settle_once (st : State) (g : GlobalState) (env : Env) :
  globals st = Some g ->
  SETTLED g = 0 ->
  COMMIT_END g + UNLOCK_SLACK g <= round env ->
  round env <= uint64_max ->
  let g1 :=
    {| SELLER := SELLER g; ASA_QUOTE := ASA_QUOTE g; RESERVE := RESERVE g;
       MIN_BID := MIN_BID g; BOND := BOND g; SECOND_PRICE := SECOND_PRICE g;
       COMMIT_END := COMMIT_END g; UNLOCK_SLACK := UNLOCK_SLACK g;
       PAY_WINDOW := PAY_WINDOW g; ORACLE_PK := ORACLE_PK g;
       P_HASH := P_HASH g; WINNER := WINNER g; WIN_BID := WIN_BID g;
       SECOND_BID := SECOND_BID g; SECOND_WINNER := SECOND_WINNER g;
       SETTLED := 1; SETTLE_ROUND := round env |} in
  let st1 :=
    {| globals := Some g1; locals := locals st; boxes := boxes st;
       events := events st |} in
  settle st env = Ok st1
  /\ (forall cs st2 env2,
        Forall (fun ec => is_create (snd ec) = false) cs ->
        apply_calls st1 cs = Ok st2 ->
        round env <= round env2 ->
        settle st2 env2 = Err AlreadySettled
        /\ outcome st2 (settle st2 env2) = st2)
  /\ (forall st2 envc a envs,
        sender envc = creator_address envc ->
        round envc < arg_commit_end a ->
        arg_commit_end a + arg_unlock_slack a <= round envs ->
        round envs <= uint64_max ->
        exists st3 g3 st4 g4,
          create st2 envc a = Ok st3
          /\ globals st3 = Some g3
          /\ SETTLED g3 = 0
          /\ settle st3 envs = Ok st4
          /\ globals st4 = Some g4
          /\ SETTLED g4 = 1
          /\ SETTLE_ROUND g4 = round envs).
Proof.
  intros Hg Hs Hph Hround g1 st1.
  assert (Hfit : COMMIT_END g + UNLOCK_SLACK g <= uint64_max) by lia.
  split; [|split].
  - unfold settle. rewrite (the_globals_Some _ _ Hg). simpl.
    rewrite (add64_fits _ _ Hfit). simpl.
    rewrite (Assert_true (_ <=? _)) by (apply N.leb_le; exact Hph).
    simpl. rewrite Hs. simpl.
    destruct (negb _ && _); reflexivity.
  - intros cs st2 env2 Hnc Hrun Hlater.
    destruct (apply_calls_stay_settled cs st1 st2 g1 Hnc Hrun eq_refl)
      as (g2 & Hg2 & Hce & Hus & Hset).
    simpl in Hce, Hus, Hset. specialize (Hset eq_refl).
    assert (Hfail : settle st2 env2 = Err AlreadySettled).
    { unfold settle. rewrite (the_globals_Some _ _ Hg2). simpl.
      rewrite Hce, Hus. rewrite (add64_fits _ _ Hfit). simpl.
      rewrite (Assert_true (_ <=? _)) by (apply N.leb_le; lia).
      simpl. rewrite Hset. reflexivity. }
    rewrite Hfail. split; reflexivity.
  - intros st2 envc a envs _ Hearly Hover Hrs.
    assert (Hfit2 : arg_commit_end a + arg_unlock_slack a <= uint64_max)
      by lia.
    assert (Hc : create st2 envc a
                 = Ok (set_globals (created_globals envc a) st2)).
    { unfold create.
      rewrite (Assert_true (_ <? _)) by (apply N.ltb_lt; exact Hearly).
      reflexivity. }
    assert (Hst : exists st4,
               settle (set_globals (created_globals envc a) st2) envs = Ok st4
               /\ exists g4, globals st4 = Some g4
                             /\ SETTLED g4 = 1
                             /\ SETTLE_ROUND g4 = round envs).
    { unfold settle, the_globals. simpl.
      rewrite (add64_fits _ _ Hfit2). simpl.
      rewrite (Assert_true (_ <=? _)) by (apply N.leb_le; exact Hover).
      simpl. eexists. split; [reflexivity|].
      eexists. split; [reflexivity|]. split; reflexivity. }
    destruct Hst as (st4 & Hst4 & g4 & Hg4 & Hs4 & Hr4).
    exists (set_globals (created_globals envc a) st2),
           (created_globals envc a), st4, g4.
    split; [exact Hc|]. split; [reflexivity|]. split; [reflexivity|].
    split; [exact Hst4|]. split; [exact Hg4|]. split; [exact Hs4 | exact Hr4].
Qed.
End Invariants.

(** ** [create] on an initialised instance *)


(** ** Bond accounting *)

Lemma bytes_eqb_refl (a : bytes) : bytes_eqb a a = true.
Proof. apply bytes_eqb_true. reflexivity. Qed.

Lemma foreign_event (b : bytes) (ev : Event) (evs : list Event) :
  foreign b ev ->
  posted b (ev :: evs) = posted b evs
  /\ paid_out b (ev :: evs) = paid_out b evs.
Proof.
  destruct ev; simpl; intros Hf;
    try (apply bytes_eqb_false in Hf; rewrite Hf); auto.
Qed.

Lemma bond_account_foreign (b : bytes) (ls : LocalState) (ev : Event)
    (evs : list Event) :
  foreign b ev -> bond_account b ls evs -> bond_account b ls (ev :: evs).
Proof.
  intros Hf Hacc. unfold bond_account.
  destruct (foreign_event b ev evs Hf) as [-> ->]. exact Hacc.
Qed.

(** The account reads only two fields of the local state. *)
Lemma bond_account_ext (b : bytes) (ls ls' : LocalState) (evs : list Event) :
  REMAINING_BOND ls' = REMAINING_BOND ls ->
  (REVEALED ls' = 0 -> REVEALED ls = 0) ->
  bond_account b ls evs -> bond_account b ls' evs.
Proof.
  unfold bond_account. intros -> Hrev (H1 & H2 & H3 & H4).
  repeat split; auto; apply H4; auto.
Qed.

(** Paying out all that is left keeps the account. *)
Lemma bond_account_released (b : bytes) (ls : LocalState) (ev : Event)
    (evs : list Event) :
  ev = BondRefunded b (REMAINING_BOND ls)
  \/ (exists s, ev = BondSlashed b s (REMAINING_BOND ls)) ->
  bond_account b ls evs ->
  bond_account b (with_remaining 0 ls) (ev :: evs).
Proof.
  unfold bond_account. intros Hev (H1 & H2 & H3 & H4).
  assert (Hp : posted b (ev :: evs) = posted b evs
               /\ paid_out b (ev :: evs)
                  = REMAINING_BOND ls + paid_out b evs).
  { destruct Hev as [-> | [s ->]]; simpl; rewrite bytes_eqb_refl; auto. }
  destruct Hp as [-> ->]. simpl.
  split; [lia|]. split; [lia|]. split.
  - intros Hm. specialize (H3 Hm). lia.
  - intros Hrev. destruct (H4 Hrev) as [Htot _]. split; [lia|].
    right. reflexivity.
Qed.

Lemma release_bond_inv (a : bytes) (ev : N -> Event) (st st' : State) :
  (forall n, ev n = BondRefunded a n)
  \/ (exists s, forall n, ev n = BondSlashed a s n) ->
  bond_inv st -> release_bond a ev st = Ok st' -> bond_inv st'.
Proof.
  intros Hev Hinv Hrel.
  apply release_bond_Ok in Hrel as (ls & Hls & [[_ ->] | [_ ->]]);
    [|exact Hinv].
  intros b ls' Hl Hb. simpl in Hl |- *.
  destruct (decide (a = b)) as [<- | Hne].
  - rewrite lookup_insert_eq in Hl. injection Hl as <-.
    apply bond_account_released.
    + destruct Hev as [Hr | [s Hs]]; [left; apply Hr | right; eauto].
    + apply Hinv; assumption.
  - rewrite lookup_insert_ne in Hl by exact Hne.
    apply bond_account_foreign; [|apply Hinv; assumption].
    destruct Hev as [Hr | [s Hs]]; [rewrite Hr | rewrite Hs]; simpl;
      congruence.
Qed.

(** A third-party reveal: the two shares replace the bond. *)
Lemma bond_account_bounty (b revealer : bytes) (bid : N) (ls : LocalState)
    (evs : list Event) :
  REVEALED ls = 0 ->
  bond_account b ls evs ->
  bond_account b
    (with_remaining (REMAINING_BOND ls * 30 / 100) (with_revealed bid ls))
    (BountyPaid b revealer (REMAINING_BOND ls * 70 / 100) :: evs).
Proof.
  unfold bond_account. intros Hrev (H1 & H2 & H3 & H4).
  destruct (H4 Hrev) as [Htot Hrem]. simpl. rewrite bytes_eqb_refl.
  pose proof (split_70_30 (REMAINING_BOND ls)) as Hsplit.
  set (r := REMAINING_BOND ls) in *.
  set (r70 := r * 70 / 100) in *. set (r30 := r * 30 / 100) in *.
  assert (Hd : (if r mod 10 =? 0 then 0 else 1) <= 1)
    by (destruct (r mod 10 =? 0); lia).
  split; [lia|]. split; [lia|]. split.
  - intros Hm.
    assert (Hz : r mod 10 = 0) by (destruct Hrem as [-> | ->]; auto).
    rewrite Hz in Hsplit. simpl in Hsplit. lia.
  - discriminate.
Qed.

Lemma bond_inv_emit_price (asset : N) (s : bytes) (n : N) (st : State) :
  bond_inv st -> bond_inv (emit (PricePaid asset s n) st).
Proof.
  intros Hinv b ls Hl Hb. simpl.
  apply bond_account_foreign; [exact I|]. apply Hinv; assumption.
Qed.

Lemma bond_inv_commit (st st' : State) (env : Env) (h c_cid anon_key : bytes) :
  bond_inv st -> commit st env h c_cid anon_key = Ok st' -> bond_inv st'.
Proof.
  intros Hinv Hc.
  apply commit_Ok in Hc as (g & ls0 & bx & _ & _ & _ & _ & _ & _ & ->).
  intros b ls Hl Hb. simpl in Hl |- *.
  destruct (decide (sender env = b)) as [<- | Hne].
  - rewrite lookup_insert_eq in Hl. injection Hl as <-.
    unfold bond_account. simpl. rewrite bytes_eqb_refl.
    repeat split; lia.
  - rewrite lookup_insert_ne in Hl by exact Hne.
    apply bond_account_foreign; [simpl; congruence|].
    apply Hinv; assumption.
Qed.

Section BondInvariant.
Context `{Crypto}.

Lemma bond_inv_reveal_for (st st' : State) (env : Env) (commit_id : bytes)
    (bid : N) (salt hy att : bytes) :
  bond_inv st ->
  reveal_for st env commit_id bid salt hy att = Ok st' ->
  bond_inv st'.
Proof.
  intros Hinv Hr.
  apply reveal_for_Ok in Hr
    as (g & bidder & ls0 & ? & ? & ? & _ & _ & _ & _ & _ & _ & Hls0 & _ & _
        & _ & Hrev & _ & Hpay).
  destruct (decide (sender env = bidder)) as [Hs | Hs].
  - apply pay_bounty_self in Hpay; [|exact Hs]. subst st'.
    intros b ls Hl Hb. simpl in Hl |- *.
    destruct (decide (bidder = b)) as [<- | Hne].
    + rewrite lookup_insert_eq in Hl. injection Hl as <-.
      simpl in Hb.
      apply (bond_account_ext _ ls0); [reflexivity | discriminate|].
      apply Hinv; assumption.
    + rewrite !lookup_insert_ne in Hl by exact Hne.
      apply Hinv; assumption.
  - apply pay_bounty_third in Hpay; [|exact Hs]. subst st'.
    intros b ls Hl Hb. simpl in Hl |- *.
    destruct (decide (bidder = b)) as [<- | Hne].
    + rewrite lookup_insert_eq in Hl. injection Hl as <-.
      simpl in Hb.
      apply bond_account_bounty; [exact Hrev|].
      apply Hinv; assumption.
    + rewrite !lookup_insert_ne in Hl by exact Hne.
      apply bond_account_foreign; [simpl; congruence|].
      apply Hinv; assumption.
Qed.

Lemma bond_inv_method (st st' : State) (env : Env) (m : MethodCall) :
  bond_inv st -> run_method st env m = Ok st' -> bond_inv st'.
Proof.
  intros Hinv Hm. destruct m; simpl in Hm.
  - apply create_Ok in Hm as (_ & g & -> & _). exact Hinv.
  - eapply bond_inv_commit; eassumption.
  - eapply bond_inv_reveal_for; eassumption.
  - apply settle_Ok in Hm as (g & _ & _ & _ & ->). exact Hinv.
  - apply finalize_win_Ok in Hm as (g & _ & _ & _ & Hrel).
    eapply release_bond_inv; [| |exact Hrel].
    + left. reflexivity.
    + apply bond_inv_emit_price, Hinv.
  - apply promote_next_Ok in Hm as (g & st1 & _ & _ & _ & _ & Hrel & ->).
    assert (Hinv1 : bond_inv st1).
    { eapply release_bond_inv; [|exact Hinv|exact Hrel].
      right. eexists. reflexivity. }
    exact Hinv1.
  - apply claim_refund_Ok in Hm
      as (g & ls & st1 & ls1 & _ & _ & _ & _ & _ & _ & Hrel & Hls1 & ->).
    assert (Hinv1 : bond_inv st1).
    { eapply release_bond_inv; [|exact Hinv|exact Hrel].
      left. reflexivity. }
    intros b ls' Hl Hb. simpl in Hl |- *.
    destruct (decide (sender env = b)) as [<- | Hne].
    + rewrite lookup_insert_eq in Hl. injection Hl as <-.
      simpl in Hb.
      apply (bond_account_ext _ ls1); [reflexivity | auto |].
      apply Hinv1; assumption.
    + rewrite lookup_insert_ne in Hl by exact Hne.
      apply Hinv1; assumption.
  - apply set_kyc_Ok in Hm as (b & ->). exact Hinv.
  - apply update_Ok in Hm as ->. exact Hinv.
  - apply delete_Ok in Hm as ->. exact Hinv.
Qed.

Lemma reachable_bond_inv (st : State) : reachable st -> bond_inv st.
Proof.
  apply reachable_invariant.
  - intros b ls Hl. simpl in Hl. rewrite lookup_empty in Hl. discriminate.
  - intros st0 env m st' _. apply bond_inv_method.
  - intros st0 a Hinv _ b ls Hl Hb. simpl in Hl |- *.
    destruct (decide (a = b)) as [<- | Hne].
    + rewrite lookup_insert_eq in Hl. injection Hl as <-. discriminate.
    + rewrite lookup_insert_ne in Hl by exact Hne. apply Hinv; assumption.
  - intros st0 a Hinv b ls Hl Hb. simpl in Hl |- *.
    destruct (decide (a = b)) as [<- | Hne].
    + rewrite lookup_delete_eq in Hl. discriminate.
    + rewrite lookup_delete_ne in Hl by exact Hne. apply Hinv; assumption.
Qed.

(** C1 (amended).  In every reachable state, for every bidder whose
    record is bonded: [REMAINING_BOND] plus what the contract has paid out
    on the bidder's behalf since the commit (reveal bounty, refund, slash)
    is the bond the bidder posted at that commit, or one unit less.  It is
    exactly the posted bond while the bid is not revealed, and always when
    the posted bond is a multiple of 10. *)
Theorem bond_conservation (st : State) (b : bytes) (ls : LocalState) :
  reachable st ->
  locals st !! b = Some ls ->
  BONDED ls = 1 ->
  let total := REMAINING_BOND ls + paid_out b (events st) in
  let bond := posted b (events st) in
  bond <= total + 1
  /\ total <= bond
  /\ (bond mod 10 = 0 -> total = bond)
  /\ (REVEALED ls = 0 -> total = bond).
Proof.
  intros Hreach Hl Hb total bond.
  destruct (reachable_bond_inv st Hreach b ls Hl Hb) as (H1 & H2 & H3 & H4).
  repeat split; auto. intros Hrev. apply H4, Hrev.
Qed.
End BondInvariant.

(** * The theorems on the test scenarios *)

Import Scenario.

Lemma scenario_reachable (cs : list (Env * AppCall)) (st : State) :
  forallb (fun ec => keeps_program (on_completion (snd ec))) cs = true ->
  run cs = Ok st ->
  @reachable test_crypto st.
Proof.
  intros Hk Hrun.
  apply (@apply_calls_reachable test_crypto cs genesis st).
  - apply reach_genesis.
  - apply Forall_forall. intros ec Hin.
    rewrite forallb_forall in Hk. apply Hk.
    apply list_elem_of_In. exact Hin.
  - exact Hrun.
Qed.

Lemma scenario_state (cs : list (Env * AppCall)) :
  (exists st, run cs = Ok st) -> run cs = Ok (state_after cs).
Proof. unfold state_after. intros [st ->]. reflexivity. Qed.

Lemma revealed_runs : run (revealed 1000005) = Ok (state_after (revealed 1000005)).
Proof. apply scenario_state. vm_compute. eauto. Qed.

Lemma scenario_globals (cs : list (Env * AppCall)) :
  is_Some (globals (state_after cs)) ->
  globals (state_after cs) = Some (globals_after cs).
Proof. unfold globals_after. intros [g ->]. reflexivity. Defined.

Lemma scenario_local (cs : list (Env * AppCall)) (a : bytes) :
  is_Some (locals (state_after cs) !! a) ->
  locals (state_after cs) !! a = Some (local_after cs a).
Proof. unfold local_after. intros [ls ->]. reflexivity. Defined.

(** ** C1 *)

(** Counterexample to C1 as stated.  Bidder 2 posts a bond of 1000005 and a
    third party reveals the bid: 700003 is paid out, 300001 remains, and
    their sum is not the bond. *)
Lemma bond_not_conserved :
  @reachable test_crypto (state_after (revealed 1000005))
  /\ BOND (globals_after (revealed 1000005)) = 1000005
  /\ locals (state_after (revealed 1000005)) !! bidder2
     = Some (local_after (revealed 1000005) bidder2)
  /\ REMAINING_BOND (local_after (revealed 1000005) bidder2) = 300001
  /\ paid_out bidder2 (events (state_after (revealed 1000005))) = 700003
  /\ REMAINING_BOND (local_after (revealed 1000005) bidder2)
     + paid_out bidder2 (events (state_after (revealed 1000005)))
     <> BOND (globals_after (revealed 1000005)).
Proof.
  split.
  { apply (scenario_reachable (revealed 1000005));
      [reflexivity | apply revealed_runs]. }
  split; [vm_compute; reflexivity|].
  split; [vm_compute; reflexivity|].
  split; [vm_compute; reflexivity|].
  split; [vm_compute; reflexivity|].
  vm_compute. discriminate.
Qed.

Lemma bond_conservation_witness :
  @reachable test_crypto (state_after (revealed 1000005))
  /\ locals (state_after (revealed 1000005)) !! bidder2
     = Some (local_after (revealed 1000005) bidder2)
  /\ BONDED (local_after (revealed 1000005) bidder2) = 1
  /\ 1000005 <= 300001 + 700003 + 1
  /\ 300001 + 700003 <= 1000005.
Proof.
  assert (Hreach : @reachable test_crypto (state_after (revealed 1000005))).
  { apply (scenario_reachable (revealed 1000005));
      [reflexivity | apply revealed_runs]. }
  assert (Hl : locals (state_after (revealed 1000005)) !! bidder2
               = Some (local_after (revealed 1000005) bidder2)).
  { apply scenario_local. vm_compute. eauto. }
  assert (Hb : BONDED (local_after (revealed 1000005) bidder2) = 1).
  { vm_compute. reflexivity. }
  destruct (@bond_conservation test_crypto _ _ _ Hreach Hl Hb)
    as (H1 & H2 & _).
  split; [exact Hreach|]. split; [exact Hl|]. split; [exact Hb|].
  split; [exact H1 | exact H2].
Defined.

(** ** C2 *)

(** Counterexample to C2 as stated.  The third party's 700003 and the
    bidder's new [REMAINING_BOND] of 300001 leave one unit of the bond of
    1000005 with neither of them. *)
Lemma third_party_bounty_residual_lost :
  REMAINING_BOND (local_after (committed 1000005 50 ++ [reveal1 100]) bidder2)
  = 1000005
  /\ view (fun st' => (head (events st'),
                       REMAINING_BOND <$> locals st' !! bidder2))
       (@reveal_for test_crypto
          (state_after (committed 1000005 50 ++ [reveal1 100]))
          (alone third 120) hash2 bid2 salt2 "hy" sig)
     = Some (Some (BountyPaid bidder2 third 700003), Some 300001)
  /\ 700003 + 300001 <> 1000005.
Proof.
  split; [vm_compute; reflexivity|].
  split; [vm_compute; reflexivity|].
  discriminate.
Qed.

Lemma third_party_bounty_split_witness :
  (exists st',
     @reveal_for test_crypto
       (state_after (committed 1000005 50 ++ [reveal1 100]))
       (alone third 120) hash2 bid2 salt2 "hy" sig = Ok st'
     /\ events st'
        = BountyPaid bidder2 third (1000005 * 70 / 100)
          :: events (state_after (committed 1000005 50 ++ [reveal1 100])))
  /\ 1000005 * 70 / 100 + 1000005 * 30 / 100
     + (if 1000005 mod 10 =? 0 then 0 else 1) = 1000005.
Proof.
  destruct (@reveal_for test_crypto
              (state_after (committed 1000005 50 ++ [reveal1 100]))
              (alone third 120) hash2 bid2 salt2 "hy" sig)
    as [st'|e] eqn:Hr; [|vm_compute in Hr; discriminate].
  assert (Hbox : boxes (state_after (committed 1000005 50 ++ [reveal1 100]))
                 !! hash2 = Some bidder2) by (vm_compute; reflexivity).
  assert (Hl : locals (state_after (committed 1000005 50 ++ [reveal1 100]))
               !! bidder2
               = Some (local_after (committed 1000005 50 ++ [reveal1 100])
                         bidder2)).
  { apply scenario_local. vm_compute. eauto. }
  assert (Hthird : sender (alone third 120) <> bidder2) by discriminate.
  destruct (@third_party_bounty_split test_crypto _ _ _ _ _ _ _ _ _ _
              Hr Hbox Hl Hthird) as (Hev & _ & Hsum).
  split.
  - exists st'. split; [reflexivity|]. exact Hev.
  - exact Hsum.
Defined.

(** ** C3 *)

(** Counterexample to C3 as stated.  Bidder 1 has committed [hash1];
    bidder 2 then commits the same hash: the call succeeds and the index
    entry now names bidder 2. *)
Lemma duplicate_commitment_accepted :
  boxes (state_after (one_committed 1000000)) !! hash1 = Some bidder1
  /\ view (fun st' => boxes st' !! hash1)
       (commit (state_after (one_committed 1000000))
          (after (pay 1000000) bidder2 21) hash1 "cid2" anon2)
     = Some (Some bidder2).
Proof. split; vm_compute; reflexivity. Qed.

Lemma commit_overwrites_index_witness :
  boxes (state_after (one_committed 1000000)) !! hash1 = Some bidder1
  /\ exists st',
       commit (state_after (one_committed 1000000))
         (after (pay 1000000) bidder2 21) hash1 "cid2" anon2 = Ok st'
       /\ boxes st' !! hash1 = Some bidder2.
Proof.
  assert (Hbox : boxes (state_after (one_committed 1000000)) !! hash1
                 = Some bidder1) by (vm_compute; reflexivity).
  split; [exact Hbox|].
  refine (proj1 (commit_overwrites_index
                   (state_after (one_committed 1000000))
                   (globals_after (one_committed 1000000))
                   (after (pay 1000000) bidder2 21)
                   hash1 "cid2" anon2 bidder1
                   (local_after (one_committed 1000000) bidder2)
                   _ _ _ _ _ _ _ _ _ Hbox _)).
  - apply scenario_globals. vm_compute. eauto.
  - vm_compute. reflexivity.
  - reflexivity.
  - reflexivity.
  - reflexivity.
  - vm_compute. reflexivity.
  - apply scenario_local. vm_compute. eauto.
  - vm_compute. reflexivity.
  - vm_compute. split; discriminate.
  - vm_compute. reflexivity.
Defined.

(** ** C4 *)



(** ** C5 *)

Lemma finalize_win_price_witness :
  globals (state_after (settled 1000005))
  = Some (globals_after (settled 1000005))
  /\ SECOND_PRICE (globals_after (settled 1000005)) = 1
  /\ SECOND_BID (globals_after (settled 1000005)) = 1800000
  /\ RESERVE (globals_after (settled 1000005)) = 1500000
  /\ (exists st',
        finalize_win (state_after (settled 1000005))
          (after (axfer 1800000) bidder1 155) 1800000 = Ok st')
  /\ finalize_win (state_after (settled 1000005))
       (after (axfer 1500000) bidder1 155) 1500000 = Err PriceMismatch.
Proof.
  assert (Hg : globals (state_after (settled 1000005))
               = Some (globals_after (settled 1000005))).
  { apply scenario_globals. vm_compute. eauto. }
  split; [exact Hg|].
  split; [vm_compute; reflexivity|].
  split; [vm_compute; reflexivity|].
  split; [vm_compute; reflexivity|].
  split.
  - destruct (finalize_win (state_after (settled 1000005))
                (after (axfer 1800000) bidder1 155) 1800000)
      as [st'|e] eqn:Hf; [eauto | vm_compute in Hf; discriminate].
  - destruct (finalize_win_price _ _ (after (axfer 1500000) bidder1 155)
                1500000 Hg) as [_ Hbad].
    apply Hbad.
    + vm_compute. discriminate.
    + vm_compute. reflexivity.
Defined.

(** ** C6 *)

Lemma win_bid_ge_second_bid_witness :
  @reachable test_crypto (state_after (committed 1000005 50 ++ [reveal1 100]))
  /\ exists st' g',
       @reveal_for test_crypto
         (state_after (committed 1000005 50 ++ [reveal1 100]))
         (alone third 120) hash2 bid2 salt2 "hy" sig = Ok st'
       /\ globals st' = Some g'
       /\ SECOND_BID g' <= WIN_BID g'.
Proof.
  assert (Hreach : @reachable test_crypto
                     (state_after (committed 1000005 50 ++ [reveal1 100]))).
  { apply (scenario_reachable (committed 1000005 50 ++ [reveal1 100]));
      [reflexivity|].
    apply scenario_state. vm_compute. eauto. }
  split; [exact Hreach|].
  destruct (@reveal_for test_crypto
              (state_after (committed 1000005 50 ++ [reveal1 100]))
              (alone third 120) hash2 bid2 salt2 "hy" sig)
    as [st'|e] eqn:Hr; [|vm_compute in Hr; discriminate].
  destruct (globals st') as [g'|] eqn:Hg'.
  - exists st', g'. split; [reflexivity|]. split; [exact Hg'|].
    exact (@win_bid_ge_second_bid test_crypto _ st' (alone third 120)
             hash2 bid2 salt2 "hy" sig g' Hreach (or_introl Hr) Hg').
  - exfalso. vm_compute in Hr. injection Hr as <-. discriminate.
Defined.

(** ** C7 *)

Lemma reveal_for_commitment_witness :
  globals (state_after (committed 1000005 50))
  = Some (globals_after (committed 1000005 50))
  /\ (exists st',
        @reveal_for test_crypto (state_after (committed 1000005 50))
          (alone bidder1 100) hash1 bid1 salt1 "hy" sig = Ok st')
  /\ @reveal_for test_crypto (state_after (committed 1000005 50))
       (alone bidder1 100) hash1 (bid1 + 1) salt1 "hy" sig
     = Err CommitmentMismatch.
Proof.
  assert (Hg : globals (state_after (committed 1000005 50))
               = Some (globals_after (committed 1000005 50))).
  { apply scenario_globals. vm_compute. eauto. }
  split; [exact Hg|]. split.
  - destruct (@reveal_for test_crypto (state_after (committed 1000005 50))
                (alone bidder1 100) hash1 bid1 salt1 "hy" sig)
      as [st'|e] eqn:Hr; [eauto | vm_compute in Hr; discriminate].
  - destruct (@reveal_for_commitment test_crypto _ _ (alone bidder1 100)
                hash1 (bid1 + 1) salt1 "hy" sig Hg) as [_ Hbad].
    refine (proj2 (proj2 (Hbad bidder1
                            (local_after (committed 1000005 50) bidder1)
                            anon1 hash1 _ _ _ _ _)) _ _ _).
    + vm_compute. reflexivity.
    + apply scenario_local. vm_compute. eauto.
    + vm_compute. reflexivity.
    + vm_compute. reflexivity.
    + vm_compute. discriminate.
    + vm_compute. reflexivity.
    + vm_compute. reflexivity.
    + eexists. split; vm_compute; reflexivity.
Defined.

(** ** C8 *)

(** Counterexample to C8 as stated.  With [UNLOCK_SLACK] = 0 the reveal
    window is empty: at round = [COMMIT_END] = 100 the call fails with
    [PhaseViolation] although everything else it checks holds (the rest of
    the method succeeds). *)
Lemma empty_reveal_window :
  COMMIT_END (globals_after (committed 1000005 0)) = 100
  /\ UNLOCK_SLACK (globals_after (committed 1000005 0)) = 0
  /\ round (alone bidder1 100) = 100
  /\ @reveal_for test_crypto (state_after (committed 1000005 0))
       (alone bidder1 100) hash1 bid1 salt1 "hy" sig = Err PhaseViolation
  /\ view (fun _ => tt)
       (@reveal_body test_crypto (globals_after (committed 1000005 0))
          (state_after (committed 1000005 0))
          (alone bidder1 100) hash1 bid1 salt1 "hy" sig)
     = Some tt.
Proof. repeat split; vm_compute; reflexivity. Qed.

Lemma reveal_window_boundaries_witness :
  globals (state_after (committed 1000005 50))
  = Some (globals_after (committed 1000005 50))
  /\ reveal_phase (globals_after (committed 1000005 50)) (alone bidder1 100)
     = Ok tt
  /\ @reveal_for test_crypto (state_after (committed 1000005 50))
       (alone bidder1 150) hash1 bid1 salt1 "hy" sig = Err PhaseViolation.
Proof.
  assert (Hg : globals (state_after (committed 1000005 50))
               = Some (globals_after (committed 1000005 50))).
  { apply scenario_globals. vm_compute. eauto. }
  split; [exact Hg|]. split.
  - refine (proj1 (proj1 (@reveal_window_boundaries test_crypto _ _
                            (alone bidder1 100) hash1 bid1 salt1 "hy" sig
                            Hg _) _ _ _)).
    + vm_compute. discriminate.
    + vm_compute. reflexivity.
    + vm_compute. reflexivity.
    + vm_compute. discriminate.
  - refine (proj1 (proj2 (@reveal_window_boundaries test_crypto _ _
                            (alone bidder1 150) hash1 bid1 salt1 "hy" sig
                            Hg _) _)).
    + vm_compute. discriminate.
    + vm_compute. reflexivity.
Defined.

(** ** C9 *)

(** Counterexample to C9 as stated.  The auction is settled at round 150.
    The creator then calls [create] again at round 160, which writes
    [SETTLED] = 0; at round 350, after the new reveal window, [settle] is
    approved a second time on the same instance and sets [SETTLED] to 1 and
    [SETTLE_ROUND] to 350, where the claim has it fail with
    [AlreadySettled]. *)
Lemma settle_succeeds_twice :
  SETTLED (globals_after (revealed 1000005)) = 0
  /\ view globals (settle (state_after (revealed 1000005)) (alone third 150))
     = Some (Some (globals_after (settled 1000005)))
  /\ SETTLED (globals_after (settled 1000005)) = 1
  /\ sender (alone seller 160) = creator_address (alone seller 160)
  /\ view (fun st' => option_map SETTLED (globals st'))
       (create (state_after (settled 1000005)) (alone seller 160) params_again)
     = Some (Some 0)
  /\ view (fun st' => option_map SETTLED (globals st'))
       (settle
          (next (state_after (settled 1000005))
                (alone seller 160, abi (call_create params_again)))
          (alone third 350))
     = Some (Some 1)
  /\ view (fun st' => option_map SETTLE_ROUND (globals st'))
       (settle
          (next (state_after (settled 1000005))
                (alone seller 160, abi (call_create params_again)))
          (alone third 350))
     = Some (Some 350).
Proof. repeat split; vm_compute; reflexivity. Qed.

Lemma settle_once_witness :
  globals (state_after (revealed 1000005))
  = Some (globals_after (revealed 1000005))
  /\ SETTLED (globals_after (revealed 1000005)) = 0
  /\ @settle (state_after (revealed 1000005)) (alone third 150)
     = Ok (state_after (settled 1000005))
  /\ SETTLED (globals_after (settled 1000005)) = 1
  /\ SETTLE_ROUND (globals_after (settled 1000005)) = 150
  /\ @apply_calls test_crypto (state_after (settled 1000005))
       [(alone bidder2 155, abi call_claim_refund)]
     = Ok (next (state_after (settled 1000005))
             (alone bidder2 155, abi call_claim_refund))
  /\ settle
       (next (state_after (settled 1000005))
          (alone bidder2 155, abi call_claim_refund))
       (alone third 160)
     = Err AlreadySettled
  /\ exists st3 g3 st4 g4,
       create (state_after (settled 1000005)) (alone seller 160) params_again
       = Ok st3
       /\ globals st3 = Some g3
       /\ SETTLED g3 = 0
       /\ settle st3 (alone third 350) = Ok st4
       /\ globals st4 = Some g4
       /\ SETTLED g4 = 1
       /\ SETTLE_ROUND g4 = 350.
Proof.
  assert (Hg : globals (state_after (revealed 1000005))
               = Some (globals_after (revealed 1000005))).
  { apply scenario_globals. vm_compute. eauto. }
  assert (Hs : SETTLED (globals_after (revealed 1000005)) = 0)
    by (vm_compute; reflexivity).
  assert (Hph : COMMIT_END (globals_after (revealed 1000005))
                + UNLOCK_SLACK (globals_after (revealed 1000005))
                <= round (alone third 150)) by (vm_compute; discriminate).
  assert (Hr : round (alone third 150) <= uint64_max)
    by (vm_compute; discriminate).
  destruct (@settle_once test_crypto _ _ (alone third 150) Hg Hs Hph Hr)
    as (Hok & Hagain & Hcreate).
  match type of Hok with
  | _ = Ok ?s =>
      assert (Hst1 : s = state_after (settled 1000005))
        by (vm_compute; reflexivity)
  end.
  rewrite Hst1 in Hok, Hagain.
  assert (Hrun : @apply_calls test_crypto (state_after (settled 1000005))
                   [(alone bidder2 155, abi call_claim_refund)]
                 = Ok (next (state_after (settled 1000005))
                         (alone bidder2 155, abi call_claim_refund))).
  { vm_compute. reflexivity. }
  split; [exact Hg|]. split; [exact Hs|]. split; [exact Hok|].
  split; [vm_compute; reflexivity|]. split; [vm_compute; reflexivity|].
  split; [exact Hrun|]. split.
  - refine (proj1 (Hagain _ _ (alone third 160) _ Hrun _)).
    + repeat constructor.
    + vm_compute. discriminate.
  - apply (Hcreate (state_after (settled 1000005)) (alone seller 160)
             params_again (alone third 350)).
    + reflexivity.
    + vm_compute. reflexivity.
    + vm_compute. discriminate.
    + vm_compute. discriminate.
Defined.

(** ** C10 *)

Lemma bare_update_delete_unguarded_witness :
  sender (alone third 30) <> SELLER (globals_after (committed 1000005 50))
  /\ @approval_program test_crypto (state_after (committed 1000005 50))
       (alone third 30) (bare UpdateApplication)
     = Ok (state_after (committed 1000005 50))
  /\ @approval_program test_crypto (state_after (committed 1000005 50))
       (alone third 30) (bare DeleteApplication)
     = Ok (state_after (committed 1000005 50)).
Proof.
  split; [vm_compute; discriminate|]. split.
  - refine (proj1 (@bare_update_delete_unguarded test_crypto _
                     (alone third 30) (bare UpdateApplication) eq_refl _ _)).
    + vm_compute. discriminate.
    + left. reflexivity.
  - refine (proj1 (@bare_update_delete_unguarded test_crypto _
                     (alone third 30) (bare DeleteApplication) eq_refl _ _)).
    + vm_compute. discriminate.
    + right. reflexivity.
Defined.

(** * Further properties of the contract *)

(** ** Bidder records are kept *)

Lemma record_kept_refl (ls : LocalState) : record_kept ls ls.
Proof. unfold record_kept. repeat split; auto; lia. Qed.

Lemma record_kept_trans (l1 l2 l3 : LocalState) :
  record_kept l1 l2 -> record_kept l2 l3 -> record_kept l1 l3.
Proof.
  unfold record_kept.
  intros (A1 & A2 & A3 & A4 & A5 & A6 & A7) (B1 & B2 & B3 & B4 & B5 & B6 & B7).
  split; [congruence|]. split; [congruence|]. split; [congruence|].
  split; [congruence|]. split; [|split; [auto | lia]].
  intros Hr. destruct (A5 Hr) as [Hr2 Hb2]. destruct (B5 Hr2) as [Hr3 Hb3].
  split; congruence.
Qed.

Lemma share_30_le (r : N) : r * 30 / 100 <= r.
Proof. apply N.Div0.div_le_upper_bound. lia. Qed.

Lemma release_bond_record (a0 a : bytes) (ev : N -> Event) (st st' : State)
    (ls : LocalState) :
  release_bond a0 ev st = Ok st' ->
  locals st !! a = Some ls ->
  exists ls', locals st' !! a = Some ls' /\ record_kept ls ls'.
Proof.
  intros Hrel Hl.
  apply release_bond_Ok in Hrel as (ls0 & Hl0 & [[_ ->] | [_ ->]]).
  - simpl. destruct (decide (a0 = a)) as [-> | Hne].
    + rewrite lookup_insert_eq. eexists. split; [reflexivity|].
      assert (ls0 = ls) by congruence. subst ls0.
      unfold record_kept. simpl. repeat split; auto. lia.
    + rewrite lookup_insert_ne by exact Hne.
      exists ls. split; [exact Hl | apply record_kept_refl].
  - exists ls. split; [exact Hl | apply record_kept_refl].
Qed.

Section Records.
Context `{Crypto}.

Lemma reveal_for_record (st st' : State) (env : Env) (commit_id : bytes)
    (bid : N) (salt hy att a : bytes) (ls : LocalState) :
  reveal_for st env commit_id bid salt hy att = Ok st' ->
  locals st !! a = Some ls ->
  exists ls', locals st' !! a = Some ls' /\ record_kept ls ls'.
Proof.
  intros Hr Hl.
  apply reveal_for_Ok in Hr
    as (g & bidder & ls0 & ? & ? & ? & _ & _ & _ & _ & _ & _ & Hls0 & _ & _
        & _ & Hrev & _ & Hpay).
  destruct (decide (bidder = a)) as [-> | Hne].
  - assert (ls0 = ls) by congruence. subst ls0.
    destruct (decide (sender env = a)) as [Hs | Hs].
    + apply pay_bounty_self in Hpay; [|exact Hs]. subst st'. simpl.
      rewrite lookup_insert_eq. eexists. split; [reflexivity|].
      unfold record_kept. simpl.
      repeat split; auto; try lia; rewrite Hrev in *; discriminate.
    + apply pay_bounty_third in Hpay; [|exact Hs]. subst st'. simpl.
      rewrite lookup_insert_eq. eexists. split; [reflexivity|].
      unfold record_kept. simpl.
      repeat split; auto; try apply share_30_le;
        rewrite Hrev in *; discriminate.
  - exists ls. split; [|apply record_kept_refl].
    destruct (decide (sender env = bidder)) as [Hs | Hs].
    + apply pay_bounty_self in Hpay; [|exact Hs]. subst st'. simpl.
      rewrite !lookup_insert_ne by exact Hne. exact Hl.
    + apply pay_bounty_third in Hpay; [|exact Hs]. subst st'. simpl.
      rewrite !lookup_insert_ne by exact Hne. exact Hl.
Qed.

Lemma run_method_record (st st' : State) (env : Env) (m : MethodCall)
    (a : bytes) (ls : LocalState) :
  run_method st env m = Ok st' ->
  locals st !! a = Some ls ->
  BONDED ls = 1 ->
  exists ls', locals st' !! a = Some ls' /\ record_kept ls ls'.
Proof.
  intros Hm Hl Hb. destruct m; simpl in Hm.
  - apply create_Ok in Hm as (_ & g & -> & _).
    exists ls. split; [exact Hl | apply record_kept_refl].
  - apply commit_Ok in Hm as (g & ls0 & bx & _ & _ & _ & Hl0 & Hb0 & _ & ->).
    simpl. destruct (decide (sender env = a)) as [Hs | Hne].
    + rewrite Hs in Hl0. assert (ls0 = ls) by congruence. subst ls0.
      rewrite Hb in Hb0. discriminate.
    + rewrite lookup_insert_ne by exact Hne.
      exists ls. split; [exact Hl | apply record_kept_refl].
  - eapply reveal_for_record; eassumption.
  - apply settle_Ok in Hm as (g & _ & _ & _ & ->).
    exists ls. split; [exact Hl | apply record_kept_refl].
  - apply finalize_win_Ok in Hm as (g & _ & _ & _ & Hrel).
    eapply release_bond_record; [exact Hrel | exact Hl].
  - apply promote_next_Ok in Hm as (g & st1 & _ & _ & _ & _ & Hrel & ->).
    simpl. eapply release_bond_record; [exact Hrel | exact Hl].
  - apply claim_refund_Ok in Hm
      as (g & ls0 & st1 & ls1 & _ & _ & _ & _ & _ & _ & Hrel & Hls1 & ->).
    destruct (release_bond_record _ a _ _ _ ls Hrel Hl) as (ls' & Hl' & Hk).
    simpl. destruct (decide (sender env = a)) as [Hs | Hne].
    + rewrite Hs in *. rewrite lookup_insert_eq.
      assert (ls1 = ls') by congruence. subst ls1.
      eexists. split; [reflexivity|].
      apply (record_kept_trans _ ls'); [exact Hk|].
      unfold record_kept. simpl. repeat split; auto; lia.
    + rewrite lookup_insert_ne by exact Hne. eauto.
  - apply set_kyc_Ok in Hm as (b & ->).
    exists ls. split; [exact Hl | apply record_kept_refl].
  - apply update_Ok in Hm as ->.
    exists ls. split; [exact Hl | apply record_kept_refl].
  - apply delete_Ok in Hm as ->.
    exists ls. split; [exact Hl | apply record_kept_refl].
Qed.
End Records.

Section RecordsOverCalls.
Context `{Crypto}.

Lemma apply_call_cases_oc (st st' : State) (env : Env) (c : AppCall) :
  apply_call st env c = Ok st' ->
  ((on_completion c = CloseOut \/ on_completion c = ClearState)
   /\ is_Some (locals st !! sender env)
   /\ st' = drop_local (sender env) st)
  \/ (on_completion c <> CloseOut /\ on_completion c <> ClearState
      /\ (st' = st
          \/ (exists m, application_args c = Method m
                        /\ on_completion c = NoOp
                        /\ application_id c <> 0
                        /\ run_method st env m = Ok st')
          \/ (on_completion c = OptIn
              /\ locals st !! sender env = None
              /\ st' = set_local (sender env) empty_local st))).
Proof.
  intros Ha. unfold apply_call in Ha.
  destruct (on_completion c) eqn:Hoc.
  - right. split; [discriminate|]. split; [discriminate|].
    unfold approval_program in Ha. rewrite Hoc in Ha.
    destruct (application_args c) as [|m|] eqn:Hargs; try discriminate.
    + simpl in Ha. destruct (application_id c =? 0); [|discriminate].
      left. congruence.
    + simpl in Ha.
      destruct (N.eqb_spec (application_id c) 0); simpl in Ha;
        [discriminate|].
      right. left. exists m. auto.
  - right. split; [discriminate|]. split; [discriminate|].
    destruct (locals st !! sender env) eqn:Hl; [discriminate|].
    unfold approval_program in Ha. rewrite Hoc in Ha.
    destruct (application_args c); try discriminate.
    simpl in Ha. destruct (negb _); [|discriminate].
    right. right. split; [reflexivity|]. split; [reflexivity | congruence].
  - left. split; [left; reflexivity|].
    apply bind_Ok in Ha as (st1 & Happ & Ha).
    apply bind_Ok in Ha as (ls & Hls & Ha). apply local_of_Ok in Hls.
    unfold approval_program in Happ. rewrite Hoc in Happ.
    destruct (application_args c); try discriminate.
    simpl in Happ. destruct (negb _); [|discriminate].
    injection Happ as <-. split; [eauto | congruence].
  - left. split; [right; reflexivity|].
    apply bind_Ok in Ha as (ls & Hls & Ha). apply local_of_Ok in Hls.
    split; [eauto | congruence].
  - right. split; [discriminate|]. split; [discriminate|].
    unfold approval_program in Ha. rewrite Hoc in Ha.
    destruct (application_args c); try discriminate.
    simpl in Ha. destruct (negb _); [|discriminate]. left. congruence.
  - right. split; [discriminate|]. split; [discriminate|].
    unfold approval_program in Ha. rewrite Hoc in Ha.
    destruct (application_args c); try discriminate.
    simpl in Ha. destruct (negb _); [|discriminate]. left. congruence.
Qed.

Lemma apply_call_record (st st' : State) (env : Env) (c : AppCall)
    (a : bytes) (ls : LocalState) :
  apply_call st env c = Ok st' ->
  locals st !! a = Some ls ->
  BONDED ls = 1 ->
  (clears_local a (env, c) = true /\ locals st' !! a = None)
  \/ (clears_local a (env, c) = false
      /\ exists ls', locals st' !! a = Some ls' /\ record_kept ls ls').
Proof.
  intros Ha Hl Hb. unfold clears_local. simpl.
  apply apply_call_cases_oc in Ha.
  destruct Ha as [(Hoc & _ & ->) | (Hn1 & Hn2 & Hcases)].
  - destruct (decide (sender env = a)) as [Hs | Hne].
    + left. split.
      * apply andb_true_iff. split; [apply bytes_eqb_true, Hs|].
        destruct Hoc as [-> | ->]; reflexivity.
      * simpl. rewrite Hs. apply lookup_delete_eq.
    + right. split.
      * apply andb_false_iff. left. apply bytes_eqb_false, Hne.
      * exists ls. split; [|apply record_kept_refl].
        simpl. rewrite lookup_delete_ne by exact Hne. exact Hl.
  - right. split.
    { apply andb_false_iff. right.
      destruct (on_completion c); congruence. }
    destruct Hcases as [-> | [(m & _ & _ & _ & Hm) | (_ & Hnone & ->)]].
    + exists ls. split; [exact Hl | apply record_kept_refl].
    + eapply run_method_record; eassumption.
    + exists ls. split; [|apply record_kept_refl].
      simpl. rewrite lookup_insert_ne; [exact Hl|]. congruence.
Qed.

(** X1.  Whatever call is approved, by whomever: the record of a bonded
    bidder is deleted only by that bidder's own close-out or clear-state;
    otherwise its commitment hash, content reference and privacy key are
    unchanged, it stays bonded, a revealed bid stays revealed with the same
    value, a set refunded flag stays set, and [REMAINING_BOND] does not
    grow. *)
Theorem bidder_record_monotone (st st' : State) (env : Env) (c : AppCall)
    (a : bytes) (ls : LocalState) :
  apply_call st env c = Ok st' ->
  locals st !! a = Some ls ->
  BONDED ls = 1 ->
  (sender env = a
   /\ (on_completion c = CloseOut \/ on_completion c = ClearState)
   /\ locals st' !! a = None)
  \/ (exists ls',
        locals st' !! a = Some ls'
        /\ COMMIT ls' = COMMIT ls
        /\ C_CID ls' = C_CID ls
        /\ ANON_KEY ls' = ANON_KEY ls
        /\ BONDED ls' = 1
        /\ (REVEALED ls = 1 -> REVEALED ls' = 1 /\ BID ls' = BID ls)
        /\ (REFUNDED ls = 1 -> REFUNDED ls' = 1)
        /\ REMAINING_BOND ls' <= REMAINING_BOND ls).
Proof.
  intros Ha Hl Hb.
  destruct (apply_call_record _ _ _ _ _ _ Ha Hl Hb)
    as [[Hc Hnone] | (_ & ls' & Hl' & Hk)].
  - left. unfold clears_local in Hc. simpl in Hc.
    apply andb_true_iff in Hc as [Hs Hoc]. apply bytes_eqb_true in Hs.
    split; [exact Hs|]. split; [|exact Hnone].
    destruct (on_completion c); try discriminate; auto.
  - right. exists ls'. split; [exact Hl'|].
    destruct Hk as (K1 & K2 & K3 & K4 & K5 & K6 & K7).
    repeat split; try assumption; try congruence.
    + apply K5. assumption.
    + apply K5. assumption.
Qed.

(** The same along a sequence of calls in which the bidder neither closes
    out nor clears its state. *)
Lemma apply_calls_record (cs : list (Env * AppCall)) :
  forall (st st' : State) (a : bytes) (ls : LocalState),
    forallb (fun ec => negb (clears_local a ec)) cs = true ->
    apply_calls st cs = Ok st' ->
    locals st !! a = Some ls ->
    BONDED ls = 1 ->
    exists ls', locals st' !! a = Some ls' /\ record_kept ls ls'.
Proof.
  induction cs as [|[env c] cs IH]; intros st st' a ls Hnc Hrun Hl Hb.
  - injection Hrun as <-. exists ls. split; [exact Hl|].
    apply record_kept_refl.
  - simpl in Hnc. apply andb_true_iff in Hnc as [Hn1 Hn2].
    apply negb_true_iff in Hn1.
    simpl in Hrun. apply bind_Ok in Hrun as (st1 & Hc & Hrun).
    destruct (apply_call_record _ _ _ _ _ _ Hc Hl Hb)
      as [[Hcl _] | (_ & ls1 & Hl1 & Hk1)]; [congruence|].
    assert (Hb1 : BONDED ls1 = 1).
    { destruct Hk1 as (_ & _ & _ & Hbb & _). congruence. }
    destruct (IH _ _ _ _ Hn2 Hrun Hl1 Hb1) as (ls' & Hl' & Hk').
    exists ls'. split; [exact Hl'|].
    eapply record_kept_trans; eassumption.
Qed.
End RecordsOverCalls.

(** ** Commit, reveal and refund happen once per record *)

Lemma release_bond_wf (a : bytes) (ev : N -> Event) (st st' : State) :
  records_wf st -> release_bond a ev st = Ok st' -> records_wf st'.
Proof.
  intros Hwf Hrel.
  apply release_bond_Ok in Hrel as (ls & Hls & [[Hpos ->] | [_ ->]]);
    [|exact Hwf].
  intros b ls' Hl. simpl in Hl.
  destruct (decide (a = b)) as [<- | Hne].
  - rewrite lookup_insert_eq in Hl. injection Hl as <-. left. simpl.
    destruct (Hwf a ls Hls) as [Hb | ->]; [exact Hb|].
    simpl in Hpos. lia.
  - rewrite lookup_insert_ne in Hl by exact Hne. eapply Hwf, Hl.
Qed.

Section OncePerRecord.
Context `{Crypto}.

Lemma run_method_wf (st st' : State) (env : Env) (m : MethodCall) :
  records_wf st -> run_method st env m = Ok st' -> records_wf st'.
Proof.
  intros Hwf Hm. destruct m; simpl in Hm.
  - apply create_Ok in Hm as (_ & g & -> & _). exact Hwf.
  - apply commit_Ok in Hm as (g & ls0 & bx & _ & _ & _ & _ & _ & _ & ->).
    intros b ls Hl. simpl in Hl.
    destruct (decide (sender env = b)) as [<- | Hne].
    + rewrite lookup_insert_eq in Hl. injection Hl as <-. left. reflexivity.
    + rewrite lookup_insert_ne in Hl by exact Hne. eapply Hwf, Hl.
  - apply reveal_for_Ok in Hm
      as (g & bidder & ls0 & ak & ? & ? & _ & _ & _ & _ & _ & _ & Hls0 & Hak
          & _ & _ & _ & _ & Hpay).
    assert (Hb0 : BONDED ls0 = 1).
    { destruct (Hwf _ _ Hls0) as [Hb | ->]; [exact Hb | discriminate]. }
    intros b ls Hl.
    destruct (decide (sender env = bidder)) as [Hs | Hs].
    + apply pay_bounty_self in Hpay; [|exact Hs]. subst st'. simpl in Hl.
      destruct (decide (bidder = b)) as [<- | Hne].
      * rewrite lookup_insert_eq in Hl. injection Hl as <-. left. exact Hb0.
      * rewrite !lookup_insert_ne in Hl by exact Hne. eapply Hwf, Hl.
    + apply pay_bounty_third in Hpay; [|exact Hs]. subst st'. simpl in Hl.
      destruct (decide (bidder = b)) as [<- | Hne].
      * rewrite lookup_insert_eq in Hl. injection Hl as <-. left. exact Hb0.
      * rewrite !lookup_insert_ne in Hl by exact Hne. eapply Hwf, Hl.
  - apply settle_Ok in Hm as (g & _ & _ & _ & ->). exact Hwf.
  - apply finalize_win_Ok in Hm as (g & _ & _ & _ & Hrel).
    eapply release_bond_wf; [|exact Hrel]. exact Hwf.
  - apply promote_next_Ok in Hm as (g & st1 & _ & _ & _ & _ & Hrel & ->).
    pose proof (release_bond_wf _ _ _ _ Hwf Hrel) as Hwf1. exact Hwf1.
  - apply claim_refund_Ok in Hm
      as (g & ls0 & st1 & ls1 & _ & _ & Hl0 & Hrev & _ & _ & Hrel & Hls1 & ->).
    pose proof (release_bond_wf _ _ _ _ Hwf Hrel) as Hwf1.
    assert (Hb0 : BONDED ls0 = 1).
    { destruct (Hwf _ _ Hl0) as [Hb | ->]; [exact Hb | discriminate]. }
    destruct (release_bond_record _ (sender env) _ _ _ ls0 Hrel Hl0)
      as (ls' & Hl' & Hk).
    assert (ls' = ls1) by congruence. subst ls'.
    intros b ls Hl. simpl in Hl.
    destruct (decide (sender env = b)) as [<- | Hne].
    + rewrite lookup_insert_eq in Hl. injection Hl as <-. left. simpl.
      destruct Hk as (_ & _ & _ & Hbb & _). congruence.
    + rewrite lookup_insert_ne in Hl by exact Hne. eapply Hwf1, Hl.
  - apply set_kyc_Ok in Hm as (b & ->). exact Hwf.
  - apply update_Ok in Hm as ->. exact Hwf.
  - apply delete_Ok in Hm as ->. exact Hwf.
Qed.

Lemma reachable_records_wf (st : State) : reachable st -> records_wf st.
Proof.
  apply reachable_invariant.
  - intros a ls Hl. simpl in Hl. rewrite lookup_empty in Hl. discriminate.
  - intros st0 env m st' _. apply run_method_wf.
  - intros st0 a Hwf _ b ls Hl. simpl in Hl.
    destruct (decide (a = b)) as [<- | Hne].
    + rewrite lookup_insert_eq in Hl. injection Hl as <-. right. reflexivity.
    + rewrite lookup_insert_ne in Hl by exact Hne. eapply Hwf, Hl.
  - intros st0 a Hwf b ls Hl. simpl in Hl.
    destruct (decide (a = b)) as [<- | Hne].
    + rewrite lookup_delete_eq in Hl. discriminate.
    + rewrite lookup_delete_ne in Hl by exact Hne. eapply Hwf, Hl.
Qed.

(** X2.  A bidder whose [claim_refund] has succeeded cannot claim again:
    after any further calls in which the bidder neither closes out nor
    clears its state, a [claim_refund] of that bidder is never approved. *)
Theorem no_second_refund (st st1 st2 : State) (env env2 : Env)
    (cs : list (Env * AppCall)) :
  reachable st ->
  claim_refund st env = Ok st1 ->
  forallb (fun ec => negb (clears_local (sender env) ec)) cs = true ->
  apply_calls st1 cs = Ok st2 ->
  sender env2 = sender env ->
  forall st3, claim_refund st2 env2 <> Ok st3.
Proof.
  intros Hreach Hc Hnc Hrun Hs st3 Hagain.
  pose proof (reachable_records_wf _ Hreach) as Hwf.
  apply claim_refund_Ok in Hc
    as (g & ls0 & st' & ls1 & _ & _ & Hl0 & Hrev & _ & _ & Hrel & Hls1 & ->).
  assert (Hb0 : BONDED ls0 = 1).
  { destruct (Hwf _ _ Hl0) as [Hb | ->]; [exact Hb | discriminate]. }
  destruct (release_bond_record _ (sender env) _ _ _ ls0 Hrel Hl0)
    as (ls' & Hl' & Hk).
  assert (ls' = ls1) by congruence. subst ls'.
  assert (Hb1 : BONDED (with_refunded ls1) = 1).
  { simpl. destruct Hk as (_ & _ & _ & Hbb & _). congruence. }
  destruct (apply_calls_record cs _ _ (sender env) (with_refunded ls1)
              Hnc Hrun (lookup_insert_eq _ _ _) Hb1)
    as (ls2 & Hl2 & Hk2).
  destruct Hk2 as (_ & _ & _ & _ & _ & Hrf & _).
  specialize (Hrf eq_refl).
  apply claim_refund_Ok in Hagain
    as (g3 & ls3 & ? & ? & _ & _ & Hl3 & _ & _ & Hrf3 & _).
  rewrite Hs in Hl3. assert (ls3 = ls2) by congruence. subst ls3.
  rewrite Hrf in Hrf3. discriminate.
Qed.

(** X3.  A bid is revealed once: after a successful [reveal_for] of a
    bidder's commitment and any further calls in which that bidder neither
    closes out nor clears its state, no [reveal_for] whose commitment id
    names the same bidder is approved, whoever sends it and whatever bid it
    carries. *)
Theorem no_second_reveal (st st1 st2 : State) (env env2 : Env)
    (cs : list (Env * AppCall)) (bidder : bytes)
    (commit_id commit_id2 : bytes) (bid bid2 : N)
    (salt hy att salt2 hy2 att2 : bytes) :
  reachable st ->
  boxes st !! commit_id = Some bidder ->
  reveal_for st env commit_id bid salt hy att = Ok st1 ->
  forallb (fun ec => negb (clears_local bidder ec)) cs = true ->
  apply_calls st1 cs = Ok st2 ->
  boxes st2 !! commit_id2 = Some bidder ->
  forall st3, reveal_for st2 env2 commit_id2 bid2 salt2 hy2 att2 <> Ok st3.
Proof.
  intros Hreach Hbox Hr Hnc Hrun Hbox2 st3 Hagain.
  pose proof (reachable_records_wf _ Hreach) as Hwf.
  assert (Hst1 : exists ls1, locals st1 !! bidder = Some ls1
                             /\ BONDED ls1 = 1 /\ REVEALED ls1 = 1).
  { apply reveal_for_Ok in Hr
      as (g & b & ls0 & ak & ? & ? & _ & _ & _ & _ & _ & Hb & Hls0 & Hak & _
          & _ & _ & _ & Hpay).
    assert (b = bidder) by congruence. subst b.
    assert (Hb0 : BONDED ls0 = 1).
    { destruct (Hwf _ _ Hls0) as [Hbb | ->]; [exact Hbb | discriminate]. }
    destruct (decide (sender env = bidder)) as [Hs | Hs].
    - apply pay_bounty_self in Hpay; [|exact Hs]. subst st1. simpl.
      rewrite lookup_insert_eq. eexists. split; [reflexivity|]. auto.
    - apply pay_bounty_third in Hpay; [|exact Hs]. subst st1. simpl.
      rewrite lookup_insert_eq. eexists. split; [reflexivity|]. auto. }
  destruct Hst1 as (ls1 & Hl1 & Hb1 & Hrev1).
  destruct (apply_calls_record cs _ _ bidder ls1 Hnc Hrun Hl1 Hb1)
    as (ls2 & Hl2 & Hk2).
  destruct Hk2 as (_ & _ & _ & _ & Hrv & _).
  destruct (Hrv Hrev1) as [Hrev2 _].
  apply reveal_for_Ok in Hagain
    as (g3 & b3 & ls3 & ? & ? & ? & _ & _ & _ & _ & _ & Hb3 & Hls3 & _ & _
        & _ & Hrev3 & _).
  assert (b3 = bidder) by congruence. subst b3.
  assert (ls3 = ls2) by congruence. subst ls3.
  rewrite Hrev2 in Hrev3. discriminate.
Qed.

(** X4.  An account commits once per record: after a successful [commit]
    and any further calls in which the account neither closes out nor
    clears its state, no [commit] of that account is approved, with the
    same or with another hash. *)
Theorem no_second_commit (st st1 st2 : State) (env env2 : Env)
    (cs : list (Env * AppCall)) (h c_cid anon_key h2 c_cid2 anon_key2 : bytes) :
  commit st env h c_cid anon_key = Ok st1 ->
  forallb (fun ec => negb (clears_local (sender env) ec)) cs = true ->
  apply_calls st1 cs = Ok st2 ->
  sender env2 = sender env ->
  forall st3, commit st2 env2 h2 c_cid2 anon_key2 <> Ok st3.
Proof.
  intros Hc Hnc Hrun Hs st3 Hagain.
  apply commit_Ok in Hc as (g & ls0 & bx & _ & _ & _ & _ & _ & _ & ->).
  destruct (apply_calls_record cs _ _ (sender env) _ Hnc Hrun
              (lookup_insert_eq _ _ _) eq_refl)
    as (ls2 & Hl2 & Hk2).
  destruct Hk2 as (_ & _ & _ & Hbb & _). simpl in Hbb.
  apply commit_Ok in Hagain as (g3 & ls3 & ? & _ & _ & _ & Hl3 & Hb3 & _).
  rewrite Hs in Hl3. assert (ls3 = ls2) by congruence. subst ls3.
  rewrite Hbb in Hb3. discriminate.
Qed.
End OncePerRecord.

(** ** Refund, promotion and payment *)

Lemma with_remaining_same (ls : LocalState) :
  REMAINING_BOND ls = 0 -> with_remaining 0 ls = ls.
Proof. destruct ls; simpl; intros ->; reflexivity. Qed.

(** The state after [release_bond]: the account's remaining bond is zero
    and one payment of the old amount is logged unless it was already
    zero. *)
Lemma release_bond_effect (a : bytes) (ev : N -> Event) (st st' : State)
    (ls : LocalState) :
  release_bond a ev st = Ok st' ->
  locals st !! a = Some ls ->
  locals st' = <[a := with_remaining 0 ls]> (locals st)
  /\ events st'
     = (if 0 <? REMAINING_BOND ls then [ev (REMAINING_BOND ls)] else [])
       ++ events st
  /\ globals st' = globals st
  /\ boxes st' = boxes st.
Proof.
  intros Hrel Hl.
  apply release_bond_Ok in Hrel as (ls0 & Hl0 & [[Hpos ->] | [Hz ->]]);
    assert (ls0 = ls) by congruence; subst ls0.
  - apply N.ltb_lt in Hpos. rewrite Hpos. auto.
  - rewrite Hz. simpl. rewrite (with_remaining_same _ Hz).
    rewrite insert_id by exact Hl. auto.
Qed.

(** X5.  A successful [claim_refund] was sent after settlement by a
    revealed, not yet refunded account other than the winner.  It pays the
    sender exactly its [REMAINING_BOND] (no payment when that is 0), zeroes
    it and sets [REFUNDED]; global state, boxes and the records of all other
    accounts are unchanged. *)
Theorem claim_refund_effect (st st' : State) (env : Env) :
  claim_refund st env = Ok st' ->
  exists g ls,
    globals st = Some g
    /\ locals st !! sender env = Some ls
    /\ SETTLED g = 1
    /\ REVEALED ls = 1
    /\ REFUNDED ls = 0
    /\ sender env <> WINNER g
    /\ locals st'
       = <[sender env := with_refunded (with_remaining 0 ls)]> (locals st)
    /\ events st'
       = (if 0 <? REMAINING_BOND ls
          then [BondRefunded (sender env) (REMAINING_BOND ls)] else [])
         ++ events st
    /\ globals st' = globals st
    /\ boxes st' = boxes st.
Proof.
  intros Hc.
  apply claim_refund_Ok in Hc
    as (g & ls & st1 & ls1 & Hg & Hs & Hl & Hrev & Hw & Hrf & Hrel & Hl1 & ->).
  destruct (release_bond_effect _ _ _ _ _ Hrel Hl) as (Hloc & Hev & Hgl & Hbx).
  exists g, ls. repeat split; try assumption.
  simpl. rewrite Hloc in Hl1 |- *. rewrite lookup_insert_eq in Hl1.
  injection Hl1 as <-. apply insert_insert_eq.
Qed.

(** X6.  A successful [promote_next] moves the runner-up and its bid into
    first place, empties second place, sets [SETTLE_ROUND] to the current
    round, which restarts the payment window, and leaves [SETTLED] at 1 and
    every auction parameter as it was.  The replaced winner's
    [REMAINING_BOND] is paid to the seller (no payment when it is 0) and
    zeroed, the rest of its record is kept.  Right after it, another
    [promote_next] is never approved, at whatever round. *)
Theorem promote_next_effect (st st' : State) (env : Env) :
  promote_next st env = Ok st' ->
  exists g lw g',
    globals st = Some g
    /\ locals st !! WINNER g = Some lw
    /\ SETTLED g = 1
    /\ SETTLE_ROUND g + PAY_WINDOW g < round env
    /\ SECOND_WINNER g <> ""%string
    /\ globals st' = Some g'
    /\ WINNER g' = SECOND_WINNER g
    /\ WIN_BID g' = SECOND_BID g
    /\ SECOND_WINNER g' = ""%string
    /\ SECOND_BID g' = 0
    /\ SETTLE_ROUND g' = round env
    /\ SETTLED g' = 1
    /\ SELLER g' = SELLER g
    /\ ASA_QUOTE g' = ASA_QUOTE g
    /\ RESERVE g' = RESERVE g
    /\ MIN_BID g' = MIN_BID g
    /\ BOND g' = BOND g
    /\ SECOND_PRICE g' = SECOND_PRICE g
    /\ COMMIT_END g' = COMMIT_END g
    /\ UNLOCK_SLACK g' = UNLOCK_SLACK g
    /\ PAY_WINDOW g' = PAY_WINDOW g
    /\ ORACLE_PK g' = ORACLE_PK g
    /\ P_HASH g' = P_HASH g
    /\ locals st'
       = <[WINNER g :=
             {| COMMIT := COMMIT lw; C_CID := C_CID lw;
                ANON_KEY := ANON_KEY lw; BONDED := BONDED lw;
                REVEALED := REVEALED lw; BID := BID lw;
                REFUNDED := REFUNDED lw; REMAINING_BOND := 0 |}]>
           (locals st)
    /\ events st'
       = (if 0 <? REMAINING_BOND lw
          then [BondSlashed (WINNER g) (SELLER g) (REMAINING_BOND lw)]
          else [])
         ++ events st
    /\ boxes st' = boxes st
    /\ forall env2 st2, promote_next st' env2 <> Ok st2.
Proof.
  intros Hp.
  apply promote_next_Ok in Hp as (g & st1 & Hg & Hs & Hph & Hsw & Hrel & ->).
  pose proof Hrel as Hrel'.
  apply release_bond_Ok in Hrel' as (lw & Hlw & _).
  destruct (release_bond_effect _ _ _ _ _ Hrel Hlw) as (Hloc & Hev & Hgl & Hbx).
  exists g, lw. eexists.
  split; [exact Hg|]. split; [exact Hlw|]. split; [exact Hs|].
  split; [exact Hph|]. split; [exact Hsw|].
  split; [reflexivity|]. simpl.
  split; [reflexivity|]. split; [reflexivity|]. split; [reflexivity|].
  split; [reflexivity|]. split; [reflexivity|]. split; [exact Hs|].
  do 11 (split; [reflexivity|]).
  split; [exact Hloc|]. split; [exact Hev|]. split; [exact Hbx|].
  intros env2 st2 Hagain.
  apply promote_next_Ok in Hagain as (g2 & ? & Hg2 & _ & _ & Hsw2 & _).
  simpl in Hg2. injection Hg2 as <-. simpl in Hsw2. congruence.
Qed.

(** X7.  While the recorded winner has no local state (it closed out or
    cleared its state), neither [finalize_win] nor [promote_next] can be
    approved: both read the winner's [REMAINING_BOND].  Once the guards
    before that read pass, [promote_next] fails on the read itself. *)
Theorem absent_winner_blocks_settlement (st : State) (g : GlobalState) :
  globals st = Some g ->
  locals st !! WINNER g = None ->
  (forall env price st', finalize_win st env price <> Ok st')
  /\ (forall env st', promote_next st env <> Ok st')
  /\ (forall env,
        SETTLED g = 1 ->
        SETTLE_ROUND g + PAY_WINDOW g < round env ->
        SETTLE_ROUND g + PAY_WINDOW g <= uint64_max ->
        SECOND_WINNER g <> ""%string ->
        promote_next st env = Err NotOptedIn).
Proof.
  intros Hg Hnone. split; [|split].
  - intros env price st' Hf.
    apply finalize_win_Ok in Hf as (g' & Hg' & Hgu & _ & Hrel).
    assert (g' = g) by congruence. subst g'.
    unfold finalize_guards in Hgu.
    apply bind_Ok in Hgu as (? & _ & Hgu).
    apply bind_Ok in Hgu as (? & Hw & _).
    apply Assert_Ok, bytes_eqb_true in Hw.
    apply release_bond_Ok in Hrel as (ls & Hls & _).
    simpl in Hls. congruence.
  - intros env st' Hp.
    apply promote_next_Ok in Hp as (g' & st1 & Hg' & _ & _ & _ & Hrel & _).
    assert (g' = g) by congruence. subst g'.
    apply release_bond_Ok in Hrel as (ls & Hls & _). congruence.
  - intros env Hs Hph Hfit Hsw.
    unfold promote_next. rewrite (the_globals_Some _ _ Hg). simpl.
    rewrite Hs. simpl. rewrite (add64_fits _ _ Hfit). simpl.
    rewrite (Assert_true (_ <? _)) by (apply N.ltb_lt; exact Hph). simpl.
    rewrite (Assert_true (negb _))
      by (apply negb_true_iff, bytes_eqb_false; exact Hsw).
    simpl. unfold release_bond, local_of. rewrite Hnone. reflexivity.
Qed.

(** X8.  [finalize_win] records nothing about having run: after a
    successful call that paid [price] to the seller and refunded the
    winner's remaining bond, the same call is approved again, and charges
    [price] to the seller's benefit once more. *)
Theorem finalize_win_repeats (st st1 : State) (env : Env) (price : N) :
  finalize_win st env price = Ok st1 ->
  exists g lw st2,
    globals st = Some g
    /\ sender env = WINNER g
    /\ locals st !! sender env = Some lw
    /\ events st1
       = (if 0 <? REMAINING_BOND lw
          then [BondRefunded (sender env) (REMAINING_BOND lw)] else [])
         ++ PricePaid (ASA_QUOTE g) (SELLER g) price :: events st
    /\ locals st1 = <[sender env := with_remaining 0 lw]> (locals st)
    /\ globals st1 = globals st
    /\ finalize_win st1 env price = Ok st2
    /\ events st2 = PricePaid (ASA_QUOTE g) (SELLER g) price :: events st1
    /\ locals st2 = locals st1.
Proof.
  intros Hf.
  apply finalize_win_Ok in Hf as (g & Hg & Hgu & Hpr & Hrel).
  pose proof Hrel as Hrel'.
  apply release_bond_Ok in Hrel' as (lw & Hlw & _). simpl in Hlw.
  destruct (release_bond_effect _ _ _ _ _ Hrel Hlw) as (Hloc & Hev & Hgl & Hbx).
  simpl in Hloc, Hev, Hgl, Hbx.
  assert (Hw : sender env = WINNER g).
  { unfold finalize_guards in Hgu.
    apply bind_Ok in Hgu as (? & _ & Hgu).
    apply bind_Ok in Hgu as (? & Hw & _).
    apply Assert_Ok, bytes_eqb_true in Hw. exact Hw. }
  exists g, lw, (emit (PricePaid (ASA_QUOTE g) (SELLER g) price) st1).
  repeat split; try assumption.
  unfold finalize_win.
  rewrite (the_globals_Some st1 g) by congruence. simpl.
  rewrite Hgu. simpl. rewrite Hpr, N.eqb_refl. simpl.
  unfold release_bond, local_of. simpl.
  rewrite Hloc, lookup_insert_eq. simpl. reflexivity.
Qed.

(** ** The leaderboard and the auction parameters *)

Section Leaderboard.
Context `{Crypto}.

(** X9.  In a reachable state a successful [reveal_for] makes the
    leaderboard the top two of the old leaderboard and the new bid:
    [WIN_BID] becomes max(win_bid, bid) and [SECOND_BID] becomes
    max(second_bid, min(win_bid, bid)).  A bid above the winning bid makes
    the bidder the winner and the old winner the runner-up; a bid equal to
    the winning bid does not replace the winner, and a bid at or below the
    second bid changes nothing (the earlier reveal wins a tie). *)
Theorem reveal_for_leaderboard (st st' : State) (env : Env)
    (commit_id : bytes) (bid : N) (salt hy att bidder : bytes)
    (g : GlobalState) :
  reachable st ->
  globals st = Some g ->
  boxes st !! commit_id = Some bidder ->
  reveal_for st env commit_id bid salt hy att = Ok st' ->
  exists g',
    globals st' = Some g'
    /\ WIN_BID g' = N.max (WIN_BID g) bid
    /\ SECOND_BID g' = N.max (SECOND_BID g) (N.min (WIN_BID g) bid)
    /\ (WIN_BID g < bid ->
        WINNER g' = bidder /\ SECOND_WINNER g' = WINNER g)
    /\ (bid <= WIN_BID g -> WINNER g' = WINNER g)
    /\ (bid <= WIN_BID g -> SECOND_BID g < bid -> SECOND_WINNER g' = bidder)
    /\ (bid <= SECOND_BID g -> g' = g).
Proof.
  intros Hreach Hg Hbox Hr.
  pose proof (reachable_leaderboard _ Hreach g Hg) as Hord.
  apply reveal_for_Ok in Hr
    as (g0 & b & ls0 & ? & ? & ? & Hg0 & _ & _ & _ & _ & Hb & _ & _ & _ & _
        & _ & _ & Hpay).
  assert (g0 = g) by congruence. subst g0.
  assert (b = bidder) by congruence. subst b.
  apply pay_bounty_frame in Hpay as [Hgl _]. simpl in Hgl.
  exists (update_leaderboard bidder bid g). split; [exact Hgl|].
  unfold update_leaderboard.
  destruct (N.ltb_spec (WIN_BID g) bid) as [Hlt | Hge].
  - simpl. repeat split; try lia.
  - destruct (N.ltb_spec (SECOND_BID g) bid) as [Hlt2 | Hge2].
    + simpl. repeat split; try lia.
    + repeat split; try lia.
Qed.

Lemma update_leaderboard_grows (b : bytes) (bid : N) (g : GlobalState) :
  SECOND_BID g <= WIN_BID g ->
  WIN_BID g <= WIN_BID (update_leaderboard b bid g)
  /\ SECOND_BID g <= SECOND_BID (update_leaderboard b bid g).
Proof.
  intros Hord. unfold update_leaderboard.
  destruct (N.ltb_spec (WIN_BID g) bid); simpl; [lia|].
  destruct (N.ltb_spec (SECOND_BID g) bid); simpl; lia.
Qed.

(** X10.  Between two [create]s the auction parameters are constants: no
    approved call other than [create] changes the seller, the asset, the
    reserve, the minimum bid, the bond, the pricing rule, the schedule, the
    oracle key or the parameter hash, and none clears [SETTLED].  In a
    reachable state, a call that is neither [create] nor [promote_next]
    lowers neither [WIN_BID] nor [SECOND_BID]. *)
Theorem parameters_are_constant (st st' : State) (env : Env) (c : AppCall)
    (g : GlobalState) :
  reachable st ->
  globals st = Some g ->
  is_create c = false ->
  apply_call st env c = Ok st' ->
  exists g',
    globals st' = Some g'
    /\ SELLER g' = SELLER g
    /\ ASA_QUOTE g' = ASA_QUOTE g
    /\ RESERVE g' = RESERVE g
    /\ MIN_BID g' = MIN_BID g
    /\ BOND g' = BOND g
    /\ SECOND_PRICE g' = SECOND_PRICE g
    /\ COMMIT_END g' = COMMIT_END g
    /\ UNLOCK_SLACK g' = UNLOCK_SLACK g
    /\ PAY_WINDOW g' = PAY_WINDOW g
    /\ ORACLE_PK g' = ORACLE_PK g
    /\ P_HASH g' = P_HASH g
    /\ (SETTLED g = 1 -> SETTLED g' = 1)
    /\ (application_args c <> Method call_promote_next ->
        WIN_BID g <= WIN_BID g' /\ SECOND_BID g <= SECOND_BID g').
Proof.
  intros Hreach Hg Hnc Ha.
  pose proof (reachable_leaderboard _ Hreach g Hg) as Hord.
  assert (Hsame : exists g', Some g = Some g'
      /\ SELLER g' = SELLER g /\ ASA_QUOTE g' = ASA_QUOTE g
      /\ RESERVE g' = RESERVE g /\ MIN_BID g' = MIN_BID g
      /\ BOND g' = BOND g /\ SECOND_PRICE g' = SECOND_PRICE g
      /\ COMMIT_END g' = COMMIT_END g /\ UNLOCK_SLACK g' = UNLOCK_SLACK g
      /\ PAY_WINDOW g' = PAY_WINDOW g /\ ORACLE_PK g' = ORACLE_PK g
      /\ P_HASH g' = P_HASH g /\ (SETTLED g = 1 -> SETTLED g' = 1)
      /\ (application_args c <> Method call_promote_next ->
          WIN_BID g <= WIN_BID g' /\ SECOND_BID g <= SECOND_BID g')).
  { exists g. repeat split; auto; lia. }
  apply apply_call_cases_oc in Ha.
  destruct Ha as [(_ & _ & ->) | (_ & _ & [-> | [(m & Hargs & _ & _ & Hm)
                                              | (_ & _ & ->)]])];
    try (simpl; rewrite Hg; exact Hsame).
  destruct m; simpl in Hm.
  - unfold is_create in Hnc. rewrite Hargs in Hnc. discriminate.
  - apply commit_Ok in Hm as (? & ? & ? & _ & _ & _ & _ & _ & _ & ->).
    simpl. rewrite Hg. exact Hsame.
  - apply reveal_for_Ok in Hm
      as (g0 & b & ls0 & ? & ? & ? & Hg0 & _ & _ & _ & _ & _ & _ & _ & _ & _
          & _ & _ & Hpay).
    assert (g0 = g) by congruence. subst g0.
    apply pay_bounty_frame in Hpay as [Hgl _]. simpl in Hgl.
    exists (update_leaderboard b bid g). split; [exact Hgl|].
    destruct (update_leaderboard_grows b bid g Hord) as [Hw Hs].
    destruct (update_leaderboard_schedule b bid g) as (Hce & Hus & Hset).
    unfold update_leaderboard in *.
    destruct (WIN_BID g <? bid); [simpl in *; repeat split; auto|].
    destruct (SECOND_BID g <? bid); simpl in *; repeat split; auto.
  - apply settle_Ok in Hm as (g0 & Hg0 & _ & _ & ->).
    assert (g0 = g) by congruence. subst g0.
    eexists. split; [reflexivity|]. simpl. repeat split; auto; lia.
  - apply finalize_win_Ok in Hm as (g0 & _ & _ & _ & Hrel).
    apply release_bond_frame in Hrel as [Hgl _]. simpl in Hgl.
    rewrite Hgl, Hg. exact Hsame.
  - apply promote_next_Ok in Hm as (g0 & st1 & Hg0 & Hs & _ & _ & _ & ->).
    assert (g0 = g) by congruence. subst g0.
    eexists. split; [reflexivity|]. simpl. repeat split; auto.
    + rewrite Hargs in H0. congruence.
    + rewrite Hargs in H0. congruence.
  - apply claim_refund_Ok in Hm
      as (g0 & ? & st1 & ? & _ & _ & _ & _ & _ & _ & Hrel & _ & ->).
    apply release_bond_frame in Hrel as [Hgl _].
    simpl. rewrite Hgl, Hg. exact Hsame.
  - apply set_kyc_Ok in Hm as (b & ->). simpl. rewrite Hg. exact Hsame.
  - apply update_Ok in Hm as ->. rewrite Hg. exact Hsame.
  - apply delete_Ok in Hm as ->. rewrite Hg. exact Hsame.
Qed.
End Leaderboard.

(** ** Commit and reveal together *)

Section CommitReveal.
Context `{Crypto}.

(** Calls other than [create] keep the auction parameters. *)

Lemma same_parameters_refl (g : GlobalState) : same_parameters g g.
Proof. unfold same_parameters. repeat split. Qed.

Lemma same_parameters_trans (g1 g2 g3 : GlobalState) :
  same_parameters g1 g2 -> same_parameters g2 g3 -> same_parameters g1 g3.
Proof.
  unfold same_parameters.
  intros (A1 & A2 & A3 & A4 & A5 & A6 & A7 & A8 & A9 & A10 & A11)
         (B1 & B2 & B3 & B4 & B5 & B6 & B7 & B8 & B9 & B10 & B11).
  repeat split; congruence.
Qed.

Lemma update_leaderboard_parameters (b : bytes) (bid : N) (g : GlobalState) :
  same_parameters g (update_leaderboard b bid g).
Proof.
  unfold update_leaderboard, same_parameters.
  destruct (WIN_BID g <? bid); [simpl; repeat split|].
  destruct (SECOND_BID g <? bid); simpl; repeat split.
Qed.

Lemma apply_call_parameters (st st' : State) (env : Env) (c : AppCall)
    (g : GlobalState) :
  is_create c = false ->
  apply_call st env c = Ok st' ->
  globals st = Some g ->
  exists g', globals st' = Some g' /\ same_parameters g g'.
Proof.
  intros Hnc Ha Hg.
  apply apply_call_cases in Ha.
  destruct Ha as [-> | [(m & Hargs & Hm) | [[_ ->] | ->]]];
    try (exists g; split; [exact Hg | apply same_parameters_refl]).
  apply run_method_globals in Hm.
  destruct Hm as [(a & g1 & Hcr & _)
                 | [Hsame
                 | [(g1 & b & bid & Hg1 & Hgl)
                 | [(g1 & Hg1 & Hs & Hgl) | (g1 & Hg1 & Hs & Hgl)]]]].
  - unfold is_create in Hnc. rewrite Hargs, Hcr in Hnc. discriminate.
  - exists g. split; [congruence | apply same_parameters_refl].
  - assert (g1 = g) by congruence. subst g1.
    eexists. split; [exact Hgl | apply update_leaderboard_parameters].
  - assert (g1 = g) by congruence. subst g1.
    eexists. split; [exact Hgl|]. unfold same_parameters. simpl.
    repeat split.
  - assert (g1 = g) by congruence. subst g1.
    eexists. split; [exact Hgl|]. unfold same_parameters. simpl.
    repeat split.
Qed.

Lemma apply_calls_parameters (cs : list (Env * AppCall)) :
  forall st st' g,
    Forall (fun ec => is_create (snd ec) = false) cs ->
    apply_calls st cs = Ok st' ->
    globals st = Some g ->
    exists g', globals st' = Some g' /\ same_parameters g g'.
Proof.
  induction cs as [|[env c] cs IH]; intros st st' g Hnc Hrun Hg.
  - injection Hrun as <-. exists g. split; [exact Hg|].
    apply same_parameters_refl.
  - simpl in Hrun. apply bind_Ok in Hrun as (st1 & Hc & Hrun).
    inversion Hnc as [|? ? Hnc1 Hnc2]; subst.
    destruct (apply_call_parameters _ _ _ _ _ Hnc1 Hc Hg) as (g1 & Hg1 & Hk1).
    destruct (IH _ _ _ Hnc2 Hrun Hg1) as (g2 & Hg2 & Hk2).
    exists g2. split; [exact Hg2|].
    eapply same_parameters_trans; eassumption.
Qed.

(** X11.  A commitment can be opened, also after other calls.  Take a
    successful [commit] of the hash of
    Itob(bid) ‖ salt ‖ anon_key ‖ Itob(application id), followed by any
    approved calls among which is no [create] and no close-out or
    clear-state of the bidder.  As long as the box of that hash still names
    the bidder (it no longer does once another account has committed the
    same hash, see C3) and the bid is not revealed yet, a [reveal_for] of
    that hash with the same bid and salt, in the reveal window, with a
    valid attestation and a bid of at least [MIN_BID], is approved and
    records the bid, provided the call is the bidder's own or 70 times the
    bond fits a uint64. *)
Theorem commit_then_reveal (st st1 st2 : State) (g : GlobalState)
    (envc envr : Env) (cs : list (Env * AppCall)) (bid : N)
    (salt anon_key c_cid hy att : bytes) :
  globals st = Some g ->
  commit st envc
    (Sha256 (commitment_preimage bid salt anon_key
               (current_application_id envr)))
    c_cid anon_key = Ok st1 ->
  Forall (fun ec => is_create (snd ec) = false) cs ->
  forallb (fun ec => negb (clears_local (sender envc) ec)) cs = true ->
  apply_calls st1 cs = Ok st2 ->
  boxes st2 !! Sha256 (commitment_preimage bid salt anon_key
                         (current_application_id envr))
  = Some (sender envc) ->
  (forall ls, locals st2 !! sender envc = Some ls -> REVEALED ls = 0) ->
  reveal_phase g envr = Ok tt ->
  len att = 64 ->
  (exists msg, attestation_msg g envr hy = Ok msg
               /\ Ed25519Verify_Bare msg att (ORACLE_PK g) = true) ->
  MIN_BID g <= bid ->
  (sender envr = sender envc \/ BOND g * 70 <= uint64_max) ->
  exists st3 ls3,
    reveal_for st2 envr
      (Sha256 (commitment_preimage bid salt anon_key
                 (current_application_id envr)))
      bid salt hy att = Ok st3
    /\ locals st3 !! sender envc = Some ls3
    /\ REVEALED ls3 = 1
    /\ BID ls3 = bid.
Proof.
  intros Hg Hc Hncr Hncl Hrun Hbox Hunrev Hphase Hlen (msg & Hmsg & Hver)
         Hmin Hwho.
  apply commit_Ok in Hc as (g0 & ls0 & bx & Hg0 & _ & _ & _ & _ & _ & ->).
  assert (g0 = g) by congruence. subst g0.
  destruct (apply_calls_record cs _ _ (sender envc) _ Hncl Hrun
              (lookup_insert_eq _ _ _) eq_refl)
    as (ls2 & Hl2 & Kc & _ & Ka & _ & _ & _ & Kr).
  simpl in Kc, Ka, Kr.
  destruct (apply_calls_parameters cs _ _ g Hncr Hrun Hg)
    as (g2 & Hg2 & _ & _ & _ & Pmin & _ & _ & Pce & Pus & _ & Ppk & Pph).
  pose proof (Hunrev _ Hl2) as Hrev.
  assert (Hphase2 : reveal_phase g2 envr = Ok tt).
  { unfold reveal_phase in *. rewrite Pce, Pus. exact Hphase. }
  assert (Hmsg2 : attestation_msg g2 envr hy = Ok msg).
  { unfold attestation_msg in *. rewrite Pce, Pus, Pph. exact Hmsg. }
  unfold reveal_for. rewrite (the_globals_Some _ _ Hg2). simpl.
  rewrite Hphase2. simpl.
  unfold reveal_body. rewrite Hlen. simpl. rewrite Hmsg2. simpl.
  rewrite Ppk, Hver. simpl. rewrite Hbox.
  unfold local_of. rewrite Hl2. simpl. rewrite Ka, Kc. simpl.
  rewrite bytes_eqb_refl. simpl. rewrite Hrev. simpl.
  rewrite (Assert_true (MIN_BID g2 <=? bid))
    by (apply N.leb_le; rewrite Pmin; exact Hmin).
  simpl. unfold pay_bounty. simpl.
  destruct (bytes_eqb (sender envr) (sender envc)) eqn:Hself.
  - eexists. eexists. split; [reflexivity|]. simpl.
    rewrite lookup_insert_eq. auto.
  - destruct Hwho as [Hs | Hfit].
    { apply bytes_eqb_false in Hself. contradiction. }
    unfold mul64.
    assert (Hfit70 : (REMAINING_BOND ls2 * 70 <=? uint64_max) = true)
      by (apply N.leb_le; lia).
    assert (Hfit30 : (REMAINING_BOND ls2 * 30 <=? uint64_max) = true)
      by (apply N.leb_le; lia).
    rewrite Hfit70. simpl. rewrite Hfit30. simpl.
    eexists. eexists. split; [reflexivity|]. simpl.
    rewrite lookup_insert_eq. auto.
Qed.

(** X12.  The bounty is computed as bond*70 before the division by 100,
    and a uint64 multiplication that overflows fails the call: a bidder
    whose [REMAINING_BOND] exceeds (2^64-1)/70 cannot be revealed by a third
    party at all. *)
Theorem large_bond_needs_self_reveal (st : State) (env : Env)
    (commit_id : bytes) (bid : N) (salt hy att bidder : bytes)
    (ls : LocalState) :
  boxes st !! commit_id = Some bidder ->
  locals st !! bidder = Some ls ->
  uint64_max < REMAINING_BOND ls * 70 ->
  sender env <> bidder ->
  (forall st', reveal_for st env commit_id bid salt hy att <> Ok st')
  /\ (forall st0, pay_bounty bidder (with_revealed bid ls) st0 env
                  = Err Overflow).
Proof.
  intros Hbox Hl Hbig Hthird.
  assert (Hpay : forall st0, pay_bounty bidder (with_revealed bid ls) st0 env
                             = Err Overflow).
  { intros st0. unfold pay_bounty.
    apply bytes_eqb_false in Hthird. rewrite Hthird. simpl.
    unfold mul64.
    rewrite (proj2 (N.leb_gt _ _) Hbig). reflexivity. }
  split; [|exact Hpay].
  intros st' Hr.
  apply reveal_for_Ok in Hr
    as (g & b & ls0 & ? & ? & ? & _ & _ & _ & _ & _ & Hb & Hl0 & _ & _ & _
        & _ & _ & Hp).
  assert (b = bidder) by congruence. subst b.
  assert (ls0 = ls) by congruence. subst ls0.
  rewrite Hpay in Hp. discriminate.
Qed.
End CommitReveal.

(** ** The allowlist *)

(** X13.  [set_kyc] is approved only for the seller and only before
    [COMMIT_END]; it writes the 8-byte encoding of the flag into the box
    "KYC:" ‖ address, from which [Btoi] reads the flag back, and changes
    nothing else. *)
Theorem set_kyc_effect (st st' : State) (env : Env) (addr : bytes)
    (value : N) :
  set_kyc st env addr value = Ok st' ->
  value <= 255 ->
  exists g,
    globals st = Some g
    /\ sender env = SELLER g
    /\ round env < COMMIT_END g
    /\ boxes st' = <[KYC_PREFIX +:+ addr := Itob value]> (boxes st)
    /\ Btoi <$> (boxes st' !! (KYC_PREFIX +:+ addr)) = Some value
    /\ globals st' = globals st
    /\ locals st' = locals st
    /\ events st' = events st.
Proof.
  unfold set_kyc. intros Hk Hv.
  apply bind_Ok in Hk as (g & Hg & Hk). apply the_globals_Ok in Hg.
  apply bind_Ok in Hk as (? & Hs & Hk). apply Assert_Ok, bytes_eqb_true in Hs.
  apply bind_Ok in Hk as (? & Hph & Hk). apply Assert_Ok, N.ltb_lt in Hph.
  apply bind_Ok in Hk as (b & Hb & Hk). injection Hk as <-.
  assert (Hbx : b = <[KYC_PREFIX +:+ addr := Itob value]> (boxes st)).
  { unfold box_put in Hb.
    apply bind_Ok in Hb as (? & _ & Hb).
    destruct (boxes st !! _).
    - apply bind_Ok in Hb as (? & _ & Hb). congruence.
    - congruence. }
  exists g. simpl. repeat split; try assumption.
  rewrite Hbx, lookup_insert_eq. simpl. f_equal.
  apply Btoi_Itob. unfold uint64_max. lia.
Qed.

(** X14.  [commit] does not consult the allowlist: after the seller has
    written any flag for any address, 0 included, every [commit] that was
    approved before is still approved (for a hash other than the allowlist
    box name), with the same bidder record and the same index entry. *)
Theorem kyc_is_not_enforced (st st1 st2 : State) (envk envc : Env)
    (addr : bytes) (value : N) (h c_cid anon_key : bytes) :
  set_kyc st envk addr value = Ok st1 ->
  h <> (KYC_PREFIX +:+ addr)%string ->
  commit st envc h c_cid anon_key = Ok st2 ->
  exists st3,
    commit st1 envc h c_cid anon_key = Ok st3
    /\ locals st3 = locals st2
    /\ events st3 = events st2
    /\ globals st3 = globals st2
    /\ boxes st3 !! h = Some (sender envc)
    /\ boxes st3 = <[KYC_PREFIX +:+ addr := Itob value]> (boxes st2).
Proof.
  unfold set_kyc. intros Hk Hne Hc.
  apply bind_Ok in Hk as (g & Hg & Hk).
  apply bind_Ok in Hk as (? & _ & Hk).
  apply bind_Ok in Hk as (? & _ & Hk).
  apply bind_Ok in Hk as (b & Hb & Hk). injection Hk as <-.
  assert (Hbx : b = <[KYC_PREFIX +:+ addr := Itob value]> (boxes st)).
  { unfold box_put in Hb.
    apply bind_Ok in Hb as (? & _ & Hb).
    destruct (boxes st !! _).
    - apply bind_Ok in Hb as (? & _ & Hb). congruence.
    - congruence. }
  subst b.
  unfold commit, the_globals in Hc |- *. simpl in Hc |- *.
  destruct (globals st) as [g0|]; [|discriminate]. simpl in Hc |- *.
  repeat match type of Hc with
         | (Assert ?b ?e ≫= _) = Ok _ =>
             destruct b; simpl in Hc |- *; [|discriminate]
         end.
  unfold local_of in Hc |- *. simpl.
  destruct (locals st !! sender envc) as [ls|]; [|discriminate].
  simpl in Hc |- *.
  destruct (BONDED ls =? 0); simpl in Hc |- *; [|discriminate].
  unfold box_put in Hc |- *.
  destruct ((1 <=? len h) && (len h <=? 64)); simpl in Hc |- *;
    [|discriminate].
  rewrite lookup_insert_ne by congruence.
  destruct (boxes st !! h) as [old|].
  - destruct (len old =? len (sender envc)); simpl in Hc |- *;
      [|discriminate].
    injection Hc as <-. eexists. split; [reflexivity|]. simpl.
    repeat split.
    + apply lookup_insert_eq.
    + apply insert_insert_ne. congruence.
  - injection Hc as <-. eexists. split; [reflexivity|]. simpl.
    repeat split.
    + apply lookup_insert_eq.
    + apply insert_insert_ne. congruence.
Qed.

(** ** Routing *)

Section Routing.
Context `{Crypto}.

(** X15.  An approved call is either a no-op call to the existing
    application that selects a method, whose body has run, or it leaves
    global state, boxes and the payment log alone and touches at most the
    sender's own local state.  So no method body runs on the creation
    transaction or together with an opt-in, close-out, clear-state, update
    or delete. *)
Theorem router_dispatch (st st' : State) (env : Env) (c : AppCall) :
  apply_call st env c = Ok st' ->
  (on_completion c = NoOp
   /\ application_id c <> 0
   /\ exists m, application_args c = Method m
                /\ run_method st env m = Ok st')
  \/ (globals st' = globals st
      /\ boxes st' = boxes st
      /\ events st' = events st
      /\ forall a, a <> sender env -> locals st' !! a = locals st !! a).
Proof.
  intros Ha. apply apply_call_cases_oc in Ha.
  destruct Ha as [(_ & _ & ->) | (_ & _ & [-> | [(m & Hargs & Hoc & Hid & Hm)
                                              | (_ & _ & ->)]])].
  - right. simpl. repeat split; auto.
    intros a Hne. apply lookup_delete_ne. congruence.
  - right. auto.
  - left. eauto.
  - right. simpl. repeat split; auto.
    intros a Hne. apply lookup_insert_ne. congruence.
Qed.

(** X16.  Closing out or clearing state is approved for every account and
    pays nothing: the record is deleted with whatever [REMAINING_BOND] it
    held, no payment is logged, and a [claim_refund] of that account is no
    longer approved. *)
Theorem close_out_forfeits_bond (st : State) (env : Env) (c : AppCall) :
  application_args c = NoArgs ->
  application_id c <> 0 ->
  on_completion c = CloseOut \/ on_completion c = ClearState ->
  is_Some (locals st !! sender env) ->
  apply_call st env c = Ok (drop_local (sender env) st)
  /\ events (drop_local (sender env) st) = events st
  /\ locals (drop_local (sender env) st) !! sender env = None
  /\ forall env2 st2,
       sender env2 = sender env ->
       claim_refund (drop_local (sender env) st) env2 <> Ok st2.
Proof.
  intros Hargs Hid Hoc [ls Hl]. split; [|split; [reflexivity|split]].
  - unfold apply_call, approval_program. rewrite Hargs.
    assert (Hne : negb (application_id c =? 0) = true).
    { apply negb_true_iff, N.eqb_neq, Hid. }
    destruct Hoc as [-> | ->]; simpl.
    + rewrite Hne. simpl. unfold local_of. rewrite Hl. reflexivity.
    + unfold local_of. rewrite Hl. reflexivity.
  - simpl. apply lookup_delete_eq.
  - intros env2 st2 Hs Hc.
    apply claim_refund_Ok in Hc as (? & ls2 & ? & ? & _ & _ & Hl2 & _).
    simpl in Hl2. rewrite Hs, lookup_delete_eq in Hl2. discriminate.
Qed.
End Routing.

(** ** Phases *)

Lemma commit_phase (st : State) (g : GlobalState) (env : Env)
    (h c_cid anon_key : bytes) :
  globals st = Some g ->
  COMMIT_END g <= round env ->
  commit st env h c_cid anon_key = Err PhaseViolation.
Proof.
  intros Hg Hlate. unfold commit. rewrite (the_globals_Some _ _ Hg). simpl.
  rewrite (Assert_false (round env <? _)) by (apply N.ltb_ge; exact Hlate).
  reflexivity.
Qed.

Lemma settle_phase (st : State) (g : GlobalState) (env : Env) :
  globals st = Some g ->
  COMMIT_END g + UNLOCK_SLACK g <= uint64_max ->
  round env < COMMIT_END g + UNLOCK_SLACK g ->
  settle st env = Err PhaseViolation.
Proof.
  intros Hg Hfit Hearly. unfold settle.
  rewrite (the_globals_Some _ _ Hg). simpl.
  rewrite (add64_fits _ _ Hfit). simpl.
  rewrite (Assert_false (_ <=? _)) by (apply N.leb_gt; exact Hearly).
  reflexivity.
Qed.

Section Phases.
Context `{Crypto}.

Lemma reveal_phase_closed (st : State) (g : GlobalState) (env : Env)
    (commit_id : bytes) (bid : N) (salt hy att : bytes) :
  globals st = Some g ->
  COMMIT_END g + UNLOCK_SLACK g <= uint64_max ->
  round env < COMMIT_END g \/ COMMIT_END g + UNLOCK_SLACK g <= round env ->
  reveal_for st env commit_id bid salt hy att = Err PhaseViolation.
Proof.
  intros Hg Hfit Hout. unfold reveal_for.
  rewrite (the_globals_Some _ _ Hg). simpl. unfold reveal_phase.
  destruct (N.leb_spec (COMMIT_END g) (round env)) as [Hle | Hgt].
  - simpl. rewrite (add64_fits _ _ Hfit). simpl.
    rewrite (Assert_false (round env <? _)) by (apply N.ltb_ge; lia).
    reflexivity.
  - reflexivity.
Qed.

(** X17.  When the end of the reveal window fits a uint64, the clock is at
    every round in exactly one of three phases.  Before [COMMIT_END],
    [reveal_for] and [settle] fail with [PhaseViolation]; from [COMMIT_END]
    to before [COMMIT_END] + [UNLOCK_SLACK], [commit] and [settle] do and the
    phase guard of [reveal_for] passes; from then on, [commit] and
    [reveal_for] do. *)
Theorem phases_partition (st : State) (g : GlobalState) (env : Env) :
  globals st = Some g ->
  COMMIT_END g + UNLOCK_SLACK g <= uint64_max ->
  (round env < COMMIT_END g ->
   (forall commit_id bid salt hy att,
      reveal_for st env commit_id bid salt hy att = Err PhaseViolation)
   /\ settle st env = Err PhaseViolation)
  /\ (COMMIT_END g <= round env < COMMIT_END g + UNLOCK_SLACK g ->
      (forall h c_cid anon_key,
         commit st env h c_cid anon_key = Err PhaseViolation)
      /\ settle st env = Err PhaseViolation
      /\ reveal_phase g env = Ok tt)
  /\ (COMMIT_END g + UNLOCK_SLACK g <= round env ->
      (forall h c_cid anon_key,
         commit st env h c_cid anon_key = Err PhaseViolation)
      /\ (forall commit_id bid salt hy att,
            reveal_for st env commit_id bid salt hy att = Err PhaseViolation)).
Proof.
  intros Hg Hfit. split; [|split].
  - intros Hearly. split.
    + intros. apply (reveal_phase_closed _ g); auto.
    + apply (settle_phase _ g); auto. lia.
  - intros [Hle Hlt]. split; [|split].
    + intros. apply (commit_phase _ g); auto.
    + apply (settle_phase _ g); auto.
    + unfold reveal_phase.
      rewrite (Assert_true (_ <=? _)) by (apply N.leb_le; exact Hle).
      simpl. rewrite (add64_fits _ _ Hfit). simpl.
      apply Assert_true, N.ltb_lt, Hlt.
  - intros Hlate. split.
    + intros. apply (commit_phase _ g); auto. lia.
    + intros. apply (reveal_phase_closed _ g); auto.
Qed.

(** *** After settlement *)

Lemma settle_fits (st st' : State) (g : GlobalState) (env : Env) :
  settle st env = Ok st' ->
  globals st = Some g ->
  COMMIT_END g + UNLOCK_SLACK g <= uint64_max.
Proof.
  unfold settle. intros Hs Hg.
  rewrite (the_globals_Some _ _ Hg) in Hs. simpl in Hs.
  apply bind_Ok in Hs as (u & Hu & _). apply add64_Ok in Hu as [_ Hfit].
  exact Hfit.
Qed.

Lemma run_method_settled_inv (st st' : State) (env : Env) (m : MethodCall) :
  settled_inv st -> run_method st env m = Ok st' -> settled_inv st'.
Proof.
  intros Hinv Hm. destruct m; simpl in Hm.
  - apply create_Ok in Hm as (_ & g & -> & _ & _ & Hz & _).
    intros g' Hg' Hs'. simpl in Hg'. injection Hg' as <-.
    rewrite Hz in Hs'. discriminate.
  - apply commit_Ok in Hm as (? & ? & ? & _ & _ & _ & _ & _ & _ & ->).
    exact Hinv.
  - apply reveal_for_Ok in Hm
      as (g & b & ? & ? & ? & ? & Hg & _ & _ & _ & _ & _ & _ & _ & _ & _ & _
          & _ & Hpay).
    apply pay_bounty_frame in Hpay as [Hgl _]. simpl in Hgl.
    intros g' Hg' Hs'. rewrite Hgl in Hg'. injection Hg' as <-.
    assert (Hsame : COMMIT_END (update_leaderboard b bid g) = COMMIT_END g
                    /\ UNLOCK_SLACK (update_leaderboard b bid g)
                       = UNLOCK_SLACK g
                    /\ SETTLE_ROUND (update_leaderboard b bid g)
                       = SETTLE_ROUND g
                    /\ SETTLED (update_leaderboard b bid g) = SETTLED g).
    { unfold update_leaderboard. destruct (WIN_BID g <? bid); [auto|].
      destruct (SECOND_BID g <? bid); auto. }
    destruct Hsame as (-> & -> & -> & Hse).
    apply Hinv; [exact Hg | congruence].
  - pose proof Hm as Hm'.
    apply settle_Ok in Hm as (g & Hg & _ & Hph & ->).
    pose proof (settle_fits _ _ _ _ Hm' Hg) as Hfit.
    intros g' Hg' _. simpl in Hg'. injection Hg' as <-. simpl. auto.
  - apply finalize_win_Ok in Hm as (g & _ & _ & _ & Hrel).
    apply release_bond_frame in Hrel as [Hgl _]. simpl in Hgl.
    intros g' Hg'. apply Hinv. congruence.
  - apply promote_next_Ok in Hm as (g & st1 & Hg & Hs & Hph & _ & _ & ->).
    intros g' Hg' _. simpl in Hg'. injection Hg' as <-. simpl.
    destruct (Hinv g Hg Hs) as [Hle Hfit]. split; [lia | exact Hfit].
  - apply claim_refund_Ok in Hm
      as (g & ? & st1 & ? & _ & _ & _ & _ & _ & _ & Hrel & _ & ->).
    apply release_bond_frame in Hrel as [Hgl _].
    intros g' Hg'. simpl in Hg'. apply Hinv. congruence.
  - apply set_kyc_Ok in Hm as (b & ->). exact Hinv.
  - apply update_Ok in Hm as ->. exact Hinv.
  - apply delete_Ok in Hm as ->. exact Hinv.
Qed.

Lemma reachable_settled_inv (st : State) : reachable st -> settled_inv st.
Proof.
  apply reachable_invariant.
  - intros g Hg. discriminate.
  - intros st0 env m st' _. apply run_method_settled_inv.
  - intros st0 a Hinv _. exact Hinv.
  - intros st0 a Hinv. exact Hinv.
Qed.

Lemma closed_after_settlement (st : State) (g : GlobalState) (env : Env) :
  reachable st ->
  globals st = Some g ->
  SETTLED g = 1 ->
  SETTLE_ROUND g <= round env ->
  (forall h c_cid anon_key,
     commit st env h c_cid anon_key = Err PhaseViolation)
  /\ (forall commit_id bid salt hy att,
        reveal_for st env commit_id bid salt hy att = Err PhaseViolation)
  /\ settle st env = Err AlreadySettled
  /\ (forall addr value st', set_kyc st env addr value <> Ok st').
Proof.
  intros Hreach Hg Hs Hround.
  destruct (reachable_settled_inv _ Hreach g Hg Hs) as [Hle Hfit].
  split; [|split; [|split]].
  - intros. apply (commit_phase _ g); auto. lia.
  - intros. apply (reveal_phase_closed _ g); auto. right. lia.
  - unfold settle. rewrite (the_globals_Some _ _ Hg). simpl.
    rewrite (add64_fits _ _ Hfit). simpl.
    rewrite (Assert_true (_ <=? _)) by (apply N.leb_le; lia).
    simpl. rewrite Hs. reflexivity.
  - intros addr value st' Hk. unfold set_kyc in Hk.
    rewrite (the_globals_Some _ _ Hg) in Hk. simpl in Hk.
    apply bind_Ok in Hk as (? & _ & Hk).
    apply bind_Ok in Hk as (? & Hph & _).
    apply Assert_Ok, N.ltb_lt in Hph. lia.
Qed.

(** X18.  Settlement closes the bidding.  In a reachable settled state, at
    any round not before the recorded [SETTLE_ROUND], [commit] and
    [reveal_for] fail with [PhaseViolation], [settle] fails with
    [AlreadySettled], and [set_kyc] is not approved. *)
Theorem settlement_closes_bidding (st : State) (g : GlobalState) (env : Env) :
  reachable st ->
  globals st = Some g ->
  SETTLED g = 1 ->
  SETTLE_ROUND g <= round env ->
  (forall h c_cid anon_key,
     commit st env h c_cid anon_key = Err PhaseViolation)
  /\ (forall commit_id bid salt hy att,
        reveal_for st env commit_id bid salt hy att = Err PhaseViolation)
  /\ settle st env = Err AlreadySettled
  /\ (forall addr value st', set_kyc st env addr value <> Ok st').
Proof. apply closed_after_settlement. Qed.

(** X19.  Paying and promoting exclude each other: in no state and at no
    round are a [finalize_win] and a [promote_next] both approved.  When
    [finalize_win] is approved, [promote_next] fails with
    [PhaseViolation]. *)
Theorem finalize_excludes_promote (st st' : State) (env : Env) (price : N) :
  finalize_win st env price = Ok st' ->
  promote_next st env = Err PhaseViolation
  /\ forall st2, promote_next st env <> Ok st2.
Proof.
  intros Hf.
  apply finalize_win_Ok in Hf as (g & Hg & Hgu & _).
  unfold finalize_guards in Hgu.
  apply bind_Ok in Hgu as (? & Hs & Hgu).
  apply bind_Ok in Hgu as (? & _ & Hgu).
  apply bind_Ok in Hgu as (d & Hd & Hgu).
  apply bind_Ok in Hgu as (? & Hph & _).
  apply Assert_Ok, N.leb_le in Hph.
  assert (Hp : promote_next st env = Err PhaseViolation).
  { unfold promote_next. rewrite (the_globals_Some _ _ Hg). simpl.
    rewrite Hs. simpl. rewrite Hd. simpl.
    rewrite (Assert_false (d <? _)) by (apply N.ltb_ge; exact Hph).
    reflexivity. }
  split; [exact Hp|]. intros st2. rewrite Hp. discriminate.
Qed.
End Phases.

(** ** The attested message *)

Lemma length_append (s t : bytes) :
  String.length (s +:+ t) = (String.length s + String.length t)%nat.
Proof. induction s as [|c s IH]; simpl; [reflexivity | rewrite IH; reflexivity]. Qed.

Lemma append_inj (s1 : bytes) : forall (s2 t1 t2 : bytes),
  String.length s1 = String.length s2 ->
  (s1 +:+ t1 = s2 +:+ t2)%string ->
  s1 = s2 /\ t1 = t2.
Proof.
  induction s1 as [|c s1 IH]; intros [|c2 s2] t1 t2 Hlen Heq;
    simpl in *; try discriminate.
  - auto.
  - injection Hlen as Hlen. injection Heq as -> Heq.
    destruct (IH _ _ _ Hlen Heq) as [-> ->]. auto.
Qed.

Lemma Ok_inj {A} (a b : A) : Ok a = Ok b -> a = b.
Proof. intros [= ->]. reflexivity. Qed.

Lemma Itob_inj (a b : N) :
  a <= uint64_max -> b <= uint64_max -> Itob a = Itob b -> a = b.
Proof.
  intros Ha Hb Heq.
  rewrite <- (Btoi_Itob a Ha), <- (Btoi_Itob b Hb), Heq. reflexivity.
Qed.

(** X20.  The message the oracle signs determines the call it was signed
    for: if [reveal_for] builds the same message in two environments of one
    auction, then the application id, the hybrid parameter and the round
    are the same (ids and rounds being uint64s).  An attestation for one
    round or one application is therefore a signature over a different
    message at any other. *)
Theorem attestation_binds_call (g : GlobalState) (env env' : Env)
    (hy hy' msg : bytes) :
  attestation_msg g env hy = Ok msg ->
  attestation_msg g env' hy' = Ok msg ->
  current_application_id env <= uint64_max ->
  current_application_id env' <= uint64_max ->
  round env <= uint64_max ->
  round env' <= uint64_max ->
  current_application_id env = current_application_id env'
  /\ hy = hy'
  /\ round env = round env'.
Proof.
  unfold attestation_msg. intros H1 H2 Hi Hi' Hr Hr'.
  apply bind_Ok in H1 as (u & Hu & H1).
  apply bind_Ok in H2 as (u' & Hu' & H2).
  assert (u' = u) by congruence. subst u'.
  rewrite <- H2 in H1. clear H2 Hu Hu'.
  apply Ok_inj in H1.
  apply append_inj in H1 as [_ H1]; [|reflexivity].
  apply append_inj in H1 as [Hid H1]; [|rewrite !Itob_length; reflexivity].
  apply Itob_inj in Hid; [|assumption..].
  assert (Hlen : String.length hy = String.length hy').
  { apply (f_equal String.length) in H1.
    rewrite !length_append, !Itob_length in H1. lia. }
  apply append_inj in H1 as [Hhy H1]; [|exact Hlen].
  apply append_inj in H1 as [Hrd _]; [|rewrite !Itob_length; reflexivity].
  apply Itob_inj in Hrd; [|assumption..].
  auto.
Qed.

(** ** The escrow *)

Lemma held_comm (j1 j2 : string) (z1 z2 : LocalState) (y : N) :
  REMAINING_BOND z1 + (REMAINING_BOND z2 + y)
  = REMAINING_BOND z2 + (REMAINING_BOND z1 + y).
Proof. lia. Qed.

Lemma held_insert_new (a : bytes) (ls : LocalState)
    (m : gmap string LocalState) :
  m !! a = None -> held (<[a := ls]> m) = REMAINING_BOND ls + held m.
Proof.
  intros Hnone. unfold held.
  rewrite map_fold_insert_L; [reflexivity | | exact Hnone].
  intros. apply held_comm; assumption.
Qed.

Lemma held_lookup (a : bytes) (ls : LocalState) (m : gmap string LocalState) :
  m !! a = Some ls -> held m = REMAINING_BOND ls + held (base.delete a m).
Proof.
  intros Hl. unfold held.
  rewrite (map_fold_delete_L _ _ a ls m); [reflexivity | | exact Hl].
  intros. apply held_comm; assumption.
Qed.

Lemma held_insert (a : bytes) (ls ls' : LocalState)
    (m : gmap string LocalState) :
  m !! a = Some ls ->
  held (<[a := ls']> m) + REMAINING_BOND ls = held m + REMAINING_BOND ls'.
Proof.
  intros Hl. rewrite (held_lookup a ls m Hl).
  rewrite <- (insert_delete_eq m a ls').
  rewrite held_insert_new by apply lookup_delete_eq. lia.
Qed.

Lemma total_cons (f : Event -> N) (ev : Event) (evs : list Event) :
  total f (ev :: evs) = f ev + total f evs.
Proof. reflexivity. Qed.

Lemma release_bond_escrow (a : bytes) (ev : N -> Event) (st st' : State) :
  (forall n, bond_out (ev n) = n /\ bond_in (ev n) = 0) ->
  escrow_inv st -> release_bond a ev st = Ok st' -> escrow_inv st'.
Proof.
  intros Hev Hinv Hrel. pose proof Hrel as Hrel'.
  apply release_bond_Ok in Hrel' as (ls & Hl & _).
  destruct (release_bond_effect _ _ _ _ _ Hrel Hl) as (Hloc & Hevs & _ & _).
  unfold escrow_inv in *. rewrite Hloc, Hevs.
  pose proof (held_insert a ls (with_remaining 0 ls) _ Hl) as Hh.
  simpl in Hh.
  destruct (N.ltb_spec 0 (REMAINING_BOND ls)) as [Hpos | Hpos].
  - change ([ev (REMAINING_BOND ls)] ++ events st)
      with (ev (REMAINING_BOND ls) :: events st).
    rewrite !total_cons.
    destruct (Hev (REMAINING_BOND ls)) as [-> ->]. lia.
  - change ([] ++ events st) with (events st). lia.
Qed.

Section Escrow.
Context `{Crypto}.

Lemma run_method_escrow (st st' : State) (env : Env) (m : MethodCall) :
  records_wf st -> escrow_inv st -> run_method st env m = Ok st' ->
  escrow_inv st'.
Proof.
  intros Hwf Hinv Hm. destruct m; simpl in Hm.
  - apply create_Ok in Hm as (_ & g & -> & _). exact Hinv.
  - apply commit_Ok in Hm as (g & ls0 & bx & _ & _ & _ & Hl0 & Hb0 & _ & ->).
    unfold escrow_inv, total in *. simpl.
    pose proof (held_insert (sender env) ls0
                  {| COMMIT := Some h; C_CID := Some c_cid;
                     ANON_KEY := Some anon_key; BONDED := 1; REVEALED := 0;
                     BID := 0; REFUNDED := 0; REMAINING_BOND := BOND g |}
                  _ Hl0) as Hh.
    simpl in Hh.
    assert (Hz : REMAINING_BOND ls0 = 0).
    { destruct (Hwf _ _ Hl0) as [Hb | ->]; [|reflexivity].
      rewrite Hb in Hb0. discriminate. }
    lia.
  - apply reveal_for_Ok in Hm
      as (g & bidder & ls0 & ? & ? & ? & _ & _ & _ & _ & _ & _ & Hl0 & _ & _
          & _ & _ & _ & Hpay).
    unfold escrow_inv in *.
    destruct (decide (sender env = bidder)) as [Hs | Hs].
    + apply pay_bounty_self in Hpay; [|exact Hs]. subst st'. simpl.
      rewrite insert_insert_eq.
      pose proof (held_insert bidder ls0 (with_revealed bid ls0) _ Hl0) as Hh.
      simpl in Hh. lia.
    + apply pay_bounty_third in Hpay; [|exact Hs]. subst st'. simpl.
      rewrite insert_insert_eq. unfold total in *. simpl.
      pose proof (held_insert bidder ls0
                    (with_remaining (REMAINING_BOND ls0 * 30 / 100)
                       (with_revealed bid ls0)) _ Hl0) as Hh.
      simpl in Hh.
      pose proof (split_70_30 (REMAINING_BOND ls0)) as Hsplit.
      revert Hh Hsplit.
      generalize (REMAINING_BOND ls0 * 70 / 100).
      generalize (REMAINING_BOND ls0 * 30 / 100).
      destruct (REMAINING_BOND ls0 mod 10 =? 0); intros; lia.
  - apply settle_Ok in Hm as (g & _ & _ & _ & ->). exact Hinv.
  - apply finalize_win_Ok in Hm as (g & _ & _ & _ & Hrel).
    eapply release_bond_escrow; [| |exact Hrel].
    + intros n. simpl. auto.
    + exact Hinv.
  - apply promote_next_Ok in Hm as (g & st1 & _ & _ & _ & _ & Hrel & ->).
    assert (Hinv1 : escrow_inv st1).
    { eapply release_bond_escrow; [|exact Hinv|exact Hrel].
      intros n. simpl. auto. }
    exact Hinv1.
  - apply claim_refund_Ok in Hm
      as (g & ls & st1 & ls1 & _ & _ & _ & _ & _ & _ & Hrel & Hl1 & ->).
    assert (Hinv1 : escrow_inv st1).
    { eapply release_bond_escrow; [|exact Hinv|exact Hrel].
      intros n. simpl. auto. }
    unfold escrow_inv in *. simpl.
    pose proof (held_insert (sender env) ls1 (with_refunded ls1) _ Hl1) as Hh.
    simpl in Hh. lia.
  - apply set_kyc_Ok in Hm as (b & ->). exact Hinv.
  - apply update_Ok in Hm as ->. exact Hinv.
  - apply delete_Ok in Hm as ->. exact Hinv.
Qed.

Lemma reachable_escrow (st : State) : reachable st -> escrow_inv st.
Proof.
  apply reachable_invariant.
  - unfold escrow_inv, held. simpl. rewrite map_fold_empty. reflexivity.
  - intros st0 env m st' Hreach. apply run_method_escrow.
    apply reachable_records_wf, Hreach.
  - intros st0 a Hinv Hnone. unfold escrow_inv in *. simpl.
    rewrite (held_insert_new _ _ _ Hnone). simpl. exact Hinv.
  - intros st0 a Hinv. unfold escrow_inv in *. simpl.
    destruct (locals st0 !! a) as [ls|] eqn:Hl.
    + rewrite (held_lookup a ls _ Hl) in Hinv. lia.
    + rewrite delete_id by exact Hl. exact Hinv.
Qed.

(** X21.  The escrow is solvent in bond money: in every reachable state,
    what the contract has paid out of bonds (bounties, refunds, slashes)
    plus what it still owes as [REMAINING_BOND] over all records is at most
    what was posted as bonds. *)
Theorem escrow_is_solvent (st : State) :
  reachable st ->
  total bond_out (events st) + held (locals st) <= total bond_in (events st).
Proof. intros Hreach. apply reachable_escrow, Hreach. Qed.
End Escrow.

(** ** Bonds that do not move *)

Section BondsAtRest.
Context `{Crypto}.

(** X22.  A bidder who reveals its own bid keeps the whole bond: the call
    logs no payment and leaves [REMAINING_BOND] as it was; it only marks the
    record revealed and stores the bid. *)
Theorem self_reveal_keeps_bond (st st' : State) (env : Env)
    (commit_id : bytes) (bid : N) (salt hy att : bytes) (ls : LocalState) :
  reveal_for st env commit_id bid salt hy att = Ok st' ->
  boxes st !! commit_id = Some (sender env) ->
  locals st !! sender env = Some ls ->
  events st' = events st
  /\ locals st' = <[sender env := with_revealed bid ls]> (locals st)
  /\ REMAINING_BOND (with_revealed bid ls) = REMAINING_BOND ls
  /\ boxes st' = boxes st.
Proof.
  intros Hr Hbox Hl.
  apply reveal_for_Ok in Hr
    as (g & b & ls0 & ? & ? & ? & _ & _ & _ & _ & _ & Hb & Hl0 & _ & _ & _
        & _ & _ & Hpay).
  assert (b = sender env) by congruence. subst b.
  assert (ls0 = ls) by congruence. subst ls0.
  apply pay_bounty_self in Hpay; [|reflexivity]. subst st'. simpl.
  rewrite insert_insert_eq. auto.
Qed.

(** X23.  After settlement the bond of a bidder who has not revealed is
    out of reach: in a reachable settled state, at a round not before
    [SETTLE_ROUND], no method other than [create] changes the record of a
    bonded, unrevealed account that is not the recorded winner, and none
    logs a payment on its behalf. *)
Theorem unrevealed_bond_is_locked (st st' : State) (g : GlobalState)
    (env : Env) (m : MethodCall) (b : bytes) (ls : LocalState) :
  reachable st ->
  globals st = Some g ->
  SETTLED g = 1 ->
  SETTLE_ROUND g <= round env ->
  locals st !! b = Some ls ->
  BONDED ls = 1 ->
  REVEALED ls = 0 ->
  WINNER g <> b ->
  (forall a, m <> call_create a) ->
  run_method st env m = Ok st' ->
  locals st' !! b = Some ls
  /\ paid_out b (events st') = paid_out b (events st)
  /\ posted b (events st') = posted b (events st).
Proof.
  intros Hreach Hg Hs Hround Hl Hb Hrev Hw Hnc Hm.
  destruct (closed_after_settlement st g env Hreach Hg Hs Hround)
    as (Hcommit & Hreveal & Hsettle & Hkyc).
  assert (Hrel : forall a ev st0 st1,
            a <> b ->
            (forall n, foreign b (ev n)) ->
            locals st0 !! b = Some ls ->
            release_bond a ev st0 = Ok st1 ->
            locals st1 !! b = Some ls
            /\ paid_out b (events st1) = paid_out b (events st0)
            /\ posted b (events st1) = posted b (events st0)).
  { intros a ev st0 st1 Hne Hfor Hl0 Hr.
    apply release_bond_Ok in Hr as (la & Hla & [[_ ->] | [_ ->]]); [|auto].
    destruct (foreign_event b _ (events st0) (Hfor (REMAINING_BOND la)))
      as [Hp1 Hp2].
    split; [simpl; rewrite lookup_insert_ne by exact Hne; exact Hl0|].
    split; [exact Hp2 | exact Hp1]. }
  destruct m; simpl in Hm.
  - exfalso. eapply Hnc. reflexivity.
  - rewrite Hcommit in Hm. discriminate.
  - rewrite Hreveal in Hm. discriminate.
  - rewrite Hsettle in Hm. discriminate.
  - apply finalize_win_Ok in Hm as (g0 & Hg0 & Hgu & _ & Hr).
    assert (g0 = g) by congruence. subst g0.
    assert (Hsw : sender env = WINNER g).
    { unfold finalize_guards in Hgu.
      apply bind_Ok in Hgu as (? & _ & Hgu).
      apply bind_Ok in Hgu as (? & Hsw & _).
      apply Assert_Ok, bytes_eqb_true in Hsw. exact Hsw. }
    assert (Hne : sender env <> b) by congruence.
    assert (Hne' : b <> sender env) by congruence.
    destruct (Hrel _ (BondRefunded (sender env))
                (emit (PricePaid (ASA_QUOTE g) (SELLER g) price) st) _
                Hne (fun n => Hne') Hl Hr) as (H1 & H2 & H3).
    simpl in H2, H3. auto.
  - apply promote_next_Ok in Hm as (g0 & st1 & Hg0 & _ & _ & _ & Hr & ->).
    assert (g0 = g) by congruence. subst g0.
    assert (Hne : b <> WINNER g) by congruence.
    destruct (Hrel _ (BondSlashed (WINNER g) (SELLER g)) _ _ Hw
                (fun n => Hne) Hl Hr) as (H1 & H2 & H3).
    auto.
  - apply claim_refund_Ok in Hm
      as (g0 & ls0 & st1 & ls1 & _ & _ & Hl0 & Hrev0 & _ & _ & Hr & _ & ->).
    assert (Hne : sender env <> b).
    { intros Heq. rewrite Heq in Hl0.
      assert (ls0 = ls) by congruence. subst ls0.
      rewrite Hrev in Hrev0. discriminate. }
    assert (Hne' : b <> sender env) by congruence.
    destruct (Hrel _ (BondRefunded (sender env)) _ _ Hne (fun n => Hne')
                Hl Hr) as (H1 & H2 & H3).
    simpl. rewrite lookup_insert_ne by exact Hne. auto.
  - exfalso. eapply Hkyc, Hm.
  - apply update_Ok in Hm as ->. auto.
  - apply delete_Ok in Hm as ->. auto.
Qed.
End BondsAtRest.

(** * The further properties on the test scenarios *)

Lemma outcome_ok {A} (st : A) (r : result A) :
  (exists s, r = Ok s) -> r = Ok (outcome st r).
Proof. intros [s ->]. reflexivity. Defined.

Lemma scenario_run_reachable (cs : list (Env * AppCall)) :
  forallb (fun ec => keeps_program (on_completion (snd ec))) cs = true ->
  (exists st, run cs = Ok st) ->
  @reachable test_crypto (state_after cs).
Proof.
  intros Hk Hrun. apply (scenario_reachable cs); [exact Hk|].
  apply scenario_state, Hrun.
Qed.

Lemma bidder_record_monotone_witness :
  locals (state_after one_revealed) !! bidder2
  = Some (local_after one_revealed bidder2)
  /\ BONDED (local_after one_revealed bidder2) = 1
  /\ exists ls',
       locals (next (state_after one_revealed) (reveal2_by_third 120))
       !! bidder2 = Some ls'
       /\ COMMIT ls' = COMMIT (local_after one_revealed bidder2)
       /\ REMAINING_BOND ls'
          <= REMAINING_BOND (local_after one_revealed bidder2).
Proof.
  assert (Hl : locals (state_after one_revealed) !! bidder2
               = Some (local_after one_revealed bidder2)).
  { apply scenario_local. vm_compute. eauto. }
  assert (Hb : BONDED (local_after one_revealed bidder2) = 1)
    by (vm_compute; reflexivity).
  assert (Ha : @apply_call test_crypto (state_after one_revealed)
                 (fst (reveal2_by_third 120)) (snd (reveal2_by_third 120))
               = Ok (next (state_after one_revealed) (reveal2_by_third 120))).
  { apply outcome_ok. vm_compute. eauto. }
  split; [exact Hl|]. split; [exact Hb|].
  destruct (@bidder_record_monotone test_crypto _ _ _ _ _ _ Ha Hl Hb)
    as [(Hs & _) | (ls' & Hl' & Hc & _ & _ & _ & _ & _ & Hr)].
  - exfalso. vm_compute in Hs. discriminate.
  - exists ls'. auto.
Defined.

Lemma no_second_refund_witness :
  @reachable test_crypto (state_after (settled 1000005))
  /\ claim_refund (state_after (settled 1000005)) (alone bidder2 160)
     = Ok (outcome (state_after (settled 1000005))
             (claim_refund (state_after (settled 1000005))
                (alone bidder2 160)))
  /\ forall st3,
       claim_refund
         (outcome (state_after (settled 1000005))
            (claim_refund (state_after (settled 1000005))
               (alone bidder2 160)))
         (alone bidder2 170) <> Ok st3.
Proof.
  assert (Hreach : @reachable test_crypto (state_after (settled 1000005))).
  { apply scenario_run_reachable; [reflexivity | vm_compute; eauto]. }
  assert (Hc : claim_refund (state_after (settled 1000005))
                 (alone bidder2 160)
               = Ok (outcome (state_after (settled 1000005))
                       (claim_refund (state_after (settled 1000005))
                          (alone bidder2 160)))).
  { apply outcome_ok. vm_compute. eauto. }
  split; [exact Hreach|]. split; [exact Hc|].
  exact (@no_second_refund test_crypto _ _ _ (alone bidder2 160)
           (alone bidder2 170) [] Hreach Hc eq_refl eq_refl eq_refl).
Defined.

Lemma no_second_reveal_witness :
  @reachable test_crypto (state_after (committed 1000005 50))
  /\ boxes (state_after (committed 1000005 50)) !! hash1 = Some bidder1
  /\ forall st3,
       @reveal_for test_crypto
         (next (next (state_after (committed 1000005 50)) (reveal1 100))
               (reveal2_by_third 120))
         (alone third 125) hash1 (bid1 + 5) salt1 "hy" sig <> Ok st3.
Proof.
  assert (Hreach : @reachable test_crypto
                     (state_after (committed 1000005 50))).
  { apply scenario_run_reachable; [reflexivity | vm_compute; eauto]. }
  assert (Hbox : boxes (state_after (committed 1000005 50)) !! hash1
                 = Some bidder1) by (vm_compute; reflexivity).
  assert (Hr : @reveal_for test_crypto (state_after (committed 1000005 50))
                 (alone bidder1 100) hash1 bid1 salt1 "hy" sig
               = Ok (next (state_after (committed 1000005 50)) (reveal1 100))).
  { vm_compute. reflexivity. }
  assert (Hrun : @apply_calls test_crypto
                   (next (state_after (committed 1000005 50)) (reveal1 100))
                   [reveal2_by_third 120]
                 = Ok (next (next (state_after (committed 1000005 50))
                               (reveal1 100)) (reveal2_by_third 120))).
  { vm_compute. reflexivity. }
  assert (Hbox2 : boxes (next (next (state_after (committed 1000005 50))
                                 (reveal1 100)) (reveal2_by_third 120))
                  !! hash1 = Some bidder1) by (vm_compute; reflexivity).
  split; [exact Hreach|]. split; [exact Hbox|].
  exact (@no_second_reveal test_crypto _ _ _ _ (alone third 125)
           [reveal2_by_third 120] bidder1 hash1 hash1 bid1 (bid1 + 5)
           salt1 "hy" sig salt1 "hy" sig
           Hreach Hbox Hr eq_refl Hrun Hbox2).
Defined.

Lemma no_second_commit_witness :
  commit (state_after (created 1000005)) (after (pay 1000005) bidder1 20)
    hash1 "cid1" anon1
  = Ok (outcome (state_after (created 1000005))
          (commit (state_after (created 1000005))
             (after (pay 1000005) bidder1 20) hash1 "cid1" anon1))
  /\ forall st3,
       commit
         (outcome (state_after (created 1000005))
            (commit (state_after (created 1000005))
               (after (pay 1000005) bidder1 20) hash1 "cid1" anon1))
         (after (pay 1000005) bidder1 25) hash2 "cid2" anon2 <> Ok st3.
Proof.
  assert (Hc : commit (state_after (created 1000005))
                 (after (pay 1000005) bidder1 20) hash1 "cid1" anon1
               = Ok (outcome (state_after (created 1000005))
                       (commit (state_after (created 1000005))
                          (after (pay 1000005) bidder1 20)
                          hash1 "cid1" anon1))).
  { apply outcome_ok. vm_compute. eauto. }
  split; [exact Hc|].
  exact (@no_second_commit test_crypto _ _ _ _
           (after (pay 1000005) bidder1 25) [] _ _ _ hash2 "cid2" anon2
           Hc eq_refl eq_refl eq_refl).
Defined.

Lemma claim_refund_effect_witness :
  exists st',
    claim_refund (state_after (settled 1000005)) (alone bidder2 160) = Ok st'
    /\ events st'
       = BondRefunded bidder2 300001 :: events (state_after (settled 1000005)).
Proof.
  destruct (claim_refund (state_after (settled 1000005)) (alone bidder2 160))
    as [st'|e] eqn:Hc; [|vm_compute in Hc; discriminate].
  exists st'. split; [reflexivity|].
  destruct (claim_refund_effect _ _ _ Hc)
    as (g & ls & _ & Hl & _ & _ & _ & _ & _ & Hev & _).
  assert (Hls : ls = local_after (settled 1000005) bidder2).
  { assert (Hl' : locals (state_after (settled 1000005)) !! bidder2
                  = Some (local_after (settled 1000005) bidder2))
      by (apply scenario_local; vm_compute; eauto).
    simpl in Hl. congruence. }
  subst ls. exact Hev.
Defined.

Lemma promote_next_effect_witness :
  exists st' g',
    promote_next (state_after (settled 1000005)) (alone third 200) = Ok st'
    /\ globals st' = Some g'
    /\ WINNER g' = bidder2
    /\ WIN_BID g' = 1800000
    /\ SECOND_WINNER g' = ""%string
    /\ SECOND_BID g' = 0
    /\ SETTLE_ROUND g' = 200
    /\ SETTLED g' = 1
    /\ forall env2 st2, promote_next st' env2 <> Ok st2.
Proof.
  destruct (promote_next (state_after (settled 1000005)) (alone third 200))
    as [st'|e] eqn:Hp; [|vm_compute in Hp; discriminate].
  destruct (promote_next_effect _ _ _ Hp)
    as (g & lw & g' & Hg & _ & _ & _ & _ & Hg' & Hw & Hwb & Hsw & Hsb & Hsr
        & Hst & _ & _ & _ & _ & _ & _ & _ & _ & _ & _ & _ & _ & _ & _
        & Hagain).
  assert (Hgs : g = globals_after (settled 1000005)).
  { assert (Hg2 : globals (state_after (settled 1000005))
                  = Some (globals_after (settled 1000005)))
      by (apply scenario_globals; vm_compute; eauto).
    congruence. }
  subst g.
  exists st', g'. split; [reflexivity|]. split; [exact Hg'|].
  split; [rewrite Hw; vm_compute; reflexivity|].
  split; [rewrite Hwb; vm_compute; reflexivity|].
  split; [exact Hsw|]. split; [exact Hsb|].
  split; [exact Hsr|]. split; [exact Hst | exact Hagain].
Defined.

Lemma absent_winner_blocks_settlement_witness :
  @reachable test_crypto (state_after winner_gone)
  /\ globals (state_after winner_gone) = Some (globals_after winner_gone)
  /\ WINNER (globals_after winner_gone) = bidder1
  /\ locals (state_after winner_gone) !! bidder1 = None
  /\ promote_next (state_after winner_gone) (alone third 200)
     = Err NotOptedIn
  /\ forall env price st',
       finalize_win (state_after winner_gone) env price <> Ok st'.
Proof.
  assert (Hreach : @reachable test_crypto (state_after winner_gone)).
  { apply scenario_run_reachable; [reflexivity | vm_compute; eauto]. }
  assert (Hg : globals (state_after winner_gone)
               = Some (globals_after winner_gone))
    by (apply scenario_globals; vm_compute; eauto).
  assert (Hnone : locals (state_after winner_gone)
                  !! WINNER (globals_after winner_gone) = None)
    by (vm_compute; reflexivity).
  destruct (absent_winner_blocks_settlement _ _ Hg Hnone)
    as (Hfin & _ & Hprom).
  split; [exact Hreach|]. split; [exact Hg|].
  split; [vm_compute; reflexivity|]. split; [vm_compute; reflexivity|].
  split; [|exact Hfin].
  apply Hprom.
  - vm_compute. reflexivity.
  - vm_compute. reflexivity.
  - vm_compute. discriminate.
  - vm_compute. discriminate.
Defined.

Lemma finalize_win_repeats_witness :
  exists st1 st2,
    finalize_win (state_after (settled 1000005))
      (after (axfer 1800000) bidder1 155) 1800000 = Ok st1
    /\ finalize_win st1 (after (axfer 1800000) bidder1 155) 1800000 = Ok st2
    /\ events st2 = PricePaid asa seller 1800000 :: events st1.
Proof.
  destruct (finalize_win (state_after (settled 1000005))
              (after (axfer 1800000) bidder1 155) 1800000)
    as [st1|e] eqn:Hf; [|vm_compute in Hf; discriminate].
  destruct (finalize_win_repeats _ _ _ _ Hf)
    as (g & lw & st2 & Hg & _ & _ & _ & _ & _ & Hf2 & Hev & _).
  assert (Hgs : g = globals_after (settled 1000005)).
  { assert (Hg2 : globals (state_after (settled 1000005))
                  = Some (globals_after (settled 1000005)))
      by (apply scenario_globals; vm_compute; eauto).
    congruence. }
  subst g.
  exists st1, st2. split; [reflexivity|]. split; [exact Hf2|]. exact Hev.
Defined.

Lemma reveal_for_leaderboard_witness :
  @reachable test_crypto (state_after one_revealed)
  /\ WIN_BID (globals_after one_revealed) = 2000000
  /\ SECOND_BID (globals_after one_revealed) = 0
  /\ exists st' g',
       @reveal_for test_crypto (state_after one_revealed)
         (alone third 120) hash2 bid2 salt2 "hy" sig = Ok st'
       /\ globals st' = Some g'
       /\ WIN_BID g' = N.max 2000000 1800000
       /\ SECOND_BID g' = N.max 0 (N.min 2000000 1800000).
Proof.
  assert (Hreach : @reachable test_crypto (state_after one_revealed)).
  { apply scenario_run_reachable; [reflexivity | vm_compute; eauto]. }
  assert (Hg : globals (state_after one_revealed)
               = Some (globals_after one_revealed))
    by (apply scenario_globals; vm_compute; eauto).
  assert (Hbox : boxes (state_after one_revealed) !! hash2 = Some bidder2)
    by (vm_compute; reflexivity).
  split; [exact Hreach|].
  split; [vm_compute; reflexivity|]. split; [vm_compute; reflexivity|].
  destruct (@reveal_for test_crypto (state_after one_revealed)
              (alone third 120) hash2 bid2 salt2 "hy" sig)
    as [st'|e] eqn:Hr; [|vm_compute in Hr; discriminate].
  destruct (@reveal_for_leaderboard test_crypto _ _ _ _ _ _ _ _ _ _
              Hreach Hg Hbox Hr) as (g' & Hg' & Hw & Hs & _).
  exists st', g'. split; [reflexivity|]. split; [exact Hg'|].
  split; [exact Hw | exact Hs].
Defined.

Lemma parameters_are_constant_witness :
  @reachable test_crypto (state_after one_revealed)
  /\ exists g',
       globals (next (state_after one_revealed) (reveal2_by_third 120))
       = Some g'
       /\ SELLER g' = SELLER (globals_after one_revealed)
       /\ BOND g' = BOND (globals_after one_revealed)
       /\ COMMIT_END g' = COMMIT_END (globals_after one_revealed).
Proof.
  assert (Hreach : @reachable test_crypto (state_after one_revealed)).
  { apply scenario_run_reachable; [reflexivity | vm_compute; eauto]. }
  assert (Hg : globals (state_after one_revealed)
               = Some (globals_after one_revealed))
    by (apply scenario_globals; vm_compute; eauto).
  assert (Ha : @apply_call test_crypto (state_after one_revealed)
                 (fst (reveal2_by_third 120)) (snd (reveal2_by_third 120))
               = Ok (next (state_after one_revealed) (reveal2_by_third 120))).
  { apply outcome_ok. vm_compute. eauto. }
  split; [exact Hreach|].
  destruct (@parameters_are_constant test_crypto _ _
              (fst (reveal2_by_third 120)) (snd (reveal2_by_third 120)) _
              Hreach Hg eq_refl Ha)
    as (g' & Hg' & Hs & _ & _ & _ & Hb & _ & Hce & _).
  exists g'. auto.
Defined.

Lemma commit_then_reveal_witness :
  commit (state_after (created 1000005)) (after (pay 1000005) bidder1 20)
    hash1 "cid1" anon1
  = Ok (state_after (one_committed 1000005))
  /\ @apply_calls test_crypto (state_after (one_committed 1000005))
       [(after (pay 1000005) bidder2 21, abi (call_commit hash2 "cid2" anon2))]
     = Ok (state_after (committed 1000005 50))
  /\ exists st3 ls3,
       @reveal_for test_crypto (state_after (committed 1000005 50))
         (alone bidder1 100) hash1 bid1 salt1 "hy" sig = Ok st3
       /\ locals st3 !! bidder1 = Some ls3
       /\ REVEALED ls3 = 1
       /\ BID ls3 = bid1.
Proof.
  assert (Hg : globals (state_after (created 1000005))
               = Some (globals_after (created 1000005)))
    by (apply scenario_globals; vm_compute; eauto).
  assert (Hc : commit (state_after (created 1000005))
                 (after (pay 1000005) bidder1 20) hash1 "cid1" anon1
               = Ok (state_after (one_committed 1000005)))
    by (vm_compute; reflexivity).
  assert (Hrun : @apply_calls test_crypto (state_after (one_committed 1000005))
                   [(after (pay 1000005) bidder2 21,
                     abi (call_commit hash2 "cid2" anon2))]
                 = Ok (state_after (committed 1000005 50)))
    by (vm_compute; reflexivity).
  split; [exact Hc|]. split; [exact Hrun|].
  refine (@commit_then_reveal test_crypto _ _ _ _
            (after (pay 1000005) bidder1 20) (alone bidder1 100)
            _ bid1 salt1 anon1 "cid1" "hy" sig Hg Hc _ _ Hrun _ _ _ _ _ _ _).
  - repeat constructor.
  - vm_compute. reflexivity.
  - vm_compute. reflexivity.
  - intros ls Hl. vm_compute in Hl. injection Hl as <-. reflexivity.
  - vm_compute. reflexivity.
  - vm_compute. reflexivity.
  - eexists. split; vm_compute; reflexivity.
  - vm_compute. discriminate.
  - left. reflexivity.
Defined.

Lemma large_bond_needs_self_reveal_witness :
  REMAINING_BOND (local_after (committed huge_bond 50) bidder2) = huge_bond
  /\ uint64_max < huge_bond * 70
  /\ forall st',
       @reveal_for test_crypto (state_after (committed huge_bond 50))
         (alone third 120) hash2 bid2 salt2 "hy" sig <> Ok st'.
Proof.
  assert (Hbox : boxes (state_after (committed huge_bond 50)) !! hash2
                 = Some bidder2) by (vm_compute; reflexivity).
  assert (Hl : locals (state_after (committed huge_bond 50)) !! bidder2
               = Some (local_after (committed huge_bond 50) bidder2))
    by (apply scenario_local; vm_compute; eauto).
  assert (Hbig : uint64_max
                 < REMAINING_BOND (local_after (committed huge_bond 50)
                                     bidder2) * 70)
    by (vm_compute; reflexivity).
  split; [vm_compute; reflexivity|]. split; [vm_compute; reflexivity|].
  refine (proj1 (@large_bond_needs_self_reveal test_crypto _
                   (alone third 120) hash2 bid2 salt2 "hy" sig bidder2 _
                   Hbox Hl Hbig _)).
  vm_compute. discriminate.
Defined.

Lemma set_kyc_effect_witness :
  exists st',
    set_kyc (state_after (created 1000005)) (alone seller 15) bidder1 1
    = Ok st'
    /\ Btoi <$> (boxes st' !! (KYC_PREFIX +:+ bidder1)) = Some 1.
Proof.
  destruct (set_kyc (state_after (created 1000005)) (alone seller 15)
              bidder1 1) as [st'|e] eqn:Hk; [|vm_compute in Hk; discriminate].
  exists st'. split; [reflexivity|].
  destruct (set_kyc_effect _ _ _ _ _ Hk) as (g & _ & _ & _ & _ & Hb & _).
  - vm_compute. discriminate.
  - exact Hb.
Defined.

Lemma kyc_is_not_enforced_witness :
  exists st1 st3,
    set_kyc (state_after (created 1000005)) (alone seller 15) bidder1 0
    = Ok st1
    /\ commit st1 (after (pay 1000005) bidder1 20) hash1 "cid1" anon1
       = Ok st3
    /\ boxes st3 !! hash1 = Some bidder1.
Proof.
  destruct (set_kyc (state_after (created 1000005)) (alone seller 15)
              bidder1 0) as [st1|e] eqn:Hk; [|vm_compute in Hk; discriminate].
  destruct (commit (state_after (created 1000005))
              (after (pay 1000005) bidder1 20) hash1 "cid1" anon1)
    as [st2|e] eqn:Hc; [|vm_compute in Hc; discriminate].
  assert (Hne : hash1 <> (KYC_PREFIX +:+ bidder1)%string)
    by (vm_compute; discriminate).
  destruct (kyc_is_not_enforced _ _ _ _ _ _ _ _ _ _ Hk Hne Hc)
    as (st3 & Hc3 & _ & _ & _ & Hbox & _).
  exists st1, st3. split; [reflexivity|]. split; assumption.
Defined.

Lemma router_dispatch_witness :
  @apply_call test_crypto (state_after (committed 1000005 50))
    (alone bidder1 30) (bare CloseOut)
  = Ok (next (state_after (committed 1000005 50))
          (alone bidder1 30, bare CloseOut))
  /\ globals (next (state_after (committed 1000005 50))
                (alone bidder1 30, bare CloseOut))
     = globals (state_after (committed 1000005 50))
  /\ events (next (state_after (committed 1000005 50))
               (alone bidder1 30, bare CloseOut))
     = events (state_after (committed 1000005 50)).
Proof.
  assert (Ha : @apply_call test_crypto (state_after (committed 1000005 50))
                 (alone bidder1 30) (bare CloseOut)
               = Ok (next (state_after (committed 1000005 50))
                       (alone bidder1 30, bare CloseOut))).
  { apply (outcome_ok (state_after (committed 1000005 50))).
    vm_compute. eauto. }
  split; [exact Ha|].
  destruct (@router_dispatch test_crypto _ _ _ _ Ha)
    as [(Hoc & _) | (Hg & _ & Hev & _)].
  - discriminate.
  - split; assumption.
Defined.

Lemma close_out_forfeits_bond_witness :
  REMAINING_BOND (local_after (committed 1000005 50) bidder1) = 1000005
  /\ @apply_call test_crypto (state_after (committed 1000005 50))
       (alone bidder1 30) (bare CloseOut)
     = Ok (drop_local bidder1 (state_after (committed 1000005 50)))
  /\ events (drop_local bidder1 (state_after (committed 1000005 50)))
     = events (state_after (committed 1000005 50)).
Proof.
  split; [vm_compute; reflexivity|].
  destruct (@close_out_forfeits_bond test_crypto
              (state_after (committed 1000005 50)) (alone bidder1 30)
              (bare CloseOut) eq_refl)
    as (Ha & Hev & _).
  - vm_compute. discriminate.
  - left. reflexivity.
  - vm_compute. eauto.
  - split; [exact Ha | exact Hev].
Defined.

Lemma phases_partition_witness :
  globals (state_after (committed 1000005 50))
  = Some (globals_after (committed 1000005 50))
  /\ settle (state_after (committed 1000005 50)) (alone third 120)
     = Err PhaseViolation
  /\ reveal_phase (globals_after (committed 1000005 50)) (alone third 120)
     = Ok tt.
Proof.
  assert (Hg : globals (state_after (committed 1000005 50))
               = Some (globals_after (committed 1000005 50)))
    by (apply scenario_globals; vm_compute; eauto).
  split; [exact Hg|].
  destruct (@phases_partition test_crypto _ _ (alone third 120) Hg)
    as (_ & Hmid & _).
  - vm_compute. discriminate.
  - destruct Hmid as (_ & Hs & Hr).
    + split; vm_compute; [discriminate | reflexivity].
    + split; assumption.
Defined.

Lemma settlement_closes_bidding_witness :
  @reachable test_crypto (state_after (settled 1000005))
  /\ SETTLE_ROUND (globals_after (settled 1000005)) = 150
  /\ settle (state_after (settled 1000005)) (alone third 160)
     = Err AlreadySettled
  /\ forall commit_id bid salt hy att,
       @reveal_for test_crypto (state_after (settled 1000005))
         (alone third 160) commit_id bid salt hy att = Err PhaseViolation.
Proof.
  assert (Hreach : @reachable test_crypto (state_after (settled 1000005))).
  { apply scenario_run_reachable; [reflexivity | vm_compute; eauto]. }
  assert (Hg : globals (state_after (settled 1000005))
               = Some (globals_after (settled 1000005)))
    by (apply scenario_globals; vm_compute; eauto).
  destruct (@settlement_closes_bidding test_crypto _ _ (alone third 160)
              Hreach Hg) as (_ & Hr & Hs & _).
  - vm_compute. reflexivity.
  - vm_compute. discriminate.
  - split; [exact Hreach|]. split; [vm_compute; reflexivity|].
    split; [exact Hs | exact Hr].
Defined.

Lemma finalize_excludes_promote_witness :
  (exists st',
     finalize_win (state_after (settled 1000005))
       (after (axfer 1800000) bidder1 155) 1800000 = Ok st')
  /\ promote_next (state_after (settled 1000005))
       (after (axfer 1800000) bidder1 155) = Err PhaseViolation.
Proof.
  destruct (finalize_win (state_after (settled 1000005))
              (after (axfer 1800000) bidder1 155) 1800000)
    as [st'|e] eqn:Hf; [|vm_compute in Hf; discriminate].
  split; [eauto|].
  exact (proj1 (finalize_excludes_promote _ _ _ _ Hf)).
Defined.

Lemma attestation_binds_call_witness :
  exists msg,
    attestation_msg (globals_after (committed 1000005 50))
      (alone bidder1 100) "hy" = Ok msg
    /\ round (alone bidder1 100) = round (alone bidder1 100).
Proof.
  destruct (attestation_msg (globals_after (committed 1000005 50))
              (alone bidder1 100) "hy") as [msg|e] eqn:Hm;
    [|vm_compute in Hm; discriminate].
  exists msg. split; [reflexivity|].
  refine (proj2 (proj2 (attestation_binds_call _ (alone bidder1 100)
                          (alone bidder1 100) "hy" "hy" msg Hm Hm
                          _ _ _ _))); vm_compute; discriminate.
Defined.

Lemma escrow_is_solvent_witness :
  @reachable test_crypto (state_after (revealed 1000005))
  /\ total bond_out (events (state_after (revealed 1000005)))
     + held (locals (state_after (revealed 1000005)))
     <= total bond_in (events (state_after (revealed 1000005))).
Proof.
  assert (Hreach : @reachable test_crypto (state_after (revealed 1000005))).
  { apply scenario_run_reachable; [reflexivity | vm_compute; eauto]. }
  split; [exact Hreach|].
  exact (@escrow_is_solvent test_crypto _ Hreach).
Defined.

Lemma self_reveal_keeps_bond_witness :
  exists st',
    @reveal_for test_crypto (state_after (committed 1000005 50))
      (alone bidder1 100) hash1 bid1 salt1 "hy" sig = Ok st'
    /\ events st' = events (state_after (committed 1000005 50)).
Proof.
  destruct (@reveal_for test_crypto (state_after (committed 1000005 50))
              (alone bidder1 100) hash1 bid1 salt1 "hy" sig)
    as [st'|e] eqn:Hr; [|vm_compute in Hr; discriminate].
  exists st'. split; [reflexivity|].
  refine (proj1 (@self_reveal_keeps_bond test_crypto _ _ _ _ _ _ _ _
                   (local_after (committed 1000005 50) bidder1) Hr _ _)).
  - vm_compute. reflexivity.
  - apply (scenario_local (committed 1000005 50) bidder1).
    vm_compute. eauto.
Defined.

Lemma unrevealed_bond_is_locked_witness :
  @reachable test_crypto (state_after one_revealed_settled)
  /\ REVEALED (local_after one_revealed_settled bidder2) = 0
  /\ REMAINING_BOND (local_after one_revealed_settled bidder2) = 1000005
  /\ exists st',
       finalize_win (state_after one_revealed_settled)
         (after (axfer 1500000) bidder1 155) 1500000 = Ok st'
       /\ locals st' !! bidder2
          = Some (local_after one_revealed_settled bidder2)
       /\ claim_refund (state_after one_revealed_settled) (alone bidder2 160)
          = Err NotRevealed.
Proof.
  assert (Hreach : @reachable test_crypto (state_after one_revealed_settled)).
  { apply scenario_run_reachable; [reflexivity | vm_compute; eauto]. }
  assert (Hg : globals (state_after one_revealed_settled)
               = Some (globals_after one_revealed_settled))
    by (apply scenario_globals; vm_compute; eauto).
  assert (Hl : locals (state_after one_revealed_settled) !! bidder2
               = Some (local_after one_revealed_settled bidder2))
    by (apply scenario_local; vm_compute; eauto).
  split; [exact Hreach|].
  split; [vm_compute; reflexivity|]. split; [vm_compute; reflexivity|].
  destruct (finalize_win (state_after one_revealed_settled)
              (after (axfer 1500000) bidder1 155) 1500000)
    as [st'|e] eqn:Hf; [|vm_compute in Hf; discriminate].
  exists st'. split; [reflexivity|]. split; [|vm_compute; reflexivity].
  refine (proj1 (@unrevealed_bond_is_locked test_crypto _ st' _
                   (after (axfer 1500000) bidder1 155)
                   (call_finalize_win 1500000) bidder2 _
                   Hreach Hg _ _ Hl _ _ _ _ Hf)).
  - vm_compute. reflexivity.
  - vm_compute. discriminate.
  - vm_compute. reflexivity.
  - vm_compute. reflexivity.
  - vm_compute. discriminate.
  - intros a. discriminate.
Defined.
